(** * govee-cli: nickname and group registry, target resolution, dispatch

    A shallow embedding of [govee-cli.py].  JSON values are an inductive
    type whose objects are finite maps (a Python [dict] compared by value);
    the functions of the script that read the configuration file, print, or
    call the vendor API are computations in a state-and-exception monad over
    an explicit [world]. *)

From Stdlib Require Import ZArith Ascii.
From stdpp Require Import gmap strings list fin_maps sorting.

Set Warnings "-register-all".
Open Scope string_scope.

(** ** JSON values

    What [json.load] returns.  A number is never inspected by the script
    (it only asks whether a value is a [str] or a [dict]), so [JNum] stands
    for every JSON number.  [JNull] is Python's [None]. *)
Inductive json : Type :=
  | JNull
  | JBool (b : bool)
  | JNum (n : Z)
  | JStr (s : string)
  | JArr (l : list json)
  | JObj (d : gmap string json).

(** A resolved target, the tuple [(device, model)]. *)
Definition target : Type := json * json.

(** A nickname entry, the dict [{"id": ..., "model": ...}] with [str] fields
    that [load_config_devices] and [names_add] build. *)
Record ent := Ent { ent_id : string; ent_model : string }.

(** ** Exceptions *)

(** [GoveeError], one constructor per [raise] site of the script; an error
    raised inside [api_request] is [ApiError] with its message. *)
Inductive GoveeError :=
  | ApiError (msg : string)
  | ConfigInvalidJson (e : string)
  | ConfigInvalidGroups
  | NicknameNotFound (name : string)
  | AmbiguousAutoDetect
  | AmbiguousSelector
  | GroupNotFound (group : string)
  | GroupReferencesUnknownNickname (group m : string)
  | InvalidGroupMember (group : string) (m : json)
  | EmptyGroup (group : string)
  | InvalidPair (p : string)
  | ManagedGroupNotFound (gname : string)
  | NoMembersGiven
  | UnknownMemberNickname (n : string).

(** The error kinds of the specification's taxonomy, and the kind of each
    raise site. *)
Inductive ErrorKind :=
  | DispatchFailure | ConfigCorrupt | UnknownNickname | UnknownGroup
  | KAmbiguousSelector | KAmbiguousAutoDetect | KEmptyGroup
  | KGroupReferencesUnknownNickname | KInvalidGroupMember
  | KInvalidPair | KNoMembersGiven.

Definition kind (e : GoveeError) : ErrorKind :=
  match e with
  | ApiError _ => DispatchFailure
  | ConfigInvalidJson _ | ConfigInvalidGroups => ConfigCorrupt
  | NicknameNotFound _ | UnknownMemberNickname _ => UnknownNickname
  | GroupNotFound _ | ManagedGroupNotFound _ => UnknownGroup
  | AmbiguousAutoDetect => KAmbiguousAutoDetect
  | AmbiguousSelector => KAmbiguousSelector
  | GroupReferencesUnknownNickname _ _ => KGroupReferencesUnknownNickname
  | InvalidGroupMember _ _ => KInvalidGroupMember
  | EmptyGroup _ => KEmptyGroup
  | InvalidPair _ => KInvalidPair
  | NoMembersGiven => KNoMembersGiven
  end.

(** Exceptions the script does not catch: the two it runs into on a value
    of the wrong shape, and those that [api_request] lets through, which
    catches [HTTPError], [URLError] and [json.JSONDecodeError] only.  A
    response body that is not UTF-8 raises [UnicodeDecodeError] in
    [resp_data.decode("utf-8")]; a connection that stalls while the body is
    read raises [TimeoutError] in [resp.read()]; [OtherError] is an
    exception of any other class, by its name ([ConnectionResetError],
    [IncompleteRead], [RecursionError]). *)
Inductive PyError :=
  | AttributeError
  | TypeError
  | UnicodeDecodeError
  | TimeoutError
  | OtherError (name : string).

Inductive outcome (A : Type) : Type :=
  | Ok (a : A)
  | Raise (e : GoveeError)
  | Uncaught (x : PyError).
Arguments Ok {A} a.
Arguments Raise {A} e.
Arguments Uncaught {A} x.

#[global] Instance outcome_ret : MRet outcome := λ A a, Ok a.
#[global] Instance outcome_bind : MBind outcome := λ A B f c,
  match c with
  | Ok a => f a
  | Raise e => Raise e
  | Uncaught x => Uncaught x
  end.

(** ** The host: what the script takes from its environment *)

(** The state of the configuration file at [CONFIG_PATH]: absent, present
    but rejected by [json.load] with the given [JSONDecodeError] text, or
    holding a JSON document ([json.dump] followed by [json.load] is the
    identity on documents). *)
Inductive file_state :=
  | Missing
  | Malformed (err : string)
  | Document (data : json).

(** A line written by [print]: text, or [json.dumps(j, indent=...)]. *)
Inductive line :=
  | Text (s : string)
  | Dumps (indent : option nat) (j : json).

(** One call of [api_request]: path, method, body. *)
Definition request : Type := string * string * option json.

(** How a call of [api_request] fails: with a [GoveeError] of the given
    message (the missing API key, an HTTP error status, an unreachable
    network, a body that is not JSON), or with an exception of another
    class, which [api_request] does not catch. *)
Inductive api_failure :=
  | Reported (msg : string)
  | Escaped (x : PyError).

Class Host := {
  (** [os.path.expanduser("~/.config/govee_devices.json")] *)
  CONFIG_PATH : string;
  (** [repr(v)] of a value *)
  repr : json → string;
  (** the one-character strings a [for] loop over a [str] visits *)
  str_iter : string → list string;
  (** the keys a [for] loop over a [dict] visits, in insertion order *)
  dict_iter : gmap string json → list string;
  (** the vendor service behind [api_request]: the decoded response, or
      the way the call fails *)
  Service : Type;
  api_call : request → Service → (json + api_failure) * Service;
}.

Section Govee.
Context `{Host}.

Record world := World {
  config : file_state;
  stdout : list line;
  service : Service;
  api_log : list request;
}.

(** ** The monad of the script's procedures *)

Definition M (A : Type) : Type := world → outcome A * world.

#[global] Instance M_ret : MRet M := λ A a w, (Ok a, w).
#[global] Instance M_bind : MBind M := λ A B f c w,
  match c w with
  | (Ok a, w') => f a w'
  | (Raise e, w') => (Raise e, w')
  | (Uncaught x, w') => (Uncaught x, w')
  end.

Definition raise {A} (e : GoveeError) : M A := λ w, (Raise e, w).
Definition lift {A} (o : outcome A) : M A := λ w, (o, w).

(** [try: c  except GoveeError as e: h e] *)
Definition try_except {A} (c : M A) (h : GoveeError → M A) : M A := λ w,
  match c w with
  | (Raise e, w') => h e w'
  | r => r
  end.

Definition read_config : M file_state := λ w, (Ok (config w), w).
Definition write_config (f : file_state) : M unit := λ w,
  (Ok (), World f (stdout w) (service w) (api_log w)).
Definition print (l : line) : M unit := λ w,
  (Ok (), World (config w) (stdout w ++ [l]) (service w) (api_log w)).

(** ** Python primitives *)

(** [str(v)]: a [str] is itself, any other JSON value prints as its
    [repr]. *)
Definition py_str (v : json) : string :=
  match v with
  | JStr s => s
  | _ => repr v
  end.

(** [bool(x)] of an optional command-line string. *)
Definition truthy (x : option string) : bool :=
  match x with
  | Some s => negb (bool_decide (s = ""))
  | None => false
  end.

(** The elements a [for] loop visits; [TypeError] where the value is not
    iterable. *)
Definition py_iter (v : json) : outcome (list json) :=
  match v with
  | JArr l => Ok l
  | JStr s => Ok (JStr <$> str_iter s)
  | JObj d => Ok (JStr <$> dict_iter d)
  | _ => Uncaught TypeError
  end.

(** [v.get(k, default)]; only a [dict] has [get]. *)
Definition py_get (v : json) (k : string) (dflt : json) : outcome json :=
  match v with
  | JObj d => Ok (default dflt (d !! k))
  | _ => Uncaught AttributeError
  end.

(** [v == s] for a string literal [s]. *)
Definition eq_str (v : json) (s : string) : bool :=
  match v with
  | JStr t => bool_decide (t = s)
  | _ => false
  end.

(** [isinstance(m, dict) and "id" in m and "model" in m], giving the two
    fields. *)
Definition id_model (v : json) : option (json * json) :=
  match v with
  | JObj o =>
      match o !! "id", o !! "model" with
      | Some i, Some m => Some (i, m)
      | _, _ => None
      end
  | _ => None
  end.

Definition GROUPS_KEY : string := "_groups".

(** The text of a [GoveeError], as the f-strings of the script build it. *)
Definition message (e : GoveeError) : string :=
  match e with
  | ApiError msg => msg
  | ConfigInvalidJson e =>
      "Config JSON is invalid at " ++ CONFIG_PATH ++ ": " ++ e
  | ConfigInvalidGroups =>
      CONFIG_PATH ++ " has invalid '" ++ GROUPS_KEY ++ "' format. Expected an object."
  | NicknameNotFound name =>
      "Nickname '" ++ name ++ "' not found in " ++ CONFIG_PATH ++ ". Use `names add` to create it."
  | AmbiguousAutoDetect =>
      "Specify --name OR --device and --model, or have exactly one H6008 on the account."
  | AmbiguousSelector =>
      "Use only one of --name or --group (or explicit --device/--model)."
  | GroupNotFound group =>
      "Group '" ++ group ++ "' not found. Create it with `groups add " ++ group ++ "` and add members."
  | GroupReferencesUnknownNickname group m =>
      "Group '" ++ group ++ "' refers to unknown nickname '" ++ m ++ "'. Add it with `names add`."
  | InvalidGroupMember group m =>
      "Invalid member in group '" ++ group ++ "': " ++ repr m
  | EmptyGroup group =>
      "Group '" ++ group ++ "' has no members."
  | InvalidPair p =>
      "Invalid pair '" ++ p ++ "'. Expected id:model"
  | ManagedGroupNotFound gname =>
      "Group '" ++ gname ++ "' not found."
  | NoMembersGiven =>
      "Provide at least one member via --names or --pairs id:model"
  | UnknownMemberNickname n =>
      "Unknown nickname '" ++ n ++ "'. Create it with `names add`."
  end.

(** ** Registry store *)

Definition _load_raw_config : M json :=
  f ← read_config;
  match f with
  | Document data => mret data
  | Missing => mret (JObj ∅)
  | Malformed e => raise (ConfigInvalidJson e)
  end.

(** The body of the loop of [load_config_devices] for one item. *)
Definition add_device (k : string) (v : json) (out : gmap string ent) : gmap string ent :=
  if bool_decide (k = GROUPS_KEY) then out
  else match id_model v with
       | Some (i, m) => <[k := Ent (py_str i) (py_str m)]> out
       | None => out
       end.

Definition load_config_devices : M (gmap string ent) :=
  data ← _load_raw_config;
  match data with
  | JObj items => mret (map_fold add_device ∅ items)
  | _ => lift (Uncaught AttributeError)
  end.

Definition load_config_groups : M (gmap string json) :=
  data ← _load_raw_config;
  groups ← lift (py_get data GROUPS_KEY (JObj ∅));
  match groups with
  | JObj g => mret g
  | _ => raise ConfigInvalidGroups
  end.

Definition ent_json (e : ent) : json :=
  JObj (<["id" := JStr (ent_id e)]> (<["model" := JStr (ent_model e)]> ∅)).

Definition save_full_config (devmap : gmap string ent) (groups : gmap string json) : M unit :=
  let payload : gmap string json := ent_json <$> devmap in
  let payload := <[GROUPS_KEY := JObj groups]> payload in
  write_config (Document (JObj payload)).

(** ** Vendor API *)

Definition api_request (path method : string) (data : option json) : M json := λ w,
  let '(r, s) := api_call (path, method, data) (service w) in
  let w' := World (config w) (stdout w) s (api_log w ++ [(path, method, data)]) in
  match r with
  | inl resp => (Ok resp, w')
  | inr (Reported msg) => (Raise (ApiError msg), w')
  | inr (Escaped x) => (Uncaught x, w')
  end.

Definition list_devices : M json := api_request "/devices" "GET" None.

Definition control (device model cmd : json) : M json :=
  let payload : gmap string json :=
    <["device" := device]> (<["model" := model]> (<["cmd" := cmd]> ∅)) in
  api_request "/devices/control" "PUT" (Some (JObj payload)).

(** ** Target resolver *)

(** [[d for d in items if d.get("model") == "H6008"]] *)
Fixpoint filter_h6008 (items : list json) : outcome (list json) :=
  match items with
  | [] => Ok []
  | d :: rest =>
      m ← py_get d "model" JNull;
      r ← filter_h6008 rest;
      Ok (if eq_str m "H6008" then d :: r else r)
  end.

Definition guess_single_h6008 (devices : json) : outcome (option target) :=
  data ← py_get devices "data" devices;
  items ← py_get data "devices" (JArr []);
  l ← py_iter items;
  h6008 ← filter_h6008 l;
  match h6008 with
  | [d] =>
      dev ← py_get d "device" JNull;
      mdl ← py_get d "model" (JStr "H6008");
      Ok (Some (dev, mdl))
  | _ => Ok None
  end.

Definition resolve_single_target (name device model : option string) : M target :=
  if truthy name then
    let name := default "" name in
    devmap ← load_config_devices;
    match devmap !! name with
    | None => raise (NicknameNotFound name)
    | Some e => mret (JStr (ent_id e), JStr (ent_model e))
    end
  else if truthy device && truthy model then
    mret (JStr (default "" device), JStr (default "" model))
  else
    devices ← list_devices;
    guessed ← lift (guess_single_h6008 devices);
    match guessed with
    | Some (dev, mdl) =>
        _ ← print (Text ("[info] Using detected H6008 device: "
                          ++ py_str dev ++ " (" ++ py_str mdl ++ ")"));
        mret (dev, mdl)
    | None => raise AmbiguousAutoDetect
    end.

(** The body of the loop of [resolve_targets] for one member. *)
Definition resolve_member (devmap : gmap string ent) (group : string) (m : json) : outcome target :=
  match m with
  | JStr s =>
      match devmap !! s with
      | None => Raise (GroupReferencesUnknownNickname group s)
      | Some e => Ok (JStr (ent_id e), JStr (ent_model e))
      end
  | _ =>
      match id_model m with
      | Some (i, mo) => Ok (JStr (py_str i), JStr (py_str mo))
      | None => Raise (InvalidGroupMember group m)
      end
  end.

Fixpoint resolve_members (devmap : gmap string ent) (group : string) (members : list json)
    : outcome (list target) :=
  match members with
  | [] => Ok []
  | m :: rest =>
      t ← resolve_member devmap group m;
      resolved ← resolve_members devmap group rest;
      Ok (t :: resolved)
  end.

Definition resolve_targets (name device model group : option string) : M (list target) :=
  if bool_decide (1 < sum_list (Nat.b2n <$> [truthy name; truthy group])) then
    raise AmbiguousSelector
  else if truthy group then
    let group := default "" group in
    devmap ← load_config_devices;
    groups ← load_config_groups;
    match groups !! group with
    | None | Some JNull => raise (GroupNotFound group)
    | Some members =>
        l ← lift (py_iter members);
        resolved ← lift (resolve_members devmap group l);
        match resolved with
        | [] => raise (EmptyGroup group)
        | _ => mret resolved
        end
    end
  else
    t ← resolve_single_target name device model;
    mret [t].

(** ** Command dispatcher *)

Definition result_line (dev mdl resp : json) : line :=
  Dumps (Some 2) (JObj (<["device" := dev]> (<["model" := mdl]> (<["result" := resp]> ∅)))).

Definition error_line (dev mdl : json) (e : GoveeError) : line :=
  Dumps None (JObj (<["device" := dev]> (<["model" := mdl]> (<["error" := JStr (message e)]> ∅)))).

Fixpoint _apply_to_targets (targets : list target) (cmd : json) : M unit :=
  match targets with
  | [] => mret ()
  | (dev, mdl) :: rest =>
      _ ← try_except
            (resp ← control dev mdl cmd; print (result_line dev mdl resp))
            (λ e, print (error_line dev mdl e));
      _apply_to_targets rest cmd
  end.

(** ** Nickname management *)

Definition names_add (nickname device model : string) : M unit :=
  devmap ← load_config_devices;
  groups ← load_config_groups;
  let devmap := <[nickname := Ent device model]> devmap in
  _ ← save_full_config devmap groups;
  print (Text ("Saved nickname '" ++ nickname ++ "' -> id=" ++ device
               ++ " model=" ++ model ++ " in " ++ CONFIG_PATH)).

(** [not (isinstance(m, str) and m == nick)] *)
Definition keeps (nick : string) (m : json) : bool := negb (eq_str m nick).

(** [[m for m in members if not (isinstance(m, str) and m == nick)]] *)
Definition prune (nick : string) (members : json) : outcome json :=
  l ← py_iter members;
  Ok (JArr (List.filter (keeps nick) l)).

(** The loop [for g, members in list(groups.items()): groups[g] = ...],
    which overwrites the entries of [groups] one by one. *)
Definition prune_groups (nick : string) (groups : gmap string json) : outcome (gmap string json) :=
  map_fold (λ g members acc,
              gs ← acc;
              ms ← prune nick members;
              Ok (<[g := ms]> gs))
           (Ok groups) groups.

Definition names_remove (nickname : string) : M unit :=
  devmap ← load_config_devices;
  groups ← load_config_groups;
  match devmap !! nickname with
  | None =>
      print (Text ("Nickname '" ++ nickname ++ "' not found in " ++ CONFIG_PATH))
  | Some _ =>
      let devmap := delete nickname devmap in
      groups ← lift (prune_groups nickname groups);
      _ ← save_full_config devmap groups;
      print (Text ("Removed nickname '" ++ nickname ++ "' from " ++ CONFIG_PATH
                   ++ " and all groups"))
  end.

(** ** Group management *)

Definition groups_add (group : string) : M unit :=
  devmap ← load_config_devices;
  groups ← load_config_groups;
  match groups !! group with
  | Some _ => print (Text ("Group '" ++ group ++ "' already exists."))
  | None =>
      _ ← save_full_config devmap (<[group := JArr []]> groups);
      print (Text ("Created group '" ++ group ++ "' in " ++ CONFIG_PATH))
  end.

(** [p.split(":", 1)] where [":" in p]; [None] where it is not. *)
Fixpoint split_colon (p : string) : option (string * string) :=
  match p with
  | EmptyString => None
  | String c rest =>
      if Ascii.eqb c ":"%char then Some (EmptyString, rest)
      else '(a, b) ← split_colon rest; Some (String c a, b)
  end.

Definition pair_json (dev_id model : string) : json :=
  JObj (<["id" := JStr dev_id]> (<["model" := JStr model]> ∅)).

Fixpoint parse_pairs_loop (pairs : list string) : outcome (list json) :=
  match pairs with
  | [] => Ok []
  | p :: rest =>
      match split_colon p with
      | None => Raise (InvalidPair p)
      | Some (dev_id, model) =>
          out ← parse_pairs_loop rest;
          Ok (pair_json dev_id model :: out)
      end
  end.

Definition _parse_pairs (pairs : option (list string)) : outcome (list json) :=
  match pairs with
  | None | Some [] => Ok []
  | Some pairs => parse_pairs_loop pairs
  end.

(** [for n in names: if n not in devmap: raise ...] *)
Fixpoint validate_names (devmap : gmap string ent) (names : list string) : outcome unit :=
  match names with
  | [] => Ok ()
  | n :: rest =>
      match devmap !! n with
      | None => Raise (UnknownMemberNickname n)
      | Some _ => validate_names devmap rest
      end
  end.

Definition groups_add_members (gname : string) (names pairs : option (list string)) : M unit :=
  devmap ← load_config_devices;
  groups ← load_config_groups;
  match groups !! gname with
  | None => raise (ManagedGroupNotFound gname)
  | Some members =>
      let names := default [] names in
      pairs ← lift (_parse_pairs pairs);
      match names, pairs with
      | [], [] => raise NoMembersGiven
      | _, _ =>
          _ ← lift (validate_names devmap names);
          match members with
          | JArr members =>
              let members := (members ++ (JStr <$> names) ++ pairs)%list in
              _ ← save_full_config devmap (<[gname := JArr members]> groups);
              print (Text ("Added members to '" ++ gname ++ "'."))
          | _ => lift (Uncaught AttributeError)
          end
      end
  end.

End Govee.

(** ** Number and colour utilities

    A [string] holds the bytes of a Python [str] in UTF-8.  [strip] below
    is [str.strip()]: it removes at both ends the characters for which
    [str.isspace()] holds, which are the white space of ASCII, of one byte
    each, and the white space of Unicode beyond ASCII, of two or three
    bytes each.  [lower] is [str.lower()] on the letters of ASCII.  A
    character outside ASCII it leaves as it is, where [str.lower()] gives a
    character outside ASCII again, save [k] for the Kelvin sign and [i]
    before a combining dot for the dotted capital I; to [hex_to_rgb] and
    [cmd_power] this is the same, for they compare the lowered text with
    ["on"], with ["#"] and with the class [[0-9a-f]]. *)

Definition clamp (n lo hi : Z) : Z := Z.max lo (Z.min hi n).

(** [c.isspace()] for a character of one byte: tab to carriage return, the
    four separators 28 to 31, and the space. *)
Definition is_space (c : ascii) : bool :=
  let n := N_of_ascii c in
  ((9 <=? n) && (n <=? 13) || (28 <=? n) && (n <=? 32))%N.

(** [isspace()] for a character of two bytes [a b]: U+0085 (next line) and
    U+00A0 (no-break space), in UTF-8 [C2 85] and [C2 A0]. *)
Definition is_space2 (a b : ascii) : bool :=
  let a := N_of_ascii a in
  let b := N_of_ascii b in
  ((a =? 194) && ((b =? 133) || (b =? 160)))%N.

(** [isspace()] for a character of three bytes [a b c]: U+1680, in UTF-8
    [E1 9A 80]; U+2000 to U+200A, [E2 80 80] to [E2 80 8A]; U+2028, U+2029
    and U+202F, [E2 80 A8], [E2 80 A9] and [E2 80 AF]; U+205F, [E2 81 9F];
    U+3000, [E3 80 80].  No character of four bytes is white space. *)
Definition is_space3 (a b c : ascii) : bool :=
  let a := N_of_ascii a in
  let b := N_of_ascii b in
  let c := N_of_ascii c in
  ((a =? 225) && (b =? 154) && (c =? 128)
   || (a =? 226) && (b =? 128)
      && ((128 <=? c) && (c <=? 138) || (c =? 168) || (c =? 169) || (c =? 175))
   || (a =? 226) && (b =? 129) && (c =? 159)
   || (a =? 227) && (b =? 128) && (c =? 128))%N.

(** [s.lstrip()]: the text from its first character that is not white
    space. *)
Fixpoint lstrip (s : string) : string :=
  match s with
  | EmptyString => EmptyString
  | String a r1 =>
      if is_space a then lstrip r1
      else match r1 with
           | EmptyString => s
           | String b r2 =>
               if is_space2 a b then lstrip r2
               else match r2 with
                    | EmptyString => s
                    | String c r3 => if is_space3 a b c then lstrip r3 else s
                    end
           end
  end.

(** A text of white space only. *)
Definition blank (s : string) : bool :=
  match lstrip s with
  | EmptyString => true
  | _ => false
  end.

(** [s.rstrip()]: the text up to the point after which only white space
    follows. *)
Fixpoint rstrip (s : string) : string :=
  match s with
  | EmptyString => EmptyString
  | String c rest => if blank s then EmptyString else String c (rstrip rest)
  end.

Definition strip (s : string) : string := rstrip (lstrip s).

Definition lower_char (c : ascii) : ascii :=
  let n := N_of_ascii c in
  if ((65 <=? n) && (n <=? 90))%N then ascii_of_N (n + 32) else c.

Fixpoint lower (s : string) : string :=
  match s with
  | EmptyString => EmptyString
  | String c rest => String (lower_char c) (lower rest)
  end.

(** The value of a character of the class [[0-9a-f]]; [None] outside it. *)
Definition hex_digit (c : ascii) : option Z :=
  let n := N_of_ascii c in
  if ((48 <=? n) && (n <=? 57))%N then Some (Z.of_N n - 48)%Z
  else if ((97 <=? n) && (n <=? 102))%N then Some (Z.of_N n - 87)%Z
  else None.

(** [int(h[i:i+2], 16)] on two characters of the class. *)
Definition hex_byte (c1 c2 : ascii) : option Z :=
  a ← hex_digit c1; b ← hex_digit c2; Some (16 * a + b)%Z.

(** [hex_to_rgb]; [None] where the script raises
    [GoveeError("HEX color must look like #RRGGBB (e.g., #ff8800).")]. *)
Definition hex_to_rgb (h : string) : option (Z * Z * Z) :=
  let h := lower (strip h) in
  let h := match h with
           | String c rest => if Ascii.eqb c "#" then rest else h
           | EmptyString => h
           end in
  match h with
  | String r1 (String r2 (String g1 (String g2 (String b1 (String b2 EmptyString))))) =>
      r ← hex_byte r1 r2; g ← hex_byte g1 g2; b ← hex_byte b1 b2; Some (r, g, b)
  | _ => None
  end.

(** [sorted(d.items())]: the items of a dict by increasing key. *)
Definition key_le {A} (a b : string * A) : Prop := String.leb a.1 b.1 = true.

#[global] Instance key_le_dec {A} (a b : string * A) : Decision (key_le a b).
Proof. unfold key_le. apply _. Defined.

Definition sorted_items {A} (d : gmap string A) : list (string * A) :=
  merge_sort key_le (map_to_list d).

(** ** The other commands *)

Section Commands.
Context `{Host}.

Definition command_json (name : string) (value : json) : json :=
  JObj (<["name" := JStr name]> (<["value" := value]> ∅)).


(** [level] and [kelvin] are the integers [argparse] hands over. *)
Definition cmd_brightness (name device model group : option string) (level : Z) : M unit :=
  targets ← resolve_targets name device model group;
  let value := clamp level 0 100 in
  _apply_to_targets targets (command_json "brightness" (JNum value)).


Definition _load_merged : M (gmap string json) :=
  devmap ← load_config_devices;
  groups ← load_config_groups;
  let merged : gmap string json := ent_json <$> devmap in
  mret (<[GROUPS_KEY := JObj groups]> merged).

Fixpoint print_all (lines : list line) : M unit :=
  match lines with
  | [] => mret ()
  | l :: rest => _ ← print l; print_all rest
  end.

Definition names_list : M unit :=
  devmap ← load_config_devices;
  if bool_decide (size devmap = 0) then
    print (Text "(no nicknames) — create one with: govee_cli.py names add <nick> -d <id> -m <model>")
  else
    print_all ((λ '(nick, e), Text (nick ++ ": id=" ++ ent_id e ++ " model=" ++ ent_model e))
               <$> sorted_items devmap).

(** What [groups list] and [groups show] display for a member: a string as
    it is, a dict as [id:model]; [None] for a member they skip. *)
Definition member_text (m : json) : option string :=
  match m with
  | JStr s => Some s
  | JObj o => Some (py_str (default JNull (o !! "id")) ++ ":"
                    ++ py_str (default JNull (o !! "model")))
  | _ => None
  end.

Definition group_line (g : string) (members : list json) : line :=
  Text (g ++ ": [" ++ String.concat ", " (omap member_text members) ++ "]").

Fixpoint groups_list_loop (items : list (string * json)) : M unit :=
  match items with
  | [] => mret ()
  | (g, members) :: rest =>
      l ← lift (py_iter members);
      _ ← print (group_line g l);
      groups_list_loop rest
  end.

Definition groups_list : M unit :=
  groups ← load_config_groups;
  if bool_decide (size groups = 0) then
    print (Text "(no groups) — create one with: govee_cli.py groups add <group>")
  else groups_list_loop (sorted_items groups).

Definition groups_show (group : string) : M unit :=
  groups ← load_config_groups;
  match groups !! group with
  | None | Some JNull => print (Text ("Group '" ++ group ++ "' not found."))
  | Some members =>
      l ← lift (py_iter members);
      print (group_line group l)
  end.

Definition groups_remove (group : string) : M unit :=
  devmap ← load_config_devices;
  groups ← load_config_groups;
  match groups !! group with
  | None => print (Text ("Group '" ++ group ++ "' not found."))
  | Some _ =>
      _ ← save_full_config devmap (delete group groups);
      print (Text ("Removed group '" ++ group ++ "'."))
  end.

(** The test of the loop of [groups_remove_members]: [false] for a member
    the loop skips, [true] for one it keeps. *)
Definition stays (names pairs : list string) (m : json) : bool :=
  match m with
  | JStr s => negb (bool_decide (s ∈ names))
  | JObj _ => negb (bool_decide (default "" (member_text m) ∈ pairs))
  | _ => true
  end.

(** How [groups_remove_members] ends when it does not raise one of the
    errors of [GoveeError]: [NoMembersToRemove] stands for its
    [raise GoveeError("Provide members to remove via --names and/or --pairs
    id:model")]. *)
Inductive removal := Removed | NoMembersToRemove.

Definition groups_remove_members (gname : string) (names pairs : option (list string))
    : M removal :=
  devmap ← load_config_devices;
  groups ← load_config_groups;
  match groups !! gname with
  | None => raise (ManagedGroupNotFound gname)
  | Some members =>
      let names := default [] names in
      let pairs := default [] pairs in
      match names, pairs with
      | [], [] => mret NoMembersToRemove
      | _, _ =>
          l ← lift (py_iter members);
          let new_members := List.filter (stays names pairs) l in
          _ ← save_full_config devmap (<[gname := JArr new_members]> groups);
          _ ← print (Text ("Removed members from '" ++ gname ++ "'."));
          mret Removed
      end
  end.

(** The registry subcommands as [main] parses them, and the world one run
    of the script leaves behind: [main] calls the function of the
    subcommand, and whether that returns or raises, the process ends and
    the file stays as the function left it. *)
Inductive command :=
  | NamesAdd (nickname device model : string)
  | NamesRemove (nickname : string)
  | GroupsAdd (group : string)
  | GroupsRemove (group : string)
  | GroupsAddMembers (group : string) (names pairs : option (list string))
  | GroupsRemoveMembers (group : string) (names pairs : option (list string)).

Definition invoke (c : command) (w : world) : world :=
  match c with
  | NamesAdd n d m => (names_add n d m w).2
  | NamesRemove n => (names_remove n w).2
  | GroupsAdd g => (groups_add g w).2
  | GroupsRemove g => (groups_remove g w).2
  | GroupsAddMembers g names pairs => (groups_add_members g names pairs w).2
  | GroupsRemoveMembers g names pairs => (groups_remove_members g names pairs w).2
  end.

End Commands.

(** ** Well-formed registries

    The registry as the docstring of the script describes it: nicknames map
    to [{"id", "model"}]; groups are lists of members; a member is a
    nickname string or an inline [{"id", "model"}] object.  [groups_json]
    is the form in which the script holds the groups. *)
Inductive member :=
  | NicknameRef (nickname : string)
  | InlineRef (d : ent).

Record Registry := {
  nicknames : gmap string ent;
  groups : gmap string (list member);
}.

Definition member_json (m : member) : json :=
  match m with
  | NicknameRef n => JStr n
  | InlineRef d => ent_json d
  end.

Definition groups_json (gs : gmap string (list member)) : gmap string json :=
  (λ ms, JArr (member_json <$> ms)) <$> gs.

(** [save(load(save(R)))]: save, load both parts back, save what was
    loaded; the result is what was loaded. *)
Definition save_load_save `{Host} (devmap : gmap string ent) (gs : gmap string json)
    : M (gmap string ent * gmap string json) :=
  _ ← save_full_config devmap gs;
  devmap' ← load_config_devices;
  gs' ← load_config_groups;
  _ ← save_full_config devmap' gs';
  mret (devmap', gs').

(** A JSON array, what a group section is expected to map each name to. *)
Definition is_sequence (v : json) : bool :=
  match v with
  | JArr _ => true
  | _ => false
  end.

Definition is_mapping_of_sequences (v : json) : bool :=
  match v with
  | JObj g => bool_decide (map_Forall (λ _ x, is_sequence x = true) g)
  | _ => false
  end.

(** The target a well-shaped group member stands for: a nickname stands
    for its binding, an object with ["id"] and ["model"] for these two
    fields. *)
Inductive member_target `{Host} (devmap : gmap string ent) : json → target → Prop :=
  | nickname_target n e :
      devmap !! n = Some e →
      member_target devmap (JStr n) (JStr (ent_id e), JStr (ent_model e))
  | inline_target o i m :
      o !! "id" = Some i → o !! "model" = Some m →
      member_target devmap (JObj o) (JStr (py_str i), JStr (py_str m)).

(** A member list without the nickname references to [nick]. *)
Definition pruned (nick : string) (members : json) : json :=
  match members with
  | JArr ms => JArr (List.filter (keeps nick) ms)
  | _ => members
  end.

(** The request [control] sends for a target, and the line printed for the
    reply to it. *)
Definition control_request (cmd : json) (t : target) : request :=
  ("/devices/control", "PUT",
   Some (JObj (<["device" := t.1]> (<["model" := t.2]> (<["cmd" := cmd]> ∅))))).

Definition report `{Host} (t : target) (r : json + string) : line :=
  match r with
  | inl resp => result_line t.1 t.2 resp
  | inr msg => error_line t.1 t.2 (ApiError msg)
  end.

(** [answers s qs rs s']: from state [s] the vendor service answers the
    requests [qs], one after the other, and ends in [s']; each call gives a
    response or fails with a [GoveeError], and [rs] lists the responses and
    the messages of the errors.  A sequence of calls one of which fails
    with another exception has no such [rs]. *)
Inductive answers `{Host} : Service → list request → list (json + string) → Service → Prop :=
  | answers_nil s : answers s [] [] s
  | answers_reply s q resp s1 qs rs s' :
      api_call q s = (inl resp, s1) → answers s1 qs rs s' →
      answers s (q :: qs) (inl resp :: rs) s'
  | answers_error s q msg s1 qs rs s' :
      api_call q s = (inr (Reported msg), s1) → answers s1 qs rs s' →
      answers s (q :: qs) (inr msg :: rs) s'.

(** The nickname entry a top-level value of the document stands for. *)
Definition entry_of `{Host} (v : json) : option ent :=
  '(i, m) ← id_model v; Some (Ent (py_str i) (py_str m)).

(** ** A host for running the model

    Replies of the vendor service are scripted: each call of [api_request]
    consumes the next one, and fails with a network error when none is
    left. *)
Definition demo_host : Host := {|
  CONFIG_PATH := "/home/user/.config/govee_devices.json";
  repr := λ _, "<repr>";
  str_iter := λ s, (λ c, String c EmptyString) <$> String.list_ascii_of_string s;
  dict_iter := λ d, (map_to_list d).*1;
  Service := list (json + api_failure);
  api_call := λ _ s,
    match s with
    | [] => (inr (Reported "Network error: unreachable"), [])
    | r :: s' => (r, s')
    end;
|}.

Definition demo_world (f : file_state) (replies : list (json + api_failure)) : @world demo_host :=
  @World demo_host f [] replies [].

(** ** Scenarios on the demo host *)

Definition lamp_json : json := pair_json "dev1" "H6008".
Definition inline_x : json := pair_json "x" "H1".

(** The file of a registry with nickname [lamp] and group [room]. *)
Definition room_file (members : list json) : file_state :=
  Document (JObj (<["lamp" := lamp_json]>
                  (<["_groups" := JObj (<["room" := JArr members]> ∅)]> ∅))).

Definition lamp_devmap : gmap string ent := <["lamp" := Ent "dev1" "H6008"]> ∅.

(** A registry with a group of mixed and duplicate members. *)
Definition mixed_registry : Registry := {|
  nicknames := lamp_devmap;
  groups := <["room" := [NicknameRef "lamp"; InlineRef (Ent "x" "H1"); NicknameRef "lamp"]]> ∅;
|}.

(** A registry that binds the reserved key as a nickname. *)
Definition reserved_registry : Registry := {|
  nicknames := <["_groups" := Ent "a" "b"]> ∅;
  groups := ∅;
|}.

(** The vendor's listing of devices, and two devices. *)
Definition device_a : gmap string json :=
  <["device" := JStr "a"]> (<["model" := JStr "H6008"]> ∅).
Definition device_b : gmap string json :=
  <["device" := JStr "b"]> (<["model" := JStr "H6199"]> ∅).
Definition listing (items : list (gmap string json)) : json :=
  JObj (<["data" := JObj (<["devices" := JArr (JObj <$> items)]> ∅)]> ∅).

(** A document with a note beside the nickname, and a field beside the
    [id] and [model] of the nickname. *)
Definition noted_doc : gmap string json :=
  <["lamp" := JObj (<["id" := JStr "dev1"]> (<["model" := JStr "H6008"]>
                     (<["room" := JStr "hall"]> ∅)))]>
    (<["note" := JStr "bought in 2023"]> (<["_groups" := JObj ∅]> ∅)).

(** A command and three targets. *)
Definition turn_on : json := JObj (<["name" := JStr "turn"]> (<["value" := JStr "on"]> ∅)).
Definition three_targets : list target :=
  [(JStr "a", JStr "H6008"); (JStr "b", JStr "H6008"); (JStr "c", JStr "H6008")].

(** ** Writing a colour

    The lower-case [#rrggbb] text of a colour, and strings of white space,
    to state what [hex_to_rgb] reads. *)
Definition hex_char (d : Z) : ascii :=
  if (d <? 10)%Z then ascii_of_N (Z.to_N d + 48) else ascii_of_N (Z.to_N d + 87).

Definition hex_pair (n : Z) : string :=
  String (hex_char (n / 16)) (String (hex_char (n mod 16)) EmptyString).

Definition rgb_hex (r g b : Z) : string :=
  String "#" (hex_pair r ++ hex_pair g ++ hex_pair b).

(** A text of white space of one byte only: tabs, line ends, the four
    separators and spaces. *)
Fixpoint all_space (s : string) : bool :=
  match s with
  | EmptyString => true
  | String c rest => is_space c && all_space rest
  end.

(** A text of ASCII characters none of which is white space. *)
Fixpoint plain (s : string) : bool :=
  match s with
  | EmptyString => true
  | String c rest =>
      negb (is_space c) && (N_of_ascii c <? 128)%N && plain rest
  end.

(** The no-break space U+00A0 and the em space U+2003, in UTF-8. *)
Definition nbsp : string := String "194" (String "160" EmptyString).
Definition emsp : string := String "226" (String "128" (String "131" EmptyString)).

(** ** White space, by code point

    In Python a [str] is a sequence of code points.  The code points for
    which [str.isspace()] holds, the UTF-8 bytes of a code point and those
    of a text given by its code points, to state what [strip] removes. *)
Definition white_code_points : list N :=
  [9; 10; 11; 12; 13; 28; 29; 30; 31; 32; 133; 160; 5760;
   8192; 8193; 8194; 8195; 8196; 8197; 8198; 8199; 8200; 8201; 8202;
   8232; 8233; 8239; 8287; 12288]%N.

Definition utf8 (cp : N) : string :=
  if (cp <? 128)%N then
    String (ascii_of_N cp) EmptyString
  else if (cp <? 2048)%N then
    String (ascii_of_N (192 + cp / 64))
      (String (ascii_of_N (128 + cp mod 64)) EmptyString)
  else if (cp <? 65536)%N then
    String (ascii_of_N (224 + cp / 4096))
      (String (ascii_of_N (128 + (cp / 64) mod 64))
         (String (ascii_of_N (128 + cp mod 64)) EmptyString))
  else
    String (ascii_of_N (240 + cp / 262144))
      (String (ascii_of_N (128 + (cp / 4096) mod 64))
         (String (ascii_of_N (128 + (cp / 64) mod 64))
            (String (ascii_of_N (128 + cp mod 64)) EmptyString))).

Definition utf8_text (cps : list N) : string :=
  foldr (λ cp s, utf8 cp ++ s) EmptyString cps.

(** [":" in p] *)
Fixpoint has_colon (p : string) : bool :=
  match p with
  | EmptyString => false
  | String c rest => Ascii.eqb c ":" || has_colon rest
  end.

(** The line [names list] prints for a nickname, and the text
    [groups show] prints for a member of a well-formed group. *)
Definition nickname_line (item : string * ent) : line :=
  Text (item.1 ++ ": id=" ++ ent_id item.2 ++ " model=" ++ ent_model item.2).

Definition member_show (m : member) : string :=
  match m with
  | NicknameRef n => n
  | InlineRef d => ent_id d ++ ":" ++ ent_model d
  end.

(** A registry in which every group is a list of members that resolve: the
    file loads, and each member is a bound nickname or an object with [id]
    and [model]. *)
Definition sound `{Host} (w : world) : Prop :=
  ∃ devmap gs,
    load_config_devices w = (Ok devmap, w)
    ∧ load_config_groups w = (Ok gs, w)
    ∧ ∀ g v, gs !! g = Some v →
        ∃ ms, v = JArr ms ∧ Forall (λ m, ∃ t, member_target devmap m t) ms.

(** The world after a sequence of runs of the script. *)
Definition invoke_all `{Host} (cs : list command) (w : world) : world :=
  foldl (λ w c, invoke c w) w cs.

(** ** What a computation does to the world *)

(** [respects R c]: every run of [c] takes a world to an [R]-related one. *)
Definition respects `{Host} {A} (R : relation world) (c : M A) : Prop :=
  ∀ w r w', c w = (r, w') → R w w'.

(** Only [stdout] may differ. *)
Definition only_printed `{Host} (w w' : world) : Prop :=
  config w' = config w ∧ service w' = service w ∧ api_log w' = api_log w.

(** The configuration file is the same. *)
Definition same_config `{Host} (w w' : world) : Prop := config w' = config w.

(** The world after the printing of [said], and the world after
    [save_full_config devmap gs] and the printing of [said]. *)
Definition printed `{Host} (w : world) (said : list line) : world :=
  World (config w) (stdout w ++ said) (service w) (api_log w).

Definition saved `{Host} (w : world) (devmap : gmap string ent) (gs : gmap string json)
    (said : list line) : world :=
  World (Document (JObj (<[GROUPS_KEY := JObj gs]> (ent_json <$> devmap))))
        (stdout w ++ said) (service w) (api_log w).

(** ** Running the monad *)

Section Proofs.
Context `{Host}.

Lemma bind_ok {A B} (c : M A) (f : A → M B) w a w' :
  c w = (Ok a, w') → (c ≫= f) w = f a w'.
Proof. intros E. unfold mbind, M_bind. by rewrite E. Qed.

Lemma bind_raise {A B} (c : M A) (f : A → M B) w e w' :
  c w = (Raise e, w') → (c ≫= f) w = (Raise e, w').
Proof. intros E. unfold mbind, M_bind. by rewrite E. Qed.

Lemma bind_uncaught {A B} (c : M A) (f : A → M B) w x w' :
  c w = (Uncaught x, w') → (c ≫= f) w = (Uncaught x, w').
Proof. intros E. unfold mbind, M_bind. by rewrite E. Qed.

(** ** Registry store *)

Lemma entry_of_ent_json e : entry_of (ent_json e) = Some e.
Proof. by destruct e. Qed.

(** The loop of [load_config_devices] keeps, for every key but the
    reserved one, the entry its value stands for. *)
Lemma fold_add_device_lookup (items : gmap string json) k :
  map_fold add_device ∅ items !! k
  = if bool_decide (k = GROUPS_KEY) then None else items !! k ≫= entry_of.
Proof.
  revert k.
  apply (map_fold_weak_ind
           (λ out m, ∀ k, out !! k
              = if bool_decide (k = GROUPS_KEY) then None else m !! k ≫= entry_of)).
  - intros k. rewrite !lookup_empty. by case_bool_decide.
  - intros i x m out Hi IH k. unfold add_device.
    destruct (decide (k = i)) as [->|Hne].
    + rewrite lookup_insert_eq. case_bool_decide as Hg.
      * rewrite IH. by rewrite bool_decide_eq_true_2.
      * unfold entry_of. simpl. destruct (id_model x) as [[a b]|]; simpl.
        -- by rewrite lookup_insert_eq.
        -- rewrite IH, Hi. by rewrite bool_decide_eq_false_2.
    + rewrite (lookup_insert_ne m) by done.
      rewrite <- IH. case_bool_decide; [done|].
      destruct (id_model x) as [[a b]|]; [|done].
      by rewrite lookup_insert_ne.
Qed.

Lemma load_devices_document w d :
  config w = Document (JObj d) →
  load_config_devices w = (Ok (map_fold add_device ∅ d), w).
Proof.
  intros E. unfold load_config_devices, _load_raw_config, read_config.
  unfold mbind, M_bind. by rewrite E.
Qed.

Lemma load_groups_document w d g :
  config w = Document (JObj d) → d !! GROUPS_KEY = Some (JObj g) →
  load_config_groups w = (Ok g, w).
Proof.
  intros E Eg. unfold load_config_groups, _load_raw_config, read_config, lift.
  unfold mbind, M_bind. rewrite E. simpl. by rewrite Eg.
Qed.

Lemma save_config devmap gs w :
  save_full_config devmap gs w
  = (Ok (), World (Document (JObj (<[GROUPS_KEY := JObj gs]> (ent_json <$> devmap))))
                  (stdout w) (service w) (api_log w)).
Proof. reflexivity. Qed.

(** What is loaded back from a saved registry: the nicknames without the
    reserved key, and the groups. *)
Lemma load_devices_saved devmap gs w w' :
  save_full_config devmap gs w = (Ok (), w') →
  load_config_devices w' = (Ok (delete GROUPS_KEY devmap), w').
Proof.
  rewrite save_config. intros [= <-].
  erewrite load_devices_document by reflexivity. do 2 f_equal.
  apply map_eq. intros k. rewrite fold_add_device_lookup.
  case_bool_decide as Hk.
  - subst k. by rewrite lookup_delete_eq.
  - rewrite lookup_insert_ne, lookup_delete_ne, lookup_fmap by done.
    destruct (devmap !! k) as [e|]; [|done]. simpl. apply entry_of_ent_json.
Qed.

Lemma load_groups_saved devmap gs w w' :
  save_full_config devmap gs w = (Ok (), w') →
  load_config_groups w' = (Ok gs, w').
Proof.
  rewrite save_config. intros [= <-].
  eapply load_groups_document; [reflexivity|]. apply lookup_insert_eq.
Qed.

(** Loading never writes. *)
Lemma load_devices_world w r w' : load_config_devices w = (r, w') → w' = w.
Proof.
  unfold load_config_devices, _load_raw_config, read_config, raise, lift.
  unfold mbind, M_bind, mret, M_ret.
  destruct (config w) as [|e|[]]; by intros [= _ <-].
Qed.

Lemma load_groups_world w r w' : load_config_groups w = (r, w') → w' = w.
Proof.
  unfold load_config_groups, _load_raw_config, read_config, raise, lift, py_get.
  unfold mbind, M_bind, mret, M_ret.
  destruct (config w) as [|e|[]]; simpl; try by intros [= _ <-].
  destruct (default _ _); by intros [= _ <-].
Qed.

Lemma load_devices_no_reserved w devmap w' :
  load_config_devices w = (Ok devmap, w') → devmap !! GROUPS_KEY = None.
Proof.
  unfold load_config_devices, _load_raw_config, read_config, raise, lift.
  unfold mbind, M_bind, mret, M_ret.
  destruct (config w) as [|e|[]]; intros [= <- _];
    rewrite fold_add_device_lookup; by rewrite bool_decide_eq_true_2.
Qed.

Lemma ent_json_inj e1 e2 : ent_json e1 = ent_json e2 → e1 = e2.
Proof.
  intros E. assert (Some e1 = Some e2) as [= ->]; [|done].
  by rewrite <- (entry_of_ent_json e1), <- (entry_of_ent_json e2), E.
Qed.

#[local] Instance member_json_inj : Inj (=) (=) member_json.
Proof.
  intros [n1|d1] [n2|d2]; simpl; try (unfold ent_json; discriminate).
  - by intros [= ->].
  - by intros ->%ent_json_inj.
Qed.

#[local] Instance groups_json_inj : Inj (=) (=) groups_json.
Proof.
  unfold groups_json. apply map_fmap_inj.
  intros l1 l2 [= E]. by apply (inj (fmap member_json)) in E.
Qed.

(** C7: Loading the registry.  A missing file loads as the empty nickname
    mapping and the empty group mapping; a file that [json.load] rejects
    fails with the [ConfigCorrupt] error whose text holds the path of the
    file and the parse error; a group section that is not an object fails
    with [ConfigCorrupt]; a group section that is an object is returned
    as it is, whatever its values are. *)
Theorem load_registry_cases (w : world) :
  (config w = Missing →
     load_config_devices w = (Ok ∅, w) ∧ load_config_groups w = (Ok ∅, w))
  ∧ (∀ e, config w = Malformed e →
       load_config_devices w = (Raise (ConfigInvalidJson e), w)
       ∧ load_config_groups w = (Raise (ConfigInvalidJson e), w)
       ∧ kind (ConfigInvalidJson e) = ConfigCorrupt
       ∧ message (ConfigInvalidJson e)
         = "Config JSON is invalid at " ++ CONFIG_PATH ++ ": " ++ e)
  ∧ (∀ d v, config w = Document (JObj d) → d !! GROUPS_KEY = Some v →
       (∀ g, v ≠ JObj g) →
       load_config_groups w = (Raise ConfigInvalidGroups, w)
       ∧ kind ConfigInvalidGroups = ConfigCorrupt)
  ∧ (∀ d g, config w = Document (JObj d) → d !! GROUPS_KEY = Some (JObj g) →
       load_config_groups w = (Ok g, w)).
Proof.
  split; [|split; [|split]].
  - intros E. split.
    + unfold load_config_devices, _load_raw_config, read_config.
      unfold mbind, M_bind. rewrite E. simpl. by rewrite map_fold_empty.
    + unfold load_config_groups, _load_raw_config, read_config.
      unfold mbind, M_bind. by rewrite E.
  - intros e E. split; [|split; [|done]].
    + unfold load_config_devices, _load_raw_config, read_config.
      unfold mbind, M_bind. by rewrite E.
    + unfold load_config_groups, _load_raw_config, read_config.
      unfold mbind, M_bind. by rewrite E.
  - intros d v E Ev Hv. split; [|done].
    unfold load_config_groups, _load_raw_config, read_config, lift.
    unfold mbind, M_bind. rewrite E. simpl. rewrite Ev. simpl.
    destruct v; try done. by destruct (Hv d0).
  - intros d g E Eg. by eapply load_groups_document.
Qed.

(** C10: The reserved key cannot be a nickname.  No loaded nickname mapping
    binds ["_groups"]; saving always stores the group mapping under
    ["_groups"]; and [names add _groups] succeeds yet leaves the nickname
    mapping and the groups that are loaded afterwards as they were. *)
Theorem reserved_key_never_a_nickname :
  (∀ (w w' : world) devmap,
     load_config_devices w = (Ok devmap, w') → devmap !! GROUPS_KEY = None)
  ∧ (∀ devmap gs (w : world), ∃ w' payload,
       save_full_config devmap gs w = (Ok (), w')
       ∧ config w' = Document (JObj payload)
       ∧ payload !! GROUPS_KEY = Some (JObj gs))
  ∧ (∀ (w : world) device model devmap gs,
       load_config_devices w = (Ok devmap, w) →
       load_config_groups w = (Ok gs, w) →
       ∃ w', names_add GROUPS_KEY device model w = (Ok (), w')
             ∧ load_config_devices w' = (Ok devmap, w')
             ∧ load_config_groups w' = (Ok gs, w')).
Proof.
  split; [|split].
  - intros w w' devmap. apply load_devices_no_reserved.
  - intros devmap gs w. eexists _, _. rewrite save_config.
    split; [reflexivity|]. split; [reflexivity|]. apply lookup_insert_eq.
  - intros w device model devmap gs Hd Hg.
    pose proof (load_devices_no_reserved _ _ _ Hd) as Hres.
    unfold names_add.
    rewrite (bind_ok _ _ _ _ _ Hd), (bind_ok _ _ _ _ _ Hg).
    erewrite bind_ok by apply save_config.
    eexists. split; [reflexivity|]. split.
    + erewrite load_devices_document by reflexivity. do 2 f_equal.
      apply map_eq. intros k. rewrite fold_add_device_lookup.
      case_bool_decide as Hk; [by subst k|].
      rewrite lookup_insert_ne, lookup_fmap, lookup_insert_ne by done.
      destruct (devmap !! k); [|done]. simpl. apply entry_of_ent_json.
    + eapply load_groups_document; [reflexivity|]. apply lookup_insert_eq.
Qed.

(** C2: Round trip.  For a registry whose nicknames do not use the reserved
    key ["_groups"], saving it, loading it back and saving again loads
    exactly the nicknames and the groups that were saved, and leaves the
    file as the first save wrote it; the saved form determines the
    registry. *)
Theorem registry_roundtrip (R : Registry) (w : world) :
  nicknames R !! GROUPS_KEY = None →
  ∃ w1,
    save_full_config (nicknames R) (groups_json (groups R)) w = (Ok (), w1)
    ∧ save_load_save (nicknames R) (groups_json (groups R)) w
      = (Ok (nicknames R, groups_json (groups R)), w1)
    ∧ load_config_devices w1 = (Ok (nicknames R), w1)
    ∧ load_config_groups w1 = (Ok (groups_json (groups R)), w1)
    ∧ (∀ R', nicknames R' = nicknames R →
             groups_json (groups R') = groups_json (groups R) → R' = R).
Proof.
  intros Hres. eexists.
  assert (Hsave := save_config (nicknames R) (groups_json (groups R)) w).
  assert (Hd := load_devices_saved _ _ _ _ Hsave).
  assert (Hg := load_groups_saved _ _ _ _ Hsave).
  rewrite delete_id in Hd by done.
  split; [exact Hsave|]. split; [|split; [exact Hd|split; [exact Hg|]]].
  - unfold save_load_save.
    rewrite (bind_ok _ _ _ _ _ Hsave), (bind_ok _ _ _ _ _ Hd), (bind_ok _ _ _ _ _ Hg).
    erewrite bind_ok by apply save_config. reflexivity.
  - intros [n' g'] En Eg. destruct R as [n g]. simpl in *.
    apply (inj groups_json) in Eg. by subst.
Qed.

(** ** Target resolver *)

Lemma bind_inv_raise {A B} (c : M A) (f : A → M B) w e w' :
  (c ≫= f) w = (Raise e, w') →
  c w = (Raise e, w') ∨ ∃ a w1, c w = (Ok a, w1) ∧ f a w1 = (Raise e, w').
Proof.
  unfold mbind, M_bind. destruct (c w) as [[a|e1|x] w1]; intros E.
  - right. eauto.
  - left. congruence.
  - discriminate.
Qed.

Lemma load_devices_raise w e w' :
  load_config_devices w = (Raise e, w') → kind e = ConfigCorrupt.
Proof.
  unfold load_config_devices, _load_raw_config, read_config, raise, lift.
  unfold mbind, M_bind, mret, M_ret.
  destruct (config w) as [|e1|[]]; intros [= <- _] || intros [=]; done.
Qed.

Lemma load_groups_raise w e w' :
  load_config_groups w = (Raise e, w') → kind e = ConfigCorrupt.
Proof.
  unfold load_config_groups, _load_raw_config, read_config, raise, lift, py_get.
  unfold mbind, M_bind, mret, M_ret.
  destruct (config w) as [|e1|[]]; simpl; try (intros [= <- _] || intros [=]; done).
  destruct (default _ _); intros [= <- _] || intros [=]; done.
Qed.

Lemma resolve_member_target devmap g m t :
  member_target devmap m t → resolve_member devmap g m = Ok t.
Proof.
  intros [n e Hn|o i mo Hi Hm]; simpl.
  - by rewrite Hn.
  - by rewrite Hi, Hm.
Qed.

Lemma resolve_members_targets devmap g ms ts :
  Forall2 (member_target devmap) ms ts → resolve_members devmap g ms = Ok ts.
Proof.
  induction 1 as [|m t ms ts Hm _ IH]; [done|].
  simpl. by rewrite (resolve_member_target _ _ _ _ Hm), IH.
Qed.

(** The loop stops at the first member that does not resolve. *)
Lemma resolve_members_first_bad devmap g pre good m post e :
  Forall2 (member_target devmap) pre good →
  resolve_member devmap g m = Raise e →
  resolve_members devmap g (pre ++ m :: post) = Raise e.
Proof.
  intros Hpre Hm. induction Hpre as [|x t pre good Hx _ IH]; simpl.
  - by rewrite Hm.
  - by rewrite (resolve_member_target _ _ _ _ Hx), IH.
Qed.

Lemma resolve_members_raise devmap g ms e :
  resolve_members devmap g ms = Raise e →
  kind e = KGroupReferencesUnknownNickname ∨ kind e = KInvalidGroupMember.
Proof.
  induction ms as [|m ms IH]; [done|]. simpl.
  destruct (resolve_member devmap g m) as [t|e1|x] eqn:Em; simpl; [|intros [= <-]|done].
  - destruct (resolve_members devmap g ms); simpl; [done| |done].
    intros [= <-]. by apply IH.
  - unfold resolve_member in Em.
    destruct m; repeat case_match; simplify_eq; auto.
Qed.

Lemma filter_h6008_dicts (items : list (gmap string json)) :
  filter_h6008 (JObj <$> items)
  = Ok (JObj <$> List.filter (λ d, eq_str (default JNull (d !! "model")) "H6008") items).
Proof.
  induction items as [|d items IH]; [done|].
  rewrite fmap_cons. cbn [filter_h6008]. rewrite IH. simpl.
  by destruct (eq_str _ _).
Qed.

Lemma filter_h6008_no_raise items e : filter_h6008 items ≠ Raise e.
Proof.
  induction items as [|d items IH]; [done|]. simpl.
  destruct d; simpl; try done.
  destruct (filter_h6008 items); simpl; done.
Qed.

Lemma guess_no_raise devices e : guess_single_h6008 devices ≠ Raise e.
Proof.
  unfold guess_single_h6008, py_get, py_iter.
  destruct devices; simpl; try done.
  destruct (default _ _); simpl; try done.
  destruct (default _ _); simpl; try done.
  - destruct (filter_h6008 _) as [[|a [|]]| |] eqn:E; simpl; try done.
    + destruct a; simpl; done.
    + by apply filter_h6008_no_raise in E.
  - destruct (filter_h6008 _) as [[|a [|]]| |] eqn:E; simpl; try done.
    + destruct a; simpl; done.
    + by apply filter_h6008_no_raise in E.
  - destruct (filter_h6008 _) as [[|a [|]]| |] eqn:E; simpl; try done.
    + destruct a; simpl; done.
    + by apply filter_h6008_no_raise in E.
Qed.

Lemma api_request_raise path method data w e w' :
  api_request path method data w = (Raise e, w') → kind e = DispatchFailure.
Proof.
  unfold api_request. destruct (api_call _ _) as [[resp|[msg|x]] s].
  - done.
  - by intros [= <- _].
  - done.
Qed.

(** Without a name, single-target resolution can only fail in the vendor
    API or in auto-detection. *)
Lemma resolve_single_no_name_raise name device model w e w' :
  truthy name = false →
  resolve_single_target name device model w = (Raise e, w') →
  kind e = DispatchFailure ∨ kind e = KAmbiguousAutoDetect.
Proof.
  intros Hn. unfold resolve_single_target. rewrite Hn.
  destruct (truthy device && truthy model); [done|].
  intros [E|(devices & w1 & _ & E)]%bind_inv_raise.
  { left. by eapply api_request_raise. }
  apply bind_inv_raise in E as [E|(guessed & w2 & _ & E)].
  { unfold lift in E. injection E as E _. by apply guess_no_raise in E. }
  destruct guessed as [[dev mdl]|].
  - apply bind_inv_raise in E as [E|(u & w3 & _ & E)]; done.
  - injection E as <- _. by right.
Qed.

(** Without a name, resolution never fails as an ambiguous selector or an
    unknown nickname. *)
Lemma resolve_no_name_raise name device model group w e w' :
  truthy name = false →
  resolve_targets name device model group w = (Raise e, w') →
  kind e ≠ KAmbiguousSelector ∧ kind e ≠ UnknownNickname.
Proof.
  intros Hn. unfold resolve_targets. rewrite Hn. simpl.
  rewrite bool_decide_eq_false_2 by (destruct (truthy group); simpl; lia).
  destruct (truthy group).
  - intros [E|(devmap & w1 & _ & E)]%bind_inv_raise.
    { apply load_devices_raise in E. by rewrite E. }
    apply bind_inv_raise in E as [E|(gs & w2 & _ & E)].
    { apply load_groups_raise in E. by rewrite E. }
    destruct (gs !! default "" group) as [members|]; [|by injection E as <- _].
    assert ((l ← lift (py_iter members);
             resolved ← lift (resolve_members devmap (default "" group) l);
             match resolved with
             | [] => raise (EmptyGroup (default "" group))
             | _ => mret resolved
             end) w2 = (Raise e, w') → kind e ≠ KAmbiguousSelector ∧ kind e ≠ UnknownNickname)
      as Hloop.
    { clear E. intros [E|(l & w3 & _ & E)]%bind_inv_raise.
      { unfold lift in E. injection E as E _. by destruct members. }
      apply bind_inv_raise in E as [E|(resolved & w4 & _ & E)].
      { unfold lift in E. injection E as E _.
        by apply resolve_members_raise in E as [-> | ->]. }
      destruct resolved; [by injection E as <- _|done]. }
    destruct members; try (by apply Hloop). by injection E as <- _.
  - intros [E|(t & w1 & _ & E)]%bind_inv_raise; [|done].
    by apply (resolve_single_no_name_raise _ _ _ _ _ _ Hn) in E as [-> | ->].
Qed.

(** C5: A name and a group together.  When a non-empty name and a non-empty
    group are both given, resolution fails with [AmbiguousSelector] in
    every world: the configuration file is not even read. *)
Theorem both_selectors_ambiguous (n g : string) device model (w : world) :
  n ≠ "" → g ≠ "" →
  resolve_targets (Some n) device model (Some g) w = (Raise AmbiguousSelector, w)
  ∧ kind AmbiguousSelector = KAmbiguousSelector.
Proof.
  intros Hn Hg. split; [|done]. unfold resolve_targets, truthy.
  rewrite (bool_decide_eq_false_2 (n = "")), (bool_decide_eq_false_2 (g = "")) by done.
  by rewrite bool_decide_eq_true_2 by (simpl; lia).
Qed.

(** C9: The empty string is no selector.  With [name = ""], resolution does
    what it does with no name at all: it never fails as an ambiguous
    selector or an unknown nickname; with a non-empty group it is the
    resolution of that group, and without a group it is single-target
    resolution without a name, which returns a complete explicit pair if
    there is one and otherwise goes to auto-detection. *)
Theorem empty_name_is_absent device model group (w : world) :
  resolve_targets (Some "") device model group w
  = resolve_targets None device model group w
  ∧ (∀ e w', resolve_targets (Some "") device model group w = (Raise e, w') →
             kind e ≠ KAmbiguousSelector ∧ kind e ≠ UnknownNickname)
  ∧ (∀ e w', resolve_targets (Some "") device model group w = (Raise e, w') →
             e ≠ AmbiguousSelector ∧ ∀ n, e ≠ NicknameNotFound n)
  ∧ (truthy group = false →
     resolve_targets (Some "") device model group w
     = (t ← resolve_single_target None device model; mret [t]) w)
  ∧ (∀ d m, truthy group = false → d ≠ "" → m ≠ "" →
     resolve_targets (Some "") (Some d) (Some m) group w = (Ok [(JStr d, JStr m)], w)).
Proof.
  split; [done|]. split; [|split; [|split]].
  - intros e w'. by apply resolve_no_name_raise.
  - intros e w' [H1 H2]%resolve_no_name_raise; [|done].
    split; [by intros ->|]. by intros n ->.
  - intros Hg. unfold resolve_targets. simpl. by rewrite Hg.
  - intros d m Hg Hd Hm. unfold resolve_targets. simpl. rewrite Hg. simpl.
    unfold resolve_single_target, truthy. simpl.
    by rewrite !bool_decide_eq_false_2.
Qed.

(** C1: Resolving a group.  With no name and a non-empty group [g], over the
    loaded nicknames and groups: an absent group fails with [UnknownGroup];
    a stored member list resolves member by member in order, each nickname
    to its current binding and each object with ["id"] and ["model"] to
    these fields; the first member that is an unbound nickname fails with
    [GroupReferencesUnknownNickname] naming [g] and the nickname, the first
    member of another shape with [InvalidGroupMember]; an empty list fails
    with [EmptyGroup]. *)
Theorem resolve_group (g : string) name device model (w : world) devmap gs :
  g ≠ "" → truthy name = false →
  load_config_devices w = (Ok devmap, w) →
  load_config_groups w = (Ok gs, w) →
  (gs !! g = None →
     resolve_targets name device model (Some g) w = (Raise (GroupNotFound g), w)
     ∧ kind (GroupNotFound g) = UnknownGroup)
  ∧ (∀ ms, gs !! g = Some (JArr ms) →
      (ms = [] →
         resolve_targets name device model (Some g) w = (Raise (EmptyGroup g), w))
      ∧ (∀ ts, ms ≠ [] → Forall2 (member_target devmap) ms ts →
         resolve_targets name device model (Some g) w = (Ok ts, w))
      ∧ (∀ pre good n post,
           ms = (pre ++ JStr n :: post)%list →
           Forall2 (member_target devmap) pre good → devmap !! n = None →
           resolve_targets name device model (Some g) w
           = (Raise (GroupReferencesUnknownNickname g n), w))
      ∧ (∀ pre good m post,
           ms = (pre ++ m :: post)%list →
           Forall2 (member_target devmap) pre good →
           (∀ n, m ≠ JStr n) → id_model m = None →
           resolve_targets name device model (Some g) w
           = (Raise (InvalidGroupMember g m), w)))
  ∧ (∀ i m, member_target devmap (pair_json i m) (JStr i, JStr m))
  ∧ (∀ n, kind (GroupReferencesUnknownNickname g n) = KGroupReferencesUnknownNickname
          ∧ message (GroupReferencesUnknownNickname g n)
            = "Group '" ++ g ++ "' refers to unknown nickname '" ++ n
              ++ "'. Add it with `names add`.").
Proof.
  intros Hg Hn Hd Hgs.
  assert (∀ members, gs !! g = Some members → members ≠ JNull →
            resolve_targets name device model (Some g) w
            = (l ← lift (py_iter members);
               resolved ← lift (resolve_members devmap g l);
               match resolved with
               | [] => raise (EmptyGroup g)
               | _ => mret resolved
               end) w) as Hstep.
  { intros members Hm Hnull. unfold resolve_targets. rewrite Hn.
    cbn [truthy fmap list_fmap sum_list Nat.b2n negb].
    rewrite (bool_decide_eq_false_2 (g = "")) by done. simpl.
    rewrite (bind_ok _ _ _ _ _ Hd), (bind_ok _ _ _ _ _ Hgs), Hm.
    by destruct members. }
  split; [|split; [|split; [|done]]].
  - intros Hnone. split; [|done]. unfold resolve_targets. rewrite Hn.
    cbn [truthy fmap list_fmap sum_list Nat.b2n negb].
    rewrite (bool_decide_eq_false_2 (g = "")) by done. simpl.
    by rewrite (bind_ok _ _ _ _ _ Hd), (bind_ok _ _ _ _ _ Hgs), Hnone.
  - intros ms Hms. split; [|split; [|split]].
    + intros ->. by rewrite (Hstep _ Hms).
    + intros ts Hne Hts. rewrite (Hstep _ Hms) by done.
      unfold mbind, M_bind, lift. simpl.
      rewrite (resolve_members_targets _ _ _ _ Hts).
      destruct Hts; done.
    + intros pre good n post -> Hpre Hnone. rewrite (Hstep _ Hms) by done.
      unfold mbind, M_bind, lift. simpl.
      erewrite resolve_members_first_bad; [done..|]. simpl. by rewrite Hnone.
    + intros pre good m post -> Hpre Hstr Hshape. rewrite (Hstep _ Hms) by done.
      unfold mbind, M_bind, lift. simpl.
      erewrite resolve_members_first_bad; [done..|].
      unfold resolve_member. rewrite Hshape. destruct m; try done.
      by destruct (Hstr s).
  - intros i m. by apply (inline_target devmap _ (JStr i) (JStr m)).
Qed.

(** C6: Auto-detection.  With no name, no group and no complete explicit
    pair, when the vendor lists devices that are objects: if exactly one of
    them has model "H6008", resolution returns that device alone, after
    printing a notice; if none or several have it, resolution fails with
    [AmbiguousAutoDetect]. *)
Theorem auto_detect_single name device model group (w : world)
    resp s data (items : list (gmap string json)) :
  truthy name = false → truthy group = false →
  truthy device && truthy model = false →
  api_call ("/devices", "GET", None) (service w) = (inl resp, s) →
  py_get resp "data" resp = Ok data →
  py_get data "devices" (JArr []) = Ok (JArr (JObj <$> items)) →
  let log := (api_log w ++ [("/devices", "GET", None)])%list in
  match List.filter (λ d, eq_str (default JNull (d !! "model")) "H6008") items with
  | [d] =>
      ∃ notice,
        resolve_targets name device model group w
        = (Ok [(default JNull (d !! "device"), JStr "H6008")],
           World (config w) (stdout w ++ [Text notice]) s log)
  | _ =>
      resolve_targets name device model group w
      = (Raise AmbiguousAutoDetect, World (config w) (stdout w) s log)
      ∧ kind AmbiguousAutoDetect = KAmbiguousAutoDetect
  end.
Proof.
  intros Hn Hg Hpair Hcall Hdata Hitems log.
  assert (resolve_targets name device model group w
          = (t ← (guessed ← lift (guess_single_h6008 resp);
                  match guessed with
                  | Some (dev, mdl) =>
                      _ ← print (Text ("[info] Using detected H6008 device: "
                                        ++ py_str dev ++ " (" ++ py_str mdl ++ ")"));
                      mret (dev, mdl)
                  | None => raise AmbiguousAutoDetect
                  end);
             mret [t]) (World (config w) (stdout w) s log)) as ->.
  { unfold resolve_targets, resolve_single_target. rewrite Hn, Hg, Hpair. simpl.
    unfold list_devices, api_request, mbind at 1 2, M_bind at 1 2.
    by rewrite Hcall. }
  unfold guess_single_h6008. rewrite Hdata. simpl. rewrite Hitems. simpl.
  rewrite filter_h6008_dicts.
  pose proof (List.filter_In (λ d : gmap string json,
                eq_str (default JNull (d !! "model")) "H6008") ) as Hin.
  destruct (List.filter _ items) as [|d [|d' rest]] eqn:Ef; simpl.
  - done.
  - assert (eq_str (default JNull (d !! "model")) "H6008" = true) as Hm.
    { apply (Hin d items). rewrite Ef. by left. }
    destruct (default JNull (d !! "model")) as [| | |mdl| |] eqn:Em; try done.
    simpl in Hm. apply bool_decide_eq_true in Hm as ->.
    destruct (d !! "model") as [v|] eqn:Ev; simpl in Em; [|done]. subst v.
    eexists. unfold mbind, M_bind, lift, print, mret, M_ret. simpl. reflexivity.
  - done.
Qed.

(** ** Group and nickname management *)

Lemma validate_names_known devmap (names : list string) :
  Forall (λ n, is_Some (devmap !! n)) names → validate_names devmap names = Ok ().
Proof.
  induction 1 as [|n names [e He] _ IH]; [done|]. simpl. by rewrite He.
Qed.

Lemma validate_names_unknown devmap (names : list string) :
  (∃ n, n ∈ names ∧ devmap !! n = None) →
  ∃ n, n ∈ names ∧ devmap !! n = None
       ∧ validate_names devmap names = Raise (UnknownMemberNickname n).
Proof.
  induction names as [|x names IH]; intros (n & Hin & Hn).
  - by apply elem_of_nil in Hin.
  - simpl. destruct (devmap !! x) as [e|] eqn:Ex.
    + apply elem_of_cons in Hin as [->|Hin]; [congruence|].
      destruct IH as (n' & Hin' & Hn' & E); [by eauto|].
      exists n'. split; [by apply elem_of_cons; right|done].
    + exists x. split; [by apply elem_of_cons; left|done].
Qed.

Lemma split_colon_join p i m : split_colon p = Some (i, m) → p = i ++ ":" ++ m.
Proof.
  revert i. induction p as [|c p IH]; intros i; [done|]. simpl.
  destruct (Ascii.eqb c ":") eqn:Ec.
  - apply Ascii.eqb_eq in Ec as ->. by intros [= <- <-].
  - destruct (split_colon p) as [[a b]|]; [|done]. simpl.
    intros [= <- <-]. by rewrite (IH a eq_refl) at 1.
Qed.

(** Every parsed pair is an inline [{id, model}] object made of the two
    sides of the first colon. *)
Lemma parse_pairs_inline pairs ps :
  _parse_pairs pairs = Ok ps →
  Forall2 (λ p j, ∃ i m, p = i ++ ":" ++ m ∧ j = member_json (InlineRef (Ent i m)))
          (default [] pairs) ps.
Proof.
  assert (∀ l ps, parse_pairs_loop l = Ok ps →
            Forall2 (λ p j, ∃ i m, p = i ++ ":" ++ m
                                   ∧ j = member_json (InlineRef (Ent i m))) l ps) as Hloop.
  { induction l as [|p l IH]; intros ps'; simpl.
    - intros [= <-]. constructor.
    - destruct (split_colon p) as [[i m]|] eqn:Ep; [|done].
      destruct (parse_pairs_loop l) as [out| |]; [|done..]. simpl.
      intros [= <-]. constructor; [|by apply IH].
      exists i, m. split; [by apply split_colon_join|done]. }
  destruct pairs as [[|p l]|]; simpl.
  - intros [= <-]. constructor.
  - intros E. by apply Hloop.
  - intros [= <-]. constructor.
Qed.

(** C3: Adding members.  For an existing group with a stored member list
    and pair arguments that parse: with no names and no pairs the call
    fails with [NoMembersGiven]; if some given nickname is unbound it fails
    with [UnknownNickname] for such a nickname and the world, hence the
    file and the group, is unchanged; otherwise it succeeds, and the group
    loaded afterwards is the old member list followed by the names and then
    the parsed pairs, each pair an inline object. *)
Theorem add_members (gname : string) names pairs (w : world) devmap gs ms ps :
  load_config_devices w = (Ok devmap, w) →
  load_config_groups w = (Ok gs, w) →
  gs !! gname = Some (JArr ms) →
  _parse_pairs pairs = Ok ps →
  (default [] names = [] → ps = [] →
     groups_add_members gname names pairs w = (Raise NoMembersGiven, w))
  ∧ ((∃ n, n ∈ default [] names ∧ devmap !! n = None) →
     ∃ n, n ∈ default [] names ∧ devmap !! n = None
          ∧ groups_add_members gname names pairs w
            = (Raise (UnknownMemberNickname n), w)
          ∧ kind (UnknownMemberNickname n) = UnknownNickname)
  ∧ (default [] names ≠ [] ∨ ps ≠ [] →
     Forall (λ n, is_Some (devmap !! n)) (default [] names) →
     ∃ w', groups_add_members gname names pairs w = (Ok (), w')
           ∧ load_config_devices w' = (Ok devmap, w')
           ∧ load_config_groups w'
             = (Ok (<[gname := JArr (ms ++ (JStr <$> default [] names) ++ ps)]> gs), w'))
  ∧ Forall2 (λ p j, ∃ i m, p = i ++ ":" ++ m ∧ j = member_json (InlineRef (Ent i m)))
            (default [] pairs) ps.
Proof.
  intros Hd Hgs Hg Hp.
  assert (groups_add_members gname names pairs w
          = match default [] names, ps with
            | [], [] => raise NoMembersGiven
            | _, _ =>
                _ ← lift (validate_names devmap (default [] names));
                _ ← save_full_config devmap
                      (<[gname := JArr (ms ++ (JStr <$> default [] names) ++ ps)]> gs);
                print (Text ("Added members to '" ++ gname ++ "'."))
            end w) as ->.
  { unfold groups_add_members.
    rewrite (bind_ok _ _ _ _ _ Hd), (bind_ok _ _ _ _ _ Hgs), Hg.
    unfold mbind at 1, M_bind at 1, lift at 1. by rewrite Hp. }
  split; [|split; [|split]].
  - by intros -> ->.
  - intros Hex. destruct (validate_names_unknown _ _ Hex) as (n & Hin & Hn & E).
    exists n. split; [done|]. split; [done|]. split; [|done].
    unfold mbind, M_bind, lift. rewrite E.
    destruct (default [] names); [by apply elem_of_nil in Hin|done].
  - intros Hne Hall.
    set (w' := World (Document (JObj (<[GROUPS_KEY :=
                   JObj (<[gname := JArr (ms ++ (JStr <$> default [] names) ++ ps)]> gs)]>
                   (ent_json <$> devmap))))
                 (stdout w ++ [Text ("Added members to '" ++ gname ++ "'.")])
                 (service w) (api_log w)).
    assert ((_ ← lift (validate_names devmap (default [] names));
             _ ← save_full_config devmap
                   (<[gname := JArr (ms ++ (JStr <$> default [] names) ++ ps)]> gs);
             print (Text ("Added members to '" ++ gname ++ "'."))) w
            = (Ok (), w')) as Hrun.
    { unfold mbind, M_bind, lift. by rewrite (validate_names_known _ _ Hall). }
    exists w'. split.
    { clearbody w'. destruct (default [] names), ps; [by destruct Hne|exact Hrun..]. }
    pose proof (load_devices_no_reserved _ _ _ Hd) as Hres.
    split.
    + erewrite load_devices_document by reflexivity. do 2 f_equal.
      apply map_eq. intros k. rewrite fold_add_device_lookup.
      case_bool_decide as Hk; [by subst k|].
      rewrite lookup_insert_ne, lookup_fmap by done.
      destruct (devmap !! k); [|done]. simpl. apply entry_of_ent_json.
    + eapply load_groups_document; [reflexivity|]. apply lookup_insert_eq.
  - by apply parse_pairs_inline.
Qed.

Lemma keeps_false_iff n m : keeps n m = false ↔ m = JStr n.
Proof.
  unfold keeps, eq_str. destruct m; simpl; try (split; done).
  rewrite negb_false_iff, bool_decide_eq_true. split; [by intros ->|by intros [= ->]].
Qed.

(** The pruning loop over groups that are all member lists. *)
Lemma prune_groups_sequences n (gs : gmap string json) :
  map_Forall (λ _ v, is_sequence v = true) gs →
  prune_groups n gs = Ok (pruned n <$> gs).
Proof.
  unfold prune_groups.
  assert (∀ base : gmap string json,
           map_Forall (λ _ v, is_sequence v = true) gs →
           map_fold (λ g members acc,
                       gs ← acc; ms ← prune n members; Ok (<[g := ms]> gs))
                    (Ok base) gs
           = Ok ((pruned n <$> gs) ∪ base)) as Hgen.
  { intros base.
    apply (map_fold_weak_ind (λ r (m : gmap string json),
             map_Forall (λ _ v, is_sequence v = true) m →
             r = Ok ((pruned n <$> m) ∪ base))).
    - intros _. by rewrite fmap_empty, (left_id_L ∅ (∪)).
    - intros g v m r Hg IH Hall.
      apply map_Forall_insert in Hall as [Hv Hall]; [|done].
      rewrite (IH Hall). destruct v; try done. simpl.
      by rewrite fmap_insert, insert_union_l. }
  intros Hall. rewrite (Hgen gs Hall). f_equal.
  apply map_eq. intros k. rewrite lookup_union, lookup_fmap.
  by destruct (gs !! k).
Qed.

(** C4: Removing a nickname.  When [n] is bound and every group is a member
    list, [names remove n] succeeds; afterwards the nicknames loaded are the
    old ones without [n], the groups have the same names, and each member
    list is the old one, in order, without the members that are the string
    [n]: no group holds a reference to [n] any more, and every other
    member, inline objects included, is kept. *)
Theorem remove_nickname_prunes (n : string) (w : world) devmap gs e :
  load_config_devices w = (Ok devmap, w) →
  load_config_groups w = (Ok gs, w) →
  devmap !! n = Some e →
  map_Forall (λ _ v, is_sequence v = true) gs →
  ∃ w' gs',
    names_remove n w = (Ok (), w')
    ∧ load_config_devices w' = (Ok (delete n devmap), w')
    ∧ load_config_groups w' = (Ok gs', w')
    ∧ (∀ g, gs !! g = None → gs' !! g = None)
    ∧ (∀ g ms, gs !! g = Some (JArr ms) →
               gs' !! g = Some (JArr (List.filter (keeps n) ms)))
    ∧ (∀ m, keeps n m = false ↔ m = JStr n)
    ∧ (∀ g ms', gs' !! g = Some (JArr ms') → JStr n ∉ ms').
Proof.
  intros Hd Hgs Hn Hall.
  pose proof (load_devices_no_reserved _ _ _ Hd) as Hres.
  exists (World (Document (JObj (<[GROUPS_KEY := JObj (pruned n <$> gs)]>
                                   (ent_json <$> delete n devmap))))
                (stdout w ++ [Text ("Removed nickname '" ++ n ++ "' from " ++ CONFIG_PATH
                                    ++ " and all groups")])
                (service w) (api_log w)), (pruned n <$> gs).
  split; [|split; [|split; [|split; [|split; [|split]]]]].
  - unfold names_remove.
    rewrite (bind_ok _ _ _ _ _ Hd), (bind_ok _ _ _ _ _ Hgs), Hn.
    unfold mbind, M_bind, lift. by rewrite (prune_groups_sequences _ _ Hall).
  - erewrite load_devices_document by reflexivity. do 2 f_equal.
    apply map_eq. intros k. rewrite fold_add_device_lookup.
    case_bool_decide as Hk.
    + subst k. rewrite lookup_delete_ne; [done|]. intros ->. congruence.
    + rewrite lookup_insert_ne, lookup_fmap by done.
      destruct (delete n devmap !! k); [|done]. simpl. apply entry_of_ent_json.
  - eapply load_groups_document; [reflexivity|]. apply lookup_insert_eq.
  - intros g Hg. by rewrite lookup_fmap, Hg.
  - intros g ms Hg. by rewrite lookup_fmap, Hg.
  - apply keeps_false_iff.
  - intros g ms'. rewrite lookup_fmap.
    destruct (gs !! g) as [v|] eqn:Hg; [|done]. simpl.
    pose proof (Hall _ _ Hg) as Hv. destruct v; try done. simpl.
    intros [= <-]. rewrite list_elem_of_In, List.filter_In.
    intros [_ Hk]. assert (keeps n (JStr n) = false) by by apply keeps_false_iff.
    congruence.
Qed.

(** ** Command dispatcher *)

(** One round of the loop of [_apply_to_targets], by what the call of the
    control API comes to: a response, a [GoveeError], another exception. *)
Lemma apply_step_reply dev mdl cmd (w : world) resp s :
  api_call (control_request cmd (dev, mdl)) (service w) = (inl resp, s) →
  try_except (resp ← control dev mdl cmd; print (result_line dev mdl resp))
             (λ e, print (error_line dev mdl e)) w
  = (Ok (), World (config w) (stdout w ++ [report (dev, mdl) (inl resp)]) s
                  (api_log w ++ [control_request cmd (dev, mdl)])).
Proof.
  unfold control_request. simpl. intros E.
  unfold try_except, control, api_request, mbind, M_bind. by rewrite E.
Qed.

Lemma apply_step_error dev mdl cmd (w : world) msg s :
  api_call (control_request cmd (dev, mdl)) (service w) = (inr (Reported msg), s) →
  try_except (resp ← control dev mdl cmd; print (result_line dev mdl resp))
             (λ e, print (error_line dev mdl e)) w
  = (Ok (), World (config w) (stdout w ++ [report (dev, mdl) (inr msg)]) s
                  (api_log w ++ [control_request cmd (dev, mdl)])).
Proof.
  unfold control_request. simpl. intros E.
  unfold try_except, control, api_request, mbind, M_bind. by rewrite E.
Qed.

Lemma apply_step_escape dev mdl cmd (w : world) x s :
  api_call (control_request cmd (dev, mdl)) (service w) = (inr (Escaped x), s) →
  try_except (resp ← control dev mdl cmd; print (result_line dev mdl resp))
             (λ e, print (error_line dev mdl e)) w
  = (Uncaught x, World (config w) (stdout w) s
                       (api_log w ++ [control_request cmd (dev, mdl)])).
Proof.
  unfold control_request. simpl. intros E.
  unfold try_except, control, api_request, mbind, M_bind. by rewrite E.
Qed.

(** While the calls are answered the loop goes on: one call and one line
    per target, in order. *)
Lemma apply_to_targets_answered (targets : list target) cmd (w : world) replies s' :
  answers (service w) (control_request cmd <$> targets) replies s' →
  _apply_to_targets targets cmd w
  = (Ok (), World (config w) (stdout w ++ zip_with report targets replies) s'
                  (api_log w ++ (control_request cmd <$> targets)))
  ∧ length replies = length targets.
Proof.
  revert w replies.
  induction targets as [|[dev mdl] targets IH]; intros w replies Hans.
  - inversion Hans; subst. simpl. rewrite !app_nil_r. by destruct w.
  - rewrite fmap_cons in Hans.
    inversion Hans as [|s q resp s1 qs rs s2 Hcall Hrest|s q msg s1 qs rs s2 Hcall Hrest];
      subst; cbn [_apply_to_targets].
    + erewrite bind_ok by by apply apply_step_reply.
      destruct (IH (World (config w) (stdout w ++ [report (dev, mdl) (inl resp)]) s1
                          (api_log w ++ [control_request cmd (dev, mdl)])) rs Hrest)
        as [-> Hlen].
      simpl. rewrite Hlen, <- !app_assoc. done.
    + erewrite bind_ok by by apply apply_step_error.
      destruct (IH (World (config w) (stdout w ++ [report (dev, mdl) (inr msg)]) s1
                          (api_log w ++ [control_request cmd (dev, mdl)])) rs Hrest)
        as [-> Hlen].
      simpl. rewrite Hlen, <- !app_assoc. done.
Qed.

(** C8: Dispatch.  The loop of [_apply_to_targets] catches [GoveeError]
    only, and [api_request] lets other exceptions through.  When the calls
    for the targets [pre] are answered and the call for the next target [t]
    ends in such an exception, [_apply_to_targets] ends in that exception:
    it has called the control API for [pre] and for [t] and printed one
    line for each target of [pre]; it prints no line for [t], and for the
    targets [post] after it it makes no call and prints no line. *)
Theorem dispatch_stops_at_escape (pre post : list target) (t : target) cmd (w : world)
    replies s1 x s2 :
  answers (service w) (control_request cmd <$> pre) replies s1 →
  api_call (control_request cmd t) s1 = (inr (Escaped x), s2) →
  _apply_to_targets (pre ++ t :: post) cmd w
  = (Uncaught x,
     World (config w) (stdout w ++ zip_with report pre replies) s2
           (api_log w ++ (control_request cmd <$> (pre ++ [t])%list)))
  ∧ length (zip_with report pre replies) = length pre.
Proof.
  revert w replies.
  assert (∀ w : world, api_call (control_request cmd t) (service w) = (inr (Escaped x), s2) →
            _apply_to_targets (t :: post) cmd w
            = (Uncaught x, World (config w) (stdout w) s2
                                 (api_log w ++ [control_request cmd t]))) as Hstop.
  { intros w Hcall. destruct t as [dev mdl]. cbn [_apply_to_targets].
    by erewrite bind_uncaught by by apply apply_step_escape. }
  induction pre as [|[dev mdl] pre IH]; intros w replies Hans Hcall.
  - inversion Hans; subst. cbn [app]. rewrite (Hstop w) by done.
    simpl. by rewrite app_nil_r.
  - rewrite fmap_cons in Hans.
    inversion Hans as [|s q resp s0 qs rs s3 Hq Hrest|s q msg s0 qs rs s3 Hq Hrest];
      subst; cbn [app _apply_to_targets].
    + erewrite bind_ok by by apply apply_step_reply.
      destruct (IH (World (config w) (stdout w ++ [report (dev, mdl) (inl resp)]) s0
                          (api_log w ++ [control_request cmd (dev, mdl)])) rs Hrest Hcall)
        as [-> Hlen].
      simpl. rewrite Hlen, <- !app_assoc. done.
    + erewrite bind_ok by by apply apply_step_error.
      destruct (IH (World (config w) (stdout w ++ [report (dev, mdl) (inr msg)]) s0
                          (api_log w ++ [control_request cmd (dev, mdl)])) rs Hrest Hcall)
        as [-> Hlen].
      simpl. rewrite Hlen, <- !app_assoc. done.
Qed.

End Proofs.

(** ** The scenarios, run *)

Lemma room_file_devices members replies :
  load_config_devices (demo_world (room_file members) replies)
  = (Ok lamp_devmap, demo_world (room_file members) replies).
Proof. vm_compute; reflexivity. Defined.

Lemma room_file_groups members replies :
  load_config_groups (demo_world (room_file members) replies)
  = (Ok (<["room" := JArr members]> ∅), demo_world (room_file members) replies).
Proof. vm_compute; reflexivity. Defined.

(** The group [room] of nickname [lamp] and an inline device resolves to
    the binding of [lamp] followed by the inline device. *)
Lemma resolve_group_witness :
  resolve_targets None None None (Some "room")
    (demo_world (room_file [JStr "lamp"; inline_x]) [])
  = (Ok [(JStr "dev1", JStr "H6008"); (JStr "x", JStr "H1")],
     demo_world (room_file [JStr "lamp"; inline_x]) []).
Proof.
  destruct (resolve_group "room" None None None
              (demo_world (room_file [JStr "lamp"; inline_x]) [])
              lamp_devmap (<["room" := JArr [JStr "lamp"; inline_x]]> ∅))
    as (_ & Hlist & _).
  - discriminate.
  - reflexivity.
  - apply room_file_devices.
  - apply room_file_groups.
  - destruct (Hlist [JStr "lamp"; inline_x]) as (_ & Hok & _).
    + vm_compute; reflexivity.
    + apply Hok; [discriminate|].
      constructor; [|constructor; [|constructor]].
      * apply (nickname_target lamp_devmap "lamp" (Ent "dev1" "H6008")).
        vm_compute; reflexivity.
      * apply (inline_target lamp_devmap _ (JStr "x") (JStr "H1"));
          vm_compute; reflexivity.
Defined.

Lemma registry_roundtrip_witness :
  ∃ w1,
    save_full_config (nicknames mixed_registry) (groups_json (groups mixed_registry))
      (demo_world Missing []) = (Ok (), w1)
    ∧ save_load_save (nicknames mixed_registry) (groups_json (groups mixed_registry))
        (demo_world Missing [])
      = (Ok (nicknames mixed_registry, groups_json (groups mixed_registry)), w1)
    ∧ load_config_devices w1 = (Ok (nicknames mixed_registry), w1)
    ∧ load_config_groups w1 = (Ok (groups_json (groups mixed_registry)), w1)
    ∧ (∀ R', nicknames R' = nicknames mixed_registry →
             groups_json (groups R') = groups_json (groups mixed_registry) →
             R' = mixed_registry).
Proof. apply (registry_roundtrip mixed_registry (demo_world Missing [])). vm_compute; reflexivity. Defined.

(** A registry that binds the reserved key as a nickname is not loaded back
    as it was saved. *)
Lemma roundtrip_reserved_counterexample :
  ∃ w1 loaded,
    save_full_config (nicknames reserved_registry) (groups_json (groups reserved_registry))
      (demo_world Missing []) = (Ok (), w1)
    ∧ load_config_devices w1 = (Ok loaded, w1)
    ∧ loaded ≠ nicknames reserved_registry.
Proof.
  eexists _, _. split; [vm_compute; reflexivity|].
  split; [vm_compute; reflexivity|].
  intros E. apply (f_equal (lookup "_groups")) in E. vm_compute in E. discriminate.
Qed.

(** Adding [lamp] and the pair [x:H1] to the empty group [room]. *)
Lemma add_members_witness :
  ∃ w', groups_add_members "room" (Some ["lamp"]) (Some ["x:H1"])
          (demo_world (room_file []) []) = (Ok (), w')
        ∧ load_config_devices w' = (Ok lamp_devmap, w')
        ∧ load_config_groups w'
          = (Ok (<["room" := JArr ([] ++ (JStr <$> ["lamp"]) ++ [inline_x])]>
                   (<["room" := JArr []]> ∅)), w').
Proof.
  destruct (add_members "room" (Some ["lamp"]) (Some ["x:H1"])
              (demo_world (room_file []) [])
              lamp_devmap (<["room" := JArr []]> ∅) [] [inline_x])
    as (_ & _ & Hok & _).
  - apply room_file_devices.
  - apply room_file_groups.
  - vm_compute; reflexivity.
  - vm_compute; reflexivity.
  - apply Hok.
    + left. discriminate.
    + constructor; [|constructor]. exists (Ent "dev1" "H6008"). vm_compute; reflexivity.
Defined.

(** Removing [lamp] leaves the group with its inline member only. *)
Lemma remove_nickname_prunes_witness :
  ∃ w' gs',
    names_remove "lamp" (demo_world (room_file [JStr "lamp"; inline_x; JStr "lamp"]) [])
    = (Ok (), w')
    ∧ load_config_devices w' = (Ok (delete "lamp" lamp_devmap), w')
    ∧ load_config_groups w' = (Ok gs', w')
    ∧ gs' !! "room" = Some (JArr [inline_x]).
Proof.
  destruct (remove_nickname_prunes "lamp"
              (demo_world (room_file [JStr "lamp"; inline_x; JStr "lamp"]) [])
              lamp_devmap (<["room" := JArr [JStr "lamp"; inline_x; JStr "lamp"]]> ∅)
              (Ent "dev1" "H6008"))
    as (w' & gs' & Hrun & Hd & Hg & _ & Hkeep & _).
  - apply room_file_devices.
  - apply room_file_groups.
  - vm_compute; reflexivity.
  - apply map_Forall_insert; [reflexivity|]. split; [reflexivity|]. apply map_Forall_empty.
  - exists w', gs'. split; [exact Hrun|]. split; [exact Hd|]. split; [exact Hg|].
    apply (Hkeep "room" [JStr "lamp"; inline_x; JStr "lamp"]). vm_compute; reflexivity.
Defined.

Lemma both_selectors_ambiguous_witness :
  resolve_targets (Some "lamp") None None (Some "room") (demo_world Missing [])
  = (Raise AmbiguousSelector, demo_world Missing [])
  ∧ kind AmbiguousSelector = KAmbiguousSelector.
Proof. apply (both_selectors_ambiguous "lamp" "room"); discriminate. Defined.

(** The vendor lists two devices, one of them an H6008. *)
Lemma auto_detect_single_witness :
  ∃ notice,
    resolve_targets None None None None
      (demo_world Missing [inl (listing [device_a; device_b])])
    = (Ok [(JStr "a", JStr "H6008")],
       @World demo_host Missing [Text notice] [] [("/devices", "GET", None)]).
Proof.
  apply (auto_detect_single None None None None
           (demo_world Missing [inl (listing [device_a; device_b])])
           (listing [device_a; device_b]) []
           (JObj (<["devices" := JArr (JObj <$> [device_a; device_b])]> ∅))
           [device_a; device_b]); vm_compute; reflexivity.
Defined.

(** Two H6008 devices on the account: auto-detection fails. *)
Example auto_detect_two :
  resolve_targets None None None None
    (demo_world Missing [inl (listing [device_a; device_a])])
  = (Raise AmbiguousAutoDetect,
     @World demo_host Missing [] [] [("/devices", "GET", None)]).
Proof. vm_compute; reflexivity. Qed.

Lemma load_registry_cases_witness :
  load_config_devices (demo_world Missing []) = (Ok ∅, demo_world Missing [])
  ∧ load_config_groups (demo_world Missing []) = (Ok ∅, demo_world Missing []).
Proof.
  destruct (load_registry_cases (demo_world Missing [])) as (Hmissing & _).
  apply Hmissing. reflexivity.
Defined.

(** A group section that maps a name to a number is a mapping, though not
    of sequences, and is loaded without an error. *)
Lemma load_groups_not_sequences_counterexample :
  let section := JObj (<["g" := JNum 5]> ∅) in
  let w := demo_world (Document (JObj (<["_groups" := section]> ∅))) [] in
  is_mapping_of_sequences section = false
  ∧ load_config_groups w = (Ok (<["g" := JNum 5]> ∅), w).
Proof. split; vm_compute; reflexivity. Qed.

Lemma empty_name_is_absent_witness :
  resolve_targets (Some "") (Some "dev9") (Some "H6008") (Some "") (demo_world Missing [])
  = (Ok [(JStr "dev9", JStr "H6008")], demo_world Missing []).
Proof.
  destruct (empty_name_is_absent (Some "dev9") (Some "H6008") (Some "")
              (demo_world Missing [])) as (_ & _ & _ & _ & Hpair).
  apply Hpair; [reflexivity|discriminate..].
Defined.

(** With an empty name and the group [room], the group is resolved. *)
Example empty_name_with_group :
  resolve_targets (Some "") None None (Some "room")
    (demo_world (room_file [JStr "lamp"]) [])
  = (Ok [(JStr "dev1", JStr "H6008")], demo_world (room_file [JStr "lamp"]) []).
Proof. vm_compute; reflexivity. Qed.

Lemma reserved_key_never_a_nickname_witness :
  ∃ w', names_add "_groups" "dev1" "H6008" (demo_world (room_file []) []) = (Ok (), w')
        ∧ load_config_devices w' = (Ok lamp_devmap, w')
        ∧ load_config_groups w' = (Ok (<["room" := JArr []]> ∅), w').
Proof.
  destruct (@reserved_key_never_a_nickname demo_host) as (_ & _ & Hadd).
  apply Hadd; [apply room_file_devices|apply room_file_groups].
Defined.

(** Three targets, the body of the response for the second not UTF-8: the
    command ends in [UnicodeDecodeError] after two calls and one line; the
    third target gets no call and no line, and the reply the vendor had for
    it is left. *)
Lemma dispatch_stops_at_escape_witness :
  _apply_to_targets three_targets turn_on
    (demo_world Missing
       [inl (JStr "ok1"); inr (Escaped UnicodeDecodeError); inl (JStr "ok3")])
  = (Uncaught UnicodeDecodeError,
     @World demo_host Missing
       [result_line (JStr "a") (JStr "H6008") (JStr "ok1")]
       [inl (JStr "ok3")]
       [control_request turn_on (JStr "a", JStr "H6008");
        control_request turn_on (JStr "b", JStr "H6008")])
  ∧ length [result_line (JStr "a") (JStr "H6008") (JStr "ok1")] = 1.
Proof.
  apply (dispatch_stops_at_escape
           [(JStr "a", JStr "H6008")] [(JStr "c", JStr "H6008")] (JStr "b", JStr "H6008")
           turn_on
           (demo_world Missing
              [inl (JStr "ok1"); inr (Escaped UnicodeDecodeError); inl (JStr "ok3")])
           [inl (JStr "ok1")]
           [inr (Escaped UnicodeDecodeError); inl (JStr "ok3")]
           UnicodeDecodeError [inl (JStr "ok3")]).
  - apply (@answers_reply demo_host _ _ (JStr "ok1")
             [inr (Escaped UnicodeDecodeError); inl (JStr "ok3")]); [reflexivity|].
    apply (@answers_nil demo_host).
  - reflexivity.
Defined.

(** The same three targets, the vendor answering the second with an HTTP
    error: three calls and three lines, the second an error line. *)
Example dispatch_failure_in_the_middle :
  _apply_to_targets three_targets turn_on
    (demo_world Missing
       [inl (JStr "ok1"); inr (Reported "HTTP 500: down"); inl (JStr "ok3")])
  = (Ok (),
     @World demo_host Missing
       [result_line (JStr "a") (JStr "H6008") (JStr "ok1");
        @error_line demo_host (JStr "b") (JStr "H6008") (ApiError "HTTP 500: down");
        result_line (JStr "c") (JStr "H6008") (JStr "ok3")]
       []
       (control_request turn_on <$> three_targets)).
Proof. vm_compute; reflexivity. Qed.

(** From an empty registry: [names add lamp], [groups add room],
    [groups add-members room --names lamp], then resolving [room]. *)
Example scenario_lamp_room :
  (_ ← names_add "lamp" "dev1" "H6008";
   _ ← groups_add "room";
   _ ← groups_add_members "room" (Some ["lamp"]) None;
   resolve_targets None None None (Some "room")) (demo_world Missing [])
  = (Ok [(JStr "dev1", JStr "H6008")],
     @World demo_host (room_file [JStr "lamp"])
       [Text "Saved nickname 'lamp' -> id=dev1 model=H6008 in /home/user/.config/govee_devices.json";
        Text "Created group 'room' in /home/user/.config/govee_devices.json";
        Text "Added members to 'room'."]
       [] []).
Proof. vm_compute; reflexivity. Qed.

(** Adding members to a group that does not exist fails and leaves the
    world as it was. *)
Example scenario_missing_group :
  groups_add_members "missing" (Some ["lamp"]) None (demo_world (room_file []) [])
  = (Raise (ManagedGroupNotFound "missing"), demo_world (room_file []) []).
Proof. vm_compute; reflexivity. Qed.

(** A pair argument without a colon is rejected before the nicknames are
    looked at. *)
Example scenario_invalid_pair :
  groups_add_members "room" (Some ["ghost"]) (Some ["nocolon"]) (demo_world (room_file []) [])
  = (Raise (InvalidPair "nocolon"), demo_world (room_file []) []).
Proof. vm_compute; reflexivity. Qed.

(** ** Number and colour utilities *)

(** X1: [clamp] with ordered bounds returns a value between them, leaves a
    value between them as it is, and maps a value below to the lower bound
    and a value above to the upper bound. *)
Theorem clamp_between (n lo hi : Z) :
  (lo ≤ hi)%Z →
  (lo ≤ clamp n lo hi ≤ hi)%Z
  ∧ ((lo ≤ n ≤ hi)%Z → clamp n lo hi = n)
  ∧ ((n < lo)%Z → clamp n lo hi = lo)
  ∧ ((hi < n)%Z → clamp n lo hi = hi)
  ∧ clamp (clamp n lo hi) lo hi = clamp n lo hi.
Proof. unfold clamp. lia. Qed.

Lemma clamp_between_witness :
  (0 ≤ clamp 150 0 100 ≤ 100)%Z
  ∧ ((0 ≤ 150 ≤ 100)%Z → clamp 150 0 100 = 150%Z)
  ∧ ((150 < 0)%Z → clamp 150 0 100 = 0%Z)
  ∧ ((100 < 150)%Z → clamp 150 0 100 = 100%Z)
  ∧ clamp (clamp 150 0 100) 0 100 = clamp 150 0 100.
Proof. apply (clamp_between 150 0 100). lia. Defined.

Lemma hex_digit_range c d : hex_digit c = Some d → (0 ≤ d ≤ 15)%Z.
Proof.
  unfold hex_digit.
  destruct (48 <=? N_of_ascii c)%N eqn:E1, (N_of_ascii c <=? 57)%N eqn:E2; simpl;
    try (intros [= <-]; apply N.leb_le in E1, E2; lia);
    destruct (97 <=? N_of_ascii c)%N eqn:E3, (N_of_ascii c <=? 102)%N eqn:E4; simpl;
    try done; intros [= <-]; apply N.leb_le in E3, E4; lia.
Qed.

Lemma hex_byte_range c1 c2 n : hex_byte c1 c2 = Some n → (0 ≤ n ≤ 255)%Z.
Proof.
  unfold hex_byte.
  destruct (hex_digit c1) as [a|] eqn:Ea; [|done].
  destruct (hex_digit c2) as [b|] eqn:Eb; [|done].
  simpl. intros [= <-].
  apply hex_digit_range in Ea, Eb. lia.
Qed.

Lemma lower_length s : String.length (lower s) = String.length s.
Proof. induction s as [|c s IH]; simpl; congruence. Qed.

(** X2: What [hex_to_rgb] accepts.  When it returns a colour, each
    component is between 0 and 255, and the text, stripped of white space,
    has six characters, or seven of which the first is [#]: the three-digit
    and eight-digit forms are rejected. *)
Theorem hex_to_rgb_accepted (h : string) r g b :
  hex_to_rgb h = Some (r, g, b) →
  ((0 ≤ r ≤ 255)%Z ∧ (0 ≤ g ≤ 255)%Z ∧ (0 ≤ b ≤ 255)%Z)
  ∧ (String.length (strip h) = 6
     ∨ (String.length (strip h) = 7 ∧ ∃ rest, lower (strip h) = String "#" rest)).
Proof.
  unfold hex_to_rgb. rewrite <- (lower_length (strip h)).
  set (s := lower (strip h)). clearbody s.
  assert (∀ t, match t with
               | String r1 (String r2 (String g1 (String g2
                   (String b1 (String b2 EmptyString))))) =>
                   r ← hex_byte r1 r2; g ← hex_byte g1 g2; b ← hex_byte b1 b2;
                   Some (r, g, b)
               | _ => None
               end = Some (r, g, b) →
               ((0 ≤ r ≤ 255)%Z ∧ (0 ≤ g ≤ 255)%Z ∧ (0 ≤ b ≤ 255)%Z)
               ∧ String.length t = 6) as Hsix.
  { intros t. do 6 (destruct t as [|? t]; [done|]). destruct t; [|done].
    destruct (hex_byte a a0) as [r'|] eqn:Er; [|done].
    destruct (hex_byte a1 a2) as [g'|] eqn:Eg; [|done].
    destruct (hex_byte a3 a4) as [b'|] eqn:Eb; [|done].
    simpl. intros [= <- <- <-].
    apply hex_byte_range in Er, Eg, Eb. done. }
  destruct s as [|c s]; [done|].
  destruct (Ascii.eqb c "#") eqn:Ec.
  - apply Ascii.eqb_eq in Ec as ->. intros Hm.
    apply (Hsix s) in Hm as [Hrange Hlen].
    split; [done|]. right. simpl. rewrite Hlen. eauto.
  - intros Hm. apply (Hsix (String c s)) in Hm as [Hrange Hlen].
    split; [done|]. by left.
Qed.

(** A colour between a no-break space and an em space and a space. *)
Lemma hex_to_rgb_accepted_witness :
  ((0 ≤ 255 ≤ 255)%Z ∧ (0 ≤ 136 ≤ 255)%Z ∧ (0 ≤ 0 ≤ 255)%Z)
  ∧ (String.length (strip (nbsp ++ "#FF8800" ++ emsp ++ " ")) = 6
     ∨ (String.length (strip (nbsp ++ "#FF8800" ++ emsp ++ " ")) = 7
        ∧ ∃ rest, lower (strip (nbsp ++ "#FF8800" ++ emsp ++ " ")) = String "#" rest)).
Proof.
  apply (hex_to_rgb_accepted (nbsp ++ "#FF8800" ++ emsp ++ " ") 255 136 0).
  vm_compute; reflexivity.
Defined.

(** White space outside ASCII is stripped like a space: the no-break space
    before a colour, and an em space after it. *)
Example hex_to_rgb_no_break_space :
  strip (nbsp ++ "#ff8800") = "#ff8800"
  ∧ hex_to_rgb (nbsp ++ "#ff8800") = Some (255, 136, 0)%Z
  ∧ hex_to_rgb (" " ++ nbsp ++ "FF8800" ++ emsp ++ nbsp) = Some (255, 136, 0)%Z.
Proof. repeat split; vm_compute; reflexivity. Qed.

(** The letter [à], U+00E0, ends in the byte [A0] as the no-break space
    does; it is not white space, is not stripped, and is no digit. *)
Example hex_to_rgb_a_grave :
  let a_grave := String "195" (String "160" EmptyString) in
  strip ("ff880" ++ a_grave) = "ff880" ++ a_grave
  ∧ hex_to_rgb ("ff880" ++ a_grave) = None
  ∧ hex_to_rgb ("#ff8800" ++ a_grave) = None.
Proof. repeat split; vm_compute; reflexivity. Qed.

Lemma hex_char_digit d :
  (0 ≤ d ≤ 15)%Z →
  hex_digit (hex_char d) = Some d
  ∧ is_space (hex_char d) = false
  ∧ lower_char (hex_char d) = hex_char d.
Proof.
  intros Hd.
  assert (∃ n : nat, d = Z.of_nat n ∧ n < 16) as (n & -> & Hn)
    by (exists (Z.to_nat d); lia).
  clear Hd. do 16 (destruct n as [|n]; [by vm_compute|]). lia.
Qed.

Lemma hex_pair_byte n :
  (0 ≤ n ≤ 255)%Z →
  hex_byte (hex_char (n / 16)) (hex_char (n mod 16)) = Some n.
Proof.
  intros Hn. unfold hex_byte.
  destruct (hex_char_digit (n / 16)) as (-> & _);
    [Z.div_mod_to_equations; lia|].
  destruct (hex_char_digit (n mod 16)) as (-> & _);
    [Z.div_mod_to_equations; lia|].
  simpl. f_equal. Z.div_mod_to_equations; lia.
Qed.

Lemma is_space_lower c : is_space (lower_char c) = is_space c.
Proof. by destruct c as [[] [] [] [] [] [] [] []]. Qed.

Lemma lower_char_lower c : lower_char (lower_char c) = lower_char c.
Proof. by destruct c as [[] [] [] [] [] [] [] []]. Qed.

Lemma lower_lower s : lower (lower s) = lower s.
Proof. induction s as [|c s IH]; simpl; [done|]. by rewrite lower_char_lower, IH. Qed.

(** The bytes of white space: a character of one byte is below 128; in a
    longer one the first byte is 194 or from 225 to 227 and the others are
    continuation bytes, from 128 to 191; and [lower_char] changes bytes
    below 128 only, into bytes below 128. *)
Lemma is_space_low c : is_space c = true → (N_of_ascii c < 128)%N.
Proof.
  unfold is_space.
  rewrite orb_true_iff, !andb_true_iff, !N.leb_le. lia.
Qed.

Lemma is_space2_high a b :
  is_space2 a b = true → N_of_ascii a = 194%N ∧ (128 ≤ N_of_ascii b < 192)%N.
Proof.
  unfold is_space2.
  rewrite andb_true_iff, orb_true_iff, !N.eqb_eq. lia.
Qed.

Lemma is_space3_high a b c :
  is_space3 a b c = true →
  (225 ≤ N_of_ascii a ≤ 227)%N ∧ (128 ≤ N_of_ascii b < 192)%N
  ∧ (128 ≤ N_of_ascii c < 192)%N.
Proof.
  unfold is_space3.
  rewrite !orb_true_iff, !andb_true_iff, !orb_true_iff, !andb_true_iff,
    !N.eqb_eq, !N.leb_le. lia.
Qed.

Lemma lower_char_bytes c :
  ((128 ≤ N_of_ascii c)%N ∧ lower_char c = c)
  ∨ ((N_of_ascii c < 128)%N ∧ (N_of_ascii (lower_char c) < 128)%N).
Proof. destruct c as [[] [] [] [] [] [] [] []]; vm_compute; intuition congruence. Qed.

Lemma is_space2_lower a b : is_space2 (lower_char a) (lower_char b) = is_space2 a b.
Proof.
  destruct (is_space2 (lower_char a) (lower_char b)) eqn:E1, (is_space2 a b) eqn:E2;
    try done.
  - destruct (is_space2_high _ _ E1) as [Ha Hb].
    destruct (lower_char_bytes a) as [[_ Ea]|[? ?]]; [|lia].
    destruct (lower_char_bytes b) as [[_ Eb]|[? ?]]; [|lia].
    rewrite Ea, Eb in E1. congruence.
  - destruct (is_space2_high _ _ E2) as [Ha Hb].
    destruct (lower_char_bytes a) as [[_ Ea]|[? ?]]; [|lia].
    destruct (lower_char_bytes b) as [[_ Eb]|[? ?]]; [|lia].
    rewrite Ea, Eb in E1. congruence.
Qed.

Lemma is_space3_lower a b c :
  is_space3 (lower_char a) (lower_char b) (lower_char c) = is_space3 a b c.
Proof.
  destruct (is_space3 (lower_char a) (lower_char b) (lower_char c)) eqn:E1,
           (is_space3 a b c) eqn:E2; try done.
  - destruct (is_space3_high _ _ _ E1) as (Ha & Hb & Hc).
    destruct (lower_char_bytes a) as [[_ Ea]|[? ?]]; [|lia].
    destruct (lower_char_bytes b) as [[_ Eb]|[? ?]]; [|lia].
    destruct (lower_char_bytes c) as [[_ Ec]|[? ?]]; [|lia].
    rewrite Ea, Eb, Ec in E1. congruence.
  - destruct (is_space3_high _ _ _ E2) as (Ha & Hb & Hc).
    destruct (lower_char_bytes a) as [[_ Ea]|[? ?]]; [|lia].
    destruct (lower_char_bytes b) as [[_ Eb]|[? ?]]; [|lia].
    destruct (lower_char_bytes c) as [[_ Ec]|[? ?]]; [|lia].
    rewrite Ea, Eb, Ec in E1. congruence.
Qed.

Lemma string_length_ind (P : string → Prop) :
  (∀ s, (∀ t, String.length t < String.length s → P t) → P s) → ∀ s, P s.
Proof.
  intros Hstep s.
  assert (∀ n t, String.length t < n → P t) as Hall.
  { induction n as [|n IH]; intros t Ht; [lia|].
    apply Hstep. intros u Hu. apply IH. lia. }
  apply (Hall (S (String.length s))). lia.
Qed.

(** The steps of [lstrip]. *)
Lemma lstrip_space a s : is_space a = true → lstrip (String a s) = lstrip s.
Proof. intros Ha. cbn [lstrip]. by rewrite Ha. Qed.

Lemma lstrip_space2 a b s :
  is_space a = false → is_space2 a b = true →
  lstrip (String a (String b s)) = lstrip s.
Proof. intros Ha Hab. cbn [lstrip]. by rewrite Ha, Hab. Qed.

Lemma lstrip_space3 a b c s :
  is_space a = false → is_space2 a b = false → is_space3 a b c = true →
  lstrip (String a (String b (String c s))) = lstrip s.
Proof. intros Ha Hab Habc. cbn [lstrip]. by rewrite Ha, Hab, Habc. Qed.

Lemma lstrip_stop1 a : is_space a = false → lstrip (String a "") = String a "".
Proof. intros Ha. cbn [lstrip]. by rewrite Ha. Qed.

Lemma lstrip_stop2 a b :
  is_space a = false → is_space2 a b = false →
  lstrip (String a (String b "")) = String a (String b "").
Proof. intros Ha Hab. cbn [lstrip]. by rewrite Ha, Hab. Qed.

Lemma lstrip_stop3 a b c s :
  is_space a = false → is_space2 a b = false → is_space3 a b c = false →
  lstrip (String a (String b (String c s))) = String a (String b (String c s)).
Proof. intros Ha Hab Habc. cbn [lstrip]. by rewrite Ha, Hab, Habc. Qed.

(** [lstrip] stops at a byte that begins no white space, and at two bytes
    that do not. *)
Lemma lstrip_stop a s :
  is_space a = false → (∀ b, is_space2 a b = false) → (∀ b c, is_space3 a b c = false) →
  lstrip (String a s) = String a s.
Proof.
  intros Ha Hab Habc. destruct s as [|b [|c r]].
  - by apply lstrip_stop1.
  - by apply lstrip_stop2.
  - by apply lstrip_stop3.
Qed.

Lemma lstrip_stop_pair a b s :
  is_space a = false → is_space2 a b = false → (∀ c, is_space3 a b c = false) →
  lstrip (String a (String b s)) = String a (String b s).
Proof.
  intros Ha Hab Habc. destruct s as [|c r].
  - by apply lstrip_stop2.
  - by apply lstrip_stop3.
Qed.

Lemma lstrip_lower s : lstrip (lower s) = lower (lstrip s).
Proof.
  induction s as [s IH] using string_length_ind.
  destruct s as [|a s]; [done|].
  destruct (is_space a) eqn:Ha.
  { cbn [lower]. rewrite (lstrip_space a), (lstrip_space (lower_char a))
      by by rewrite ?is_space_lower.
    apply IH. simpl. lia. }
  destruct s as [|b s].
  { cbn [lower]. rewrite (lstrip_stop1 a), (lstrip_stop1 (lower_char a))
      by by rewrite ?is_space_lower.
    done. }
  destruct (is_space2 a b) eqn:Hab.
  { cbn [lower]. rewrite (lstrip_space2 a b), (lstrip_space2 (lower_char a) (lower_char b))
      by by rewrite ?is_space_lower, ?is_space2_lower.
    apply IH. simpl. lia. }
  destruct s as [|c s].
  { cbn [lower]. rewrite (lstrip_stop2 a b), (lstrip_stop2 (lower_char a) (lower_char b))
      by by rewrite ?is_space_lower, ?is_space2_lower.
    done. }
  destruct (is_space3 a b c) eqn:Habc.
  - cbn [lower].
    rewrite (lstrip_space3 a b c), (lstrip_space3 (lower_char a) (lower_char b) (lower_char c))
      by by rewrite ?is_space_lower, ?is_space2_lower, ?is_space3_lower.
    apply IH. simpl. lia.
  - cbn [lower].
    rewrite (lstrip_stop3 a b c), (lstrip_stop3 (lower_char a) (lower_char b) (lower_char c))
      by by rewrite ?is_space_lower, ?is_space2_lower, ?is_space3_lower.
    done.
Qed.

Lemma blank_lower s : blank (lower s) = blank s.
Proof. unfold blank. rewrite lstrip_lower. by destruct (lstrip s). Qed.

Lemma rstrip_cons c s :
  rstrip (String c s) = if blank (String c s) then "" else String c (rstrip s).
Proof. done. Qed.

Lemma rstrip_lower s : rstrip (lower s) = lower (rstrip s).
Proof.
  induction s as [|c s IH]; [done|].
  change (lower (String c s)) with (String (lower_char c) (lower s)) at 1.
  rewrite !rstrip_cons.
  change (String (lower_char c) (lower s)) with (lower (String c s)).
  rewrite blank_lower. destruct (blank (String c s)); [done|].
  cbn [lower]. by rewrite IH.
Qed.

Lemma append_nil_l s : "" ++ s = s.
Proof. done. Qed.

Lemma append_cons c a b : String c a ++ b = String c (a ++ b).
Proof. done. Qed.

Lemma append_nil_r s : s ++ "" = s.
Proof. induction s as [|c s IH]; [done|]. by rewrite append_cons, IH. Qed.

Lemma append_assoc (a b c : string) : (a ++ b) ++ c = a ++ (b ++ c).
Proof. induction a as [|x a IH]; [done|]. by rewrite !append_cons, IH. Qed.

Lemma blank_lstrip s : blank s = true → lstrip s = "".
Proof. unfold blank. by destruct (lstrip s). Qed.

Lemma blank_stop s : lstrip s = s → s ≠ "" → blank s = false.
Proof. unfold blank. intros ->. by destruct s. Qed.

(** White space begins with a byte below 128 or from 192 on, never with a
    continuation byte. *)
Lemma blank_first p s :
  blank (String p s) = true → (N_of_ascii p < 128 ∨ 192 ≤ N_of_ascii p)%N.
Proof.
  intros Hb. destruct (is_space p) eqn:Hp; [left; by apply is_space_low|].
  destruct s as [|b s].
  { by rewrite blank_stop in Hb by by rewrite ?lstrip_stop1. }
  destruct (is_space2 p b) eqn:Hpb; [apply is_space2_high in Hpb; lia|].
  destruct s as [|c s].
  { by rewrite blank_stop in Hb by by rewrite ?lstrip_stop2. }
  destruct (is_space3 p b c) eqn:Hpbc; [apply is_space3_high in Hpbc; lia|].
  by rewrite blank_stop in Hb by by rewrite ?lstrip_stop3.
Qed.

Lemma is_space2_first a p s : blank (String p s) = true → is_space2 a p = false.
Proof.
  intros Hp%blank_first. destruct (is_space2 a p) eqn:E; [|done].
  apply is_space2_high in E. lia.
Qed.

Lemma is_space3_first_2 a p c s : blank (String p s) = true → is_space3 a p c = false.
Proof.
  intros Hp%blank_first. destruct (is_space3 a p c) eqn:E; [|done].
  apply is_space3_high in E. lia.
Qed.

Lemma is_space3_first_3 a b p s : blank (String p s) = true → is_space3 a b p = false.
Proof.
  intros Hp%blank_first. destruct (is_space3 a b p) eqn:E; [|done].
  apply is_space3_high in E. lia.
Qed.

(** White space before a text is removed by [lstrip]. *)
Lemma lstrip_blank pre s : blank pre = true → lstrip (pre ++ s) = lstrip s.
Proof.
  induction pre as [pre IH] using string_length_ind.
  destruct pre as [|a pre]; [done|].
  destruct (is_space a) eqn:Ha.
  { unfold blank. rewrite append_cons, !(lstrip_space a) by done.
    apply IH. simpl. lia. }
  destruct pre as [|b pre].
  { intros Hb. by rewrite blank_stop in Hb by by rewrite ?lstrip_stop1. }
  destruct (is_space2 a b) eqn:Hab.
  { unfold blank. rewrite !append_cons, !(lstrip_space2 a b) by done.
    apply IH. simpl. lia. }
  destruct pre as [|c pre].
  { intros Hb. by rewrite blank_stop in Hb by by rewrite ?lstrip_stop2. }
  destruct (is_space3 a b c) eqn:Habc.
  - unfold blank. rewrite !append_cons, !(lstrip_space3 a b c) by done.
    apply IH. simpl. lia.
  - intros Hb. by rewrite blank_stop in Hb by by rewrite ?lstrip_stop3.
Qed.

(** White space after a text is left by [lstrip], unless the text is white
    space only. *)
Lemma lstrip_append_blank s post :
  blank post = true →
  lstrip (s ++ post) = if blank s then "" else lstrip s ++ post.
Proof.
  intros Hpost. induction s as [s IH] using string_length_ind.
  destruct s as [|a s].
  { rewrite append_nil_l. by rewrite blank_lstrip. }
  destruct (is_space a) eqn:Ha.
  { unfold blank. rewrite append_cons, !(lstrip_space a) by done.
    apply IH. simpl. lia. }
  destruct s as [|b s].
  { rewrite append_cons, append_nil_l.
    rewrite (blank_stop (String a "")), (lstrip_stop1 a) by by rewrite ?lstrip_stop1.
    destruct post as [|p [|q post]].
    - by rewrite lstrip_stop1.
    - by rewrite lstrip_stop2 by by rewrite ?(is_space2_first a p "").
    - by rewrite lstrip_stop3
        by by rewrite ?(is_space2_first a p (String q post)),
                      ?(is_space3_first_2 a p q (String q post)). }
  destruct (is_space2 a b) eqn:Hab.
  { unfold blank. rewrite !append_cons, !(lstrip_space2 a b) by done.
    apply IH. simpl. lia. }
  destruct s as [|c s].
  { rewrite !append_cons, append_nil_l.
    rewrite (blank_stop (String a (String b ""))), (lstrip_stop2 a b)
      by by rewrite ?lstrip_stop2.
    destruct post as [|p post].
    - by rewrite lstrip_stop2.
    - by rewrite lstrip_stop3 by by rewrite ?(is_space3_first_3 a b p post). }
  destruct (is_space3 a b c) eqn:Habc.
  - unfold blank. rewrite !append_cons, !(lstrip_space3 a b c) by done.
    apply IH. simpl. lia.
  - rewrite (blank_stop (String a (String b (String c s)))), !append_cons
      by by rewrite ?lstrip_stop3.
    by rewrite !lstrip_stop3.
Qed.

Lemma blank_append_blank s post : blank post = true → blank (s ++ post) = blank s.
Proof.
  intros Hpost. unfold blank at 1. rewrite lstrip_append_blank by done.
  destruct (blank s) eqn:E; [done|]. unfold blank in E.
  by destruct (lstrip s).
Qed.

Lemma rstrip_blank s : blank s = true → rstrip s = "".
Proof. intros Hs. destruct s as [|c s]; [done|]. by rewrite rstrip_cons, Hs. Qed.

Lemma rstrip_append_blank s post : blank post = true → rstrip (s ++ post) = rstrip s.
Proof.
  intros Hpost. induction s as [|c s IH].
  - rewrite append_nil_l. by apply rstrip_blank.
  - rewrite append_cons, !rstrip_cons, <- append_cons.
    rewrite blank_append_blank by done.
    destruct (blank (String c s)); [done|]. by rewrite IH.
Qed.

Lemma strip_blank pre s post :
  blank pre = true → blank post = true → strip (pre ++ s ++ post) = strip s.
Proof.
  intros Hpre Hpost. unfold strip.
  rewrite lstrip_blank, lstrip_append_blank by done.
  destruct (blank s) eqn:E.
  - by rewrite (blank_lstrip _ E).
  - by apply rstrip_append_blank.
Qed.

(** White space of ASCII. *)
Lemma lstrip_all_space post : all_space post = true → lstrip post = "".
Proof.
  induction post as [|c post IH]; [done|]. cbn [all_space].
  intros [Hc Hpost]%andb_true_iff. rewrite lstrip_space by done. by apply IH.
Qed.

Lemma all_space_blank post : all_space post = true → blank post = true.
Proof. intros Hpost. unfold blank. by rewrite lstrip_all_space. Qed.

Lemma lstrip_spaces pre s : all_space pre = true → lstrip (pre ++ s) = lstrip s.
Proof. intros Hpre. by apply lstrip_blank, all_space_blank. Qed.

Lemma strip_spaces_right s post :
  all_space post = true → rstrip (lstrip (s ++ post)) = rstrip (lstrip s).
Proof.
  intros Hpost%all_space_blank.
  apply (strip_blank "" s post); [done|done].
Qed.

(** [strip] leaves a text of ASCII characters without white space as it
    is. *)
Lemma lstrip_plain s : plain s = true → lstrip s = s.
Proof.
  destruct s as [|a s]; [done|]. cbn [plain].
  intros [[Ha%negb_true_iff Hlow%N.ltb_lt]%andb_true_iff _]%andb_true_iff.
  apply lstrip_stop; [done| |].
  - intros b. destruct (is_space2 a b) eqn:E; [|done]. apply is_space2_high in E. lia.
  - intros b c. destruct (is_space3 a b c) eqn:E; [|done]. apply is_space3_high in E. lia.
Qed.

Lemma rstrip_plain s : plain s = true → rstrip s = s.
Proof.
  induction s as [|c s IH]; [done|]. intros Hs. rewrite rstrip_cons.
  rewrite blank_stop by (by rewrite ?lstrip_plain).
  f_equal. apply IH. cbn [plain] in Hs. by apply andb_true_iff in Hs as [_ ?].
Qed.

Lemma strip_plain s : plain s = true → strip s = s.
Proof. intros Hs. unfold strip. rewrite lstrip_plain by done. by apply rstrip_plain. Qed.

Lemma hex_char_plain d :
  (0 ≤ d ≤ 15)%Z →
  negb (is_space (hex_char d)) && (N_of_ascii (hex_char d) <? 128)%N = true.
Proof.
  intros Hd.
  assert (∃ n : nat, d = Z.of_nat n ∧ n < 16) as (n & -> & Hn)
    by (exists (Z.to_nat d); lia).
  clear Hd. do 16 (destruct n as [|n]; [by vm_compute|]). lia.
Qed.

(** X3: Reading back a written colour.  For components between 0 and 255,
    [hex_to_rgb] of the [#rrggbb] text of a colour is that colour. *)
Theorem hex_to_rgb_of_rgb_hex (r g b : Z) :
  (0 ≤ r ≤ 255)%Z → (0 ≤ g ≤ 255)%Z → (0 ≤ b ≤ 255)%Z →
  hex_to_rgb (rgb_hex r g b) = Some (r, g, b).
Proof.
  intros Hr Hg Hb. unfold hex_to_rgb. cbv [rgb_hex hex_pair String.append].
  destruct (hex_char_digit (r / 16)) as (_ & _ & Lr1); [Z.div_mod_to_equations; lia|].
  destruct (hex_char_digit (r mod 16)) as (_ & _ & Lr2); [Z.div_mod_to_equations; lia|].
  destruct (hex_char_digit (g / 16)) as (_ & _ & Lg1); [Z.div_mod_to_equations; lia|].
  destruct (hex_char_digit (g mod 16)) as (_ & _ & Lg2); [Z.div_mod_to_equations; lia|].
  destruct (hex_char_digit (b / 16)) as (_ & _ & Lb1); [Z.div_mod_to_equations; lia|].
  destruct (hex_char_digit (b mod 16)) as (_ & _ & Lb2); [Z.div_mod_to_equations; lia|].
  rewrite strip_plain.
  2:{ cbn [plain]. rewrite !hex_char_plain by (Z.div_mod_to_equations; lia). done. }
  cbn [lower]. rewrite Lr1, Lr2, Lg1, Lg2, Lb1, Lb2.
  change (lower_char "#") with "#"%char.
  change (Ascii.eqb "#" "#") with true. cbn match.
  rewrite !hex_pair_byte by done. done.
Qed.

(** X4: [hex_to_rgb] ignores the case of letters and white space around the
    text. *)
Theorem hex_to_rgb_insensitive (h pre post : string) :
  all_space pre = true → all_space post = true →
  hex_to_rgb (pre ++ h ++ post) = hex_to_rgb h
  ∧ hex_to_rgb (lower h) = hex_to_rgb h.
Proof.
  intros Hpre Hpost. unfold hex_to_rgb, strip. split.
  - by rewrite lstrip_spaces, strip_spaces_right.
  - by rewrite lstrip_lower, rstrip_lower, lower_lower.
Qed.

Lemma hex_to_rgb_of_rgb_hex_witness : hex_to_rgb (rgb_hex 255 136 0) = Some (255, 136, 0)%Z.
Proof. apply (hex_to_rgb_of_rgb_hex 255 136 0); lia. Defined.

Lemma hex_to_rgb_insensitive_witness :
  hex_to_rgb ("  " ++ "#FF8800" ++ " ") = hex_to_rgb "#FF8800"
  ∧ hex_to_rgb (lower "#FF8800") = hex_to_rgb "#FF8800".
Proof. apply (hex_to_rgb_insensitive "#FF8800" "  " " "); reflexivity. Defined.

(** ** White space by code point *)

Ltac byte_lia := zify; Z.to_euclidean_division_equations; lia.

Ltac byte_false :=
  apply not_true_iff_false; unfold is_space, is_space2, is_space3; cbv zeta;
  rewrite ?N_ascii_embedding by byte_lia;
  rewrite ?orb_true_iff, ?andb_true_iff, ?orb_true_iff, ?andb_true_iff,
    ?N.eqb_eq, ?N.leb_le;
  byte_lia.

Lemma utf8_white cp : cp ∈ white_code_points → blank (utf8 cp) = true.
Proof.
  revert cp. apply Forall_forall. unfold white_code_points.
  repeat (constructor; [vm_compute; reflexivity|]). constructor.
Qed.

Lemma utf8_text_cons cp cps : utf8_text (cp :: cps) = utf8 cp ++ utf8_text cps.
Proof. done. Qed.

Lemma utf8_text_app a b : utf8_text (a ++ b) = utf8_text a ++ utf8_text b.
Proof.
  induction a as [|cp a IH]; [done|].
  by rewrite <- app_comm_cons, !utf8_text_cons, IH, append_assoc.
Qed.

Lemma utf8_text_white cps :
  Forall (λ cp, cp ∈ white_code_points) cps → blank (utf8_text cps) = true.
Proof.
  induction 1 as [|cp cps Hcp _ IH]; [done|]. rewrite utf8_text_cons.
  unfold blank. rewrite lstrip_blank by by apply utf8_white.
  by rewrite (blank_lstrip _ IH).
Qed.

Lemma utf8_first cp : ∃ a s, utf8 cp = String a s.
Proof. unfold utf8. repeat case_match; eauto. Qed.

(** A character that is not white space stops [lstrip]. *)
Lemma utf8_stop cp t :
  (cp < 1114112)%N → cp ∉ white_code_points →
  lstrip (utf8 cp ++ t) = utf8 cp ++ t.
Proof.
  intros Hv Hw. unfold white_code_points in Hw.
  rewrite !not_elem_of_cons in Hw. destruct_and!.
  unfold utf8.
  destruct (N.ltb_spec cp 128); [|destruct (N.ltb_spec cp 2048);
                                   [|destruct (N.ltb_spec cp 65536)]];
    rewrite !append_cons, append_nil_l.
  - apply lstrip_stop; [|intros b|intros b c]; byte_false.
  - apply lstrip_stop_pair; [| |intros c]; byte_false.
  - apply lstrip_stop3; byte_false.
  - apply lstrip_stop3; byte_false.
Qed.

Lemma utf8_not_blank cp t :
  (cp < 1114112)%N → cp ∉ white_code_points → blank (utf8 cp ++ t) = false.
Proof.
  intros Hv Hw. apply blank_stop; [by apply utf8_stop|].
  destruct (utf8_first cp) as (a & s & ->). by rewrite append_cons.
Qed.

(** A text is white space only when each character of it is. *)
Lemma blank_utf8_text cps :
  Forall (λ cp, (cp < 1114112)%N) cps →
  blank (utf8_text cps) = true → Forall (λ cp, cp ∈ white_code_points) cps.
Proof.
  induction 1 as [|cp cps Hcp _ IH]; [done|]. rewrite utf8_text_cons. intros Hb.
  destruct (decide (cp ∈ white_code_points)) as [Hw|Hw].
  - constructor; [done|]. apply IH. unfold blank in *.
    by rewrite lstrip_blank in Hb by by apply utf8_white.
  - by rewrite utf8_not_blank in Hb.
Qed.

(** No white space begins at a continuation byte, so that [rstrip] cuts a
    text before a character or nowhere. *)
Lemma rstrip_continuation c s :
  (128 ≤ N_of_ascii c < 192)%N → rstrip (String c s) = String c (rstrip s).
Proof.
  intros Hc. rewrite rstrip_cons, blank_stop; [done| |done].
  apply lstrip_stop.
  - destruct (is_space c) eqn:E; [apply is_space_low in E; lia|done].
  - intros b. destruct (is_space2 c b) eqn:E; [apply is_space2_high in E; lia|done].
  - intros b d. destruct (is_space3 c b d) eqn:E; [apply is_space3_high in E; lia|done].
Qed.

Lemma rstrip_utf8 cp t :
  (cp < 1114112)%N →
  rstrip (utf8 cp ++ t) = if blank (utf8 cp ++ t) then "" else utf8 cp ++ rstrip t.
Proof.
  intros Hv. unfold utf8.
  destruct (N.ltb_spec cp 128); [|destruct (N.ltb_spec cp 2048);
                                   [|destruct (N.ltb_spec cp 65536)]];
    rewrite !append_cons, !append_nil_l, rstrip_cons;
    destruct (blank _); try done;
    by rewrite !rstrip_continuation by (rewrite N_ascii_embedding; byte_lia).
Qed.

Lemma rstrip_utf8_text mid :
  Forall (λ cp, (cp < 1114112)%N) mid →
  (∀ cp, last mid = Some cp → cp ∉ white_code_points) →
  rstrip (utf8_text mid) = utf8_text mid.
Proof.
  induction 1 as [|cp rest Hcp Hrest IH]; intros Hlast; [done|].
  rewrite utf8_text_cons, rstrip_utf8 by done.
  destruct (blank (utf8 cp ++ utf8_text rest)) eqn:Hb.
  - exfalso. rewrite <- utf8_text_cons in Hb.
    apply blank_utf8_text in Hb; [|by constructor].
    destruct (last (cp :: rest)) as [x|] eqn:El; [|by apply last_None in El].
    apply (Hlast x); [done|].
    apply last_Some_elem_of in El. by eapply Forall_forall in Hb.
  - f_equal. apply IH. intros x Hx. apply Hlast.
    destruct rest as [|y rest]; [done|]. by rewrite last_cons_cons.
Qed.

(** X30: What [strip] removes.  Around any text, white space is removed:
    [strip], and with it [hex_to_rgb], gives for a text between characters
    for which [str.isspace()] holds what it gives for the text alone.  And
    nothing else is removed: a text of characters that begins and ends
    with characters that are not white space is what is left of it between
    white space. *)
Theorem strip_white_space_only (pre mid post : list N) :
  Forall (λ cp, cp ∈ white_code_points) pre →
  Forall (λ cp, cp ∈ white_code_points) post →
  (∀ h, strip (utf8_text pre ++ h ++ utf8_text post) = strip h
        ∧ hex_to_rgb (utf8_text pre ++ h ++ utf8_text post) = hex_to_rgb h)
  ∧ (Forall (λ cp, (cp < 1114112)%N) mid →
     (∀ cp, head mid = Some cp → cp ∉ white_code_points) →
     (∀ cp, last mid = Some cp → cp ∉ white_code_points) →
     strip (utf8_text (pre ++ mid ++ post)) = utf8_text mid).
Proof.
  intros Hpre%utf8_text_white Hpost%utf8_text_white.
  assert (∀ h, strip (utf8_text pre ++ h ++ utf8_text post) = strip h) as Hstrip
    by (intros h; by apply strip_blank).
  split.
  - intros h. split; [done|]. unfold hex_to_rgb. by rewrite Hstrip.
  - intros Hmid Hhead Hlast. rewrite !utf8_text_app, Hstrip. unfold strip.
    assert (lstrip (utf8_text mid) = utf8_text mid) as ->.
    { destruct Hmid as [|cp rest Hcp Hrest]; [done|].
      rewrite utf8_text_cons. apply utf8_stop; [done|]. by apply Hhead. }
    by apply rstrip_utf8_text.
Qed.


(** A no-break space and a space before, an em space and an ideographic
    space after; in between, any text, and the text [#é a]. *)
Lemma strip_white_space_only_witness :
  (∀ h, strip (utf8_text [160; 32]%N ++ h ++ utf8_text [8195; 12288]%N) = strip h
        ∧ hex_to_rgb (utf8_text [160; 32]%N ++ h ++ utf8_text [8195; 12288]%N)
          = hex_to_rgb h)
  ∧ strip (utf8_text ([160; 32]%N ++ [35; 233; 32; 97]%N ++ [8195; 12288]%N)%list)
    = utf8_text [35; 233; 32; 97]%N.
Proof.
  destruct (strip_white_space_only [160; 32]%N [35; 233; 32; 97]%N [8195; 12288]%N)
    as [Hany Hmid].
  - refine (bool_decide_unpack _ _). vm_compute. exact I.
  - refine (bool_decide_unpack _ _). vm_compute. exact I.
  - split; [exact Hany|]. apply Hmid.
    + refine (bool_decide_unpack _ _). vm_compute. exact I.
    + intros cp [= <-]. refine (bool_decide_unpack _ _). vm_compute. exact I.
    + intros cp [= <-]. refine (bool_decide_unpack _ _). vm_compute. exact I.
Defined.



(** ** What a computation does to the world *)

Section WorldFacts.
Context `{Host}.

#[global] Instance only_printed_preorder : PreOrder only_printed.
Proof.
  split; [done|]. intros w1 w2 w3 (? & ? & ?) (? & ? & ?).
  unfold only_printed. by repeat split; etrans.
Qed.

#[global] Instance same_config_preorder : PreOrder same_config.
Proof. split; [done|]. intros w1 w2 w3 ? ?. unfold same_config in *. by etrans. Qed.

Lemma respects_ret {A} (R : relation world) `{!Reflexive R} (a : A) : respects R (mret a).
Proof. by intros w r w' [= _ <-]. Qed.

Lemma respects_raise {A} (R : relation world) `{!Reflexive R} e : respects R (@raise _ A e).
Proof. by intros w r w' [= _ <-]. Qed.

Lemma respects_lift {A} (R : relation world) `{!Reflexive R} (o : outcome A) :
  respects R (lift o).
Proof. by intros w r w' [= _ <-]. Qed.

Lemma respects_bind {A B} (R : relation world) `{!Transitive R} (c : M A) (f : A → M B) :
  respects R c → (∀ a, respects R (f a)) → respects R (c ≫= f).
Proof.
  intros Hc Hf w r w'. unfold mbind, M_bind.
  destruct (c w) as [[a|e|x] w1] eqn:Ec; specialize (Hc _ _ _ Ec).
  - intros E. etrans; [done|]. by eapply Hf.
  - by intros [= _ <-].
  - by intros [= _ <-].
Qed.

Lemma respects_weaken {A} (R R' : relation world) (c : M A) :
  (∀ w w', R w w' → R' w w') → respects R c → respects R' c.
Proof. intros HR Hc w r w' E. by eapply HR, Hc. Qed.

Lemma respects_load_devices : respects eq load_config_devices.
Proof. intros w r w' E. symmetry. by eapply load_devices_world. Qed.

Lemma respects_load_groups : respects eq load_config_groups.
Proof. intros w r w' E. symmetry. by eapply load_groups_world. Qed.

Lemma respects_print l : respects only_printed (print l).
Proof. by intros w r w' [= _ <-]. Qed.

Lemma respects_api_request path method data : respects same_config (api_request path method data).
Proof.
  intros w r w'. unfold api_request.
  destruct (api_call _ _) as [[resp|[msg|x]] s]; by intros [= _ <-].
Qed.

Lemma eq_only_printed w w' : w = w' → only_printed w w'.
Proof. by intros ->. Qed.

Lemma only_printed_same_config w w' : only_printed w w' → same_config w w'.
Proof. by intros (? & _). Qed.

Lemma eq_same_config w w' : w = w' → same_config w w'.
Proof. by intros ->. Qed.

(** The group path of [resolve_targets] leaves the world as it is. *)
Lemma respects_resolve_group devmap group members :
  respects eq (l ← lift (py_iter members);
               resolved ← lift (resolve_members devmap group l);
               match resolved with
               | [] => raise (EmptyGroup group)
               | _ => mret resolved
               end).
Proof.
  apply respects_bind; [apply _|by apply respects_lift|]. intros l.
  apply respects_bind; [apply _|by apply respects_lift|]. intros [|t ts].
  - by apply respects_raise.
  - by apply respects_ret.
Qed.

Lemma respects_resolve_single_named name device model :
  truthy name || (truthy device && truthy model) = true →
  respects eq (resolve_single_target name device model).
Proof.
  intros Hsel. unfold resolve_single_target.
  destruct (truthy name).
  - apply respects_bind; [apply _|apply respects_load_devices|]. intros devmap.
    destruct (devmap !! default "" name).
    + by apply respects_ret.
    + by apply respects_raise.
  - simpl in Hsel. rewrite Hsel. by apply respects_ret.
Qed.

Lemma respects_resolve_single name device model :
  respects same_config (resolve_single_target name device model).
Proof.
  destruct (truthy name || (truthy device && truthy model)) eqn:Hsel.
  { eapply respects_weaken; [apply eq_same_config|].
    by apply respects_resolve_single_named. }
  apply orb_false_iff in Hsel as [Hn Hp].
  unfold resolve_single_target. rewrite Hn, Hp.
  apply respects_bind; [apply _|apply respects_api_request|]. intros devices.
  apply respects_bind; [apply _|by apply respects_lift|]. intros [[dev mdl]|].
  - apply respects_bind; [apply _| |intros; by apply respects_ret].
    eapply respects_weaken; [apply only_printed_same_config|apply respects_print].
  - by apply respects_raise.
Qed.

(** X5: Resolving a name.  With a non-empty name and no group, over the
    loaded nicknames: a bound name resolves to its binding alone, an unbound
    one fails with [UnknownNickname]; an explicit device or model given
    besides is ignored, and the world is left as it is. *)
Theorem resolve_by_name (n : string) device model group (w : world) devmap :
  n ≠ "" → truthy group = false →
  load_config_devices w = (Ok devmap, w) →
  match devmap !! n with
  | Some e =>
      resolve_targets (Some n) device model group w
      = (Ok [(JStr (ent_id e), JStr (ent_model e))], w)
  | None =>
      resolve_targets (Some n) device model group w = (Raise (NicknameNotFound n), w)
      ∧ kind (NicknameNotFound n) = UnknownNickname
  end.
Proof.
  intros Hn Hg Hd.
  assert (resolve_targets (Some n) device model group w
          = (t ← match devmap !! n with
                 | None => raise (NicknameNotFound n)
                 | Some e => mret (JStr (ent_id e), JStr (ent_model e))
                 end;
             mret [t]) w) as ->.
  { unfold resolve_targets, resolve_single_target.
    rewrite Hg. cbn [truthy]. rewrite (bool_decide_eq_false_2 (n = "")) by done.
    simpl. unfold mbind at 1 3, M_bind at 1 3.
    by rewrite (bind_ok _ _ _ _ _ Hd). }
  by destruct (devmap !! n).
Qed.

(** X6: Resolution only reads the registry.  Whatever the selector and the
    outcome, [resolve_targets] leaves the configuration file as it is; and
    when a name, a group or a complete explicit pair is given it leaves the
    whole world as it is: it prints nothing and does not call the vendor
    API. *)
Theorem resolve_only_reads name device model group (w : world) r w' :
  resolve_targets name device model group w = (r, w') →
  config w' = config w
  ∧ (truthy name || truthy group || (truthy device && truthy model) = true → w' = w).
Proof.
  intros E. split.
  - revert w r w' E. change (respects same_config (resolve_targets name device model group)).
    unfold resolve_targets. case_bool_decide; [by apply respects_raise|].
    destruct (truthy group).
    + eapply respects_weaken; [apply eq_same_config|].
      apply respects_bind; [apply _|apply respects_load_devices|]. intros devmap.
      apply respects_bind; [apply _|apply respects_load_groups|]. intros gs.
      destruct (gs !! default "" group) as [members|]; [|by apply respects_raise].
      destruct members; try apply respects_resolve_group. by apply respects_raise.
    + apply respects_bind; [apply _|apply respects_resolve_single|].
      intros t. by apply respects_ret.
  - intros Hsel. symmetry. revert w r w' E.
    change (respects eq (resolve_targets name device model group)).
    unfold resolve_targets. case_bool_decide; [by apply respects_raise|].
    destruct (truthy group).
    + apply respects_bind; [apply _|apply respects_load_devices|]. intros devmap.
      apply respects_bind; [apply _|apply respects_load_groups|]. intros gs.
      destruct (gs !! default "" group) as [members|]; [|by apply respects_raise].
      destruct members; try apply respects_resolve_group. by apply respects_raise.
    + apply respects_bind; [apply _| |intros t; by apply respects_ret].
      apply respects_resolve_single_named. by rewrite orb_false_r in Hsel.
Qed.

(** X7: Auto-detection and the vendor API.  With no name, no group and no
    complete explicit pair, [resolve_targets] lists the devices once: a
    failure of that call is raised as it is; a response that is not an
    object ends in an uncaught [AttributeError]; a response object with
    neither ["data"] nor ["devices"] fails with [AmbiguousAutoDetect]; and
    an exception that [api_request] lets through ends resolution, uncaught. *)
Theorem auto_detect_failures name device model group (w : world) :
  truthy name = false → truthy group = false →
  truthy device && truthy model = false →
  let listed s := World (config w) (stdout w) s
                        (api_log w ++ [("/devices", "GET", None)]) in
  (∀ msg s, api_call ("/devices", "GET", None) (service w) = (inr (Reported msg), s) →
     resolve_targets name device model group w = (Raise (ApiError msg), listed s))
  ∧ (∀ resp s, api_call ("/devices", "GET", None) (service w) = (inl resp, s) →
     (∀ d, resp ≠ JObj d) →
     resolve_targets name device model group w = (Uncaught AttributeError, listed s))
  ∧ (∀ d s, api_call ("/devices", "GET", None) (service w) = (inl (JObj d), s) →
     d !! "data" = None → d !! "devices" = None →
     resolve_targets name device model group w = (Raise AmbiguousAutoDetect, listed s))
  ∧ (∀ x s, api_call ("/devices", "GET", None) (service w) = (inr (Escaped x), s) →
     resolve_targets name device model group w = (Uncaught x, listed s)).
Proof.
  intros Hn Hg Hp listed.
  assert (∀ reply s, api_call ("/devices", "GET", None) (service w) = (reply, s) →
            resolve_targets name device model group w
            = match reply with
              | inl resp =>
                  (t ← (guessed ← lift (guess_single_h6008 resp);
                        match guessed with
                        | Some (dev, mdl) =>
                            _ ← print (Text ("[info] Using detected H6008 device: "
                                              ++ py_str dev ++ " (" ++ py_str mdl ++ ")"));
                            mret (dev, mdl)
                        | None => raise AmbiguousAutoDetect
                        end);
                   mret [t]) (listed s)
              | inr (Reported msg) => (Raise (ApiError msg), listed s)
              | inr (Escaped x) => (Uncaught x, listed s)
              end) as Hrun.
  { intros reply s Hcall.
    unfold resolve_targets, resolve_single_target. rewrite Hn, Hg, Hp. simpl.
    unfold list_devices, api_request, mbind at 1 2, M_bind at 1 2.
    rewrite Hcall. by destruct reply as [resp|[msg|x]]. }
  split; [|split; [|split]].
  - intros msg s Hcall. by rewrite (Hrun _ _ Hcall).
  - intros resp s Hcall Hobj. rewrite (Hrun _ _ Hcall).
    destruct resp; try done. by destruct (Hobj d).
  - intros d s Hcall Hdata Hdevices. rewrite (Hrun _ _ Hcall).
    unfold guess_single_h6008, py_get, mbind at 3, outcome_bind at 1.
    rewrite Hdata. simpl. rewrite Hdevices. done.
  - intros x s Hcall. by rewrite (Hrun _ _ Hcall).
Qed.

End WorldFacts.

Lemma resolve_by_name_witness :
  resolve_targets (Some "lamp") (Some "other") None None (demo_world (room_file []) [])
  = (Ok [(JStr "dev1", JStr "H6008")], demo_world (room_file []) []).
Proof.
  apply (resolve_by_name "lamp" (Some "other") None None
           (demo_world (room_file []) []) lamp_devmap);
    [discriminate|reflexivity|apply room_file_devices].
Defined.

Lemma resolve_only_reads_witness :
  config (demo_world (room_file []) []) = config (demo_world (room_file []) [])
  ∧ (truthy (Some "ghost") || truthy None || (truthy None && truthy None) = true →
     demo_world (room_file []) [] = demo_world (room_file []) []).
Proof.
  apply (resolve_only_reads (Some "ghost") None None None
           (demo_world (room_file []) []) (Raise (NicknameNotFound "ghost"))).
  vm_compute; reflexivity.
Defined.

Lemma auto_detect_failures_witness :
  resolve_targets None None None None (demo_world Missing [inr (Reported "HTTP 500: down")])
  = (Raise (ApiError "HTTP 500: down"),
     @World demo_host Missing [] [] [("/devices", "GET", None)]).
Proof.
  destruct (auto_detect_failures None None None None
              (demo_world Missing [inr (Reported "HTTP 500: down")])) as (Hfail & _);
    [reflexivity..|].
  apply Hfail. reflexivity.
Defined.


(** ** Registry management *)

Section RegistryFacts.
Context `{Host}.

Lemma bind_run {A B} (c : M A) (f : A → M B) w :
  (c ≫= f) w
  = match c w with
    | (Ok a, w') => f a w'
    | (Raise e, w') => (Raise e, w')
    | (Uncaught x, w') => (Uncaught x, w')
    end.
Proof. reflexivity. Qed.

Lemma load_devices_payload (w : world) devmap gs :
  config w = Document (JObj (<[GROUPS_KEY := JObj gs]> (ent_json <$> devmap))) →
  load_config_devices w = (Ok (delete GROUPS_KEY devmap), w).
Proof.
  intros E. erewrite load_devices_document by done. do 2 f_equal.
  apply map_eq. intros k. rewrite fold_add_device_lookup.
  case_bool_decide as Hk.
  - subst k. by rewrite lookup_delete_eq.
  - rewrite lookup_insert_ne, lookup_delete_ne, lookup_fmap by done.
    destruct (devmap !! k) as [e|]; [|done]. simpl. apply entry_of_ent_json.
Qed.

Lemma load_groups_payload (w : world) devmap gs :
  config w = Document (JObj (<[GROUPS_KEY := JObj gs]> (ent_json <$> devmap))) →
  load_config_groups w = (Ok gs, w).
Proof. intros E. eapply load_groups_document; [done|]. apply lookup_insert_eq. Qed.

Lemma load_saved w devmap gs said :
  devmap !! GROUPS_KEY = None →
  load_config_devices (saved w devmap gs said) = (Ok devmap, saved w devmap gs said)
  ∧ load_config_groups (saved w devmap gs said) = (Ok gs, saved w devmap gs said).
Proof.
  intros Hres. split.
  - erewrite load_devices_payload by reflexivity. by rewrite delete_id.
  - by eapply load_groups_payload.
Qed.

Lemma names_add_run n d m (w : world) devmap gs :
  load_config_devices w = (Ok devmap, w) →
  load_config_groups w = (Ok gs, w) →
  names_add n d m w
  = (Ok (), saved w (<[n := Ent d m]> devmap) gs
              [Text ("Saved nickname '" ++ n ++ "' -> id=" ++ d
                     ++ " model=" ++ m ++ " in " ++ CONFIG_PATH)]).
Proof.
  intros Hd Hg. unfold names_add.
  by rewrite (bind_ok _ _ _ _ _ Hd), (bind_ok _ _ _ _ _ Hg).
Qed.

Lemma names_remove_run n (w : world) devmap gs :
  load_config_devices w = (Ok devmap, w) →
  load_config_groups w = (Ok gs, w) →
  names_remove n w
  = match devmap !! n with
    | None => (Ok (), printed w [Text ("Nickname '" ++ n ++ "' not found in " ++ CONFIG_PATH)])
    | Some _ =>
        match prune_groups n gs with
        | Ok gs' => (Ok (), saved w (delete n devmap) gs'
                              [Text ("Removed nickname '" ++ n ++ "' from " ++ CONFIG_PATH
                                     ++ " and all groups")])
        | Raise e => (Raise e, w)
        | Uncaught x => (Uncaught x, w)
        end
    end.
Proof.
  intros Hd Hg. unfold names_remove.
  rewrite (bind_ok _ _ _ _ _ Hd), (bind_ok _ _ _ _ _ Hg).
  destruct (devmap !! n); [|done].
  rewrite bind_run. unfold lift. by destruct (prune_groups n gs).
Qed.

Lemma groups_add_run g (w : world) devmap gs :
  load_config_devices w = (Ok devmap, w) →
  load_config_groups w = (Ok gs, w) →
  groups_add g w
  = match gs !! g with
    | Some _ => (Ok (), printed w [Text ("Group '" ++ g ++ "' already exists.")])
    | None => (Ok (), saved w devmap (<[g := JArr []]> gs)
                        [Text ("Created group '" ++ g ++ "' in " ++ CONFIG_PATH)])
    end.
Proof.
  intros Hd Hg. unfold groups_add.
  rewrite (bind_ok _ _ _ _ _ Hd), (bind_ok _ _ _ _ _ Hg).
  by destruct (gs !! g).
Qed.

Lemma groups_remove_run g (w : world) devmap gs :
  load_config_devices w = (Ok devmap, w) →
  load_config_groups w = (Ok gs, w) →
  groups_remove g w
  = match gs !! g with
    | None => (Ok (), printed w [Text ("Group '" ++ g ++ "' not found.")])
    | Some _ => (Ok (), saved w devmap (delete g gs)
                          [Text ("Removed group '" ++ g ++ "'.")])
    end.
Proof.
  intros Hd Hg. unfold groups_remove.
  rewrite (bind_ok _ _ _ _ _ Hd), (bind_ok _ _ _ _ _ Hg).
  by destruct (gs !! g).
Qed.

Lemma groups_add_members_run g names pairs (w : world) devmap gs :
  load_config_devices w = (Ok devmap, w) →
  load_config_groups w = (Ok gs, w) →
  groups_add_members g names pairs w
  = match gs !! g with
    | None => (Raise (ManagedGroupNotFound g), w)
    | Some members =>
        match _parse_pairs pairs with
        | Ok ps =>
            match default [] names, ps with
            | [], [] => (Raise NoMembersGiven, w)
            | _, _ =>
                match validate_names devmap (default [] names) with
                | Ok _ =>
                    match members with
                    | JArr ms =>
                        (Ok (), saved w devmap
                                  (<[g := JArr (ms ++ (JStr <$> default [] names) ++ ps)]> gs)
                                  [Text ("Added members to '" ++ g ++ "'.")])
                    | _ => (Uncaught AttributeError, w)
                    end
                | Raise e => (Raise e, w)
                | Uncaught x => (Uncaught x, w)
                end
            end
        | Raise e => (Raise e, w)
        | Uncaught x => (Uncaught x, w)
        end
    end.
Proof.
  intros Hd Hg. unfold groups_add_members.
  rewrite (bind_ok _ _ _ _ _ Hd), (bind_ok _ _ _ _ _ Hg).
  destruct (gs !! g) as [members|]; [|done].
  rewrite bind_run. unfold lift at 1.
  destruct (_parse_pairs pairs) as [ps| |]; [|done..].
  assert ((_ ← lift (validate_names devmap (default [] names));
           match members with
           | JArr ms =>
               _ ← save_full_config devmap
                     (<[g := JArr (ms ++ (JStr <$> default [] names) ++ ps)]> gs);
               print (Text ("Added members to '" ++ g ++ "'."))
           | _ => lift (Uncaught AttributeError)
           end) w
          = match validate_names devmap (default [] names) with
            | Ok _ =>
                match members with
                | JArr ms =>
                    (Ok (), saved w devmap
                              (<[g := JArr (ms ++ (JStr <$> default [] names) ++ ps)]> gs)
                              [Text ("Added members to '" ++ g ++ "'.")])
                | _ => (Uncaught AttributeError, w)
                end
            | Raise e => (Raise e, w)
            | Uncaught x => (Uncaught x, w)
            end) as Hrest.
  { rewrite bind_run. unfold lift at 1.
    destruct (validate_names _ _); [|done..]. by destruct members. }
  destruct (default [] names), ps; done.
Qed.

Lemma groups_remove_members_run g names pairs (w : world) devmap gs :
  load_config_devices w = (Ok devmap, w) →
  load_config_groups w = (Ok gs, w) →
  groups_remove_members g names pairs w
  = match gs !! g with
    | None => (Raise (ManagedGroupNotFound g), w)
    | Some members =>
        match default [] names, default [] pairs with
        | [], [] => (Ok NoMembersToRemove, w)
        | _, _ =>
            match py_iter members with
            | Ok l =>
                (Ok Removed,
                 saved w devmap
                   (<[g := JArr (List.filter (stays (default [] names) (default [] pairs)) l)]> gs)
                   [Text ("Removed members from '" ++ g ++ "'.")])
            | Raise e => (Raise e, w)
            | Uncaught x => (Uncaught x, w)
            end
        end
    end.
Proof.
  intros Hd Hg. unfold groups_remove_members.
  rewrite (bind_ok _ _ _ _ _ Hd), (bind_ok _ _ _ _ _ Hg).
  destruct (gs !! g) as [members|]; [|done].
  assert ((l ← lift (py_iter members);
           _ ← save_full_config devmap
                 (<[g := JArr (List.filter (stays (default [] names) (default [] pairs)) l)]> gs);
           _ ← print (Text ("Removed members from '" ++ g ++ "'."));
           mret Removed) w
          = match py_iter members with
            | Ok l =>
                (Ok Removed,
                 saved w devmap
                   (<[g := JArr (List.filter (stays (default [] names) (default [] pairs)) l)]> gs)
                   [Text ("Removed members from '" ++ g ++ "'.")])
            | Raise e => (Raise e, w)
            | Uncaught x => (Uncaught x, w)
            end) as Hrest.
  { rewrite bind_run. unfold lift at 1. by destruct (py_iter members). }
  destruct (default [] names), (default [] pairs); done.
Qed.

(** A command whose loading fails ends as the loading did. *)
Lemma loads_cases (w : world) :
  (∃ devmap gs, load_config_devices w = (Ok devmap, w)
                ∧ load_config_groups w = (Ok gs, w))
  ∨ (∀ {A} (k : gmap string ent → gmap string json → M A) r w',
       (devmap ← load_config_devices; groups ← load_config_groups; k devmap groups) w
       = (r, w') → (∀ a, r ≠ Ok a) ∧ w' = w).
Proof.
  destruct (load_config_devices w) as [[devmap|e|x] w1] eqn:Hd;
    pose proof (load_devices_world _ _ _ Hd); subst w1.
  - destruct (load_config_groups w) as [[gs|e|x] w1] eqn:Hg;
      pose proof (load_groups_world _ _ _ Hg); subst w1.
    + left. eauto.
    + right. intros A k r w'. rewrite (bind_ok _ _ _ _ _ Hd), bind_run, Hg.
      by intros [= <- <-].
    + right. intros A k r w'. rewrite (bind_ok _ _ _ _ _ Hd), bind_run, Hg.
      by intros [= <- <-].
  - right. intros A k r w'. rewrite bind_run, Hd. by intros [= <- <-].
  - right. intros A k r w'. rewrite bind_run, Hd. by intros [= <- <-].
Qed.

Lemma load_devices_same_config (w1 w2 : world) r :
  config w2 = config w1 →
  load_config_devices w1 = (r, w1) → load_config_devices w2 = (r, w2).
Proof.
  unfold load_config_devices, _load_raw_config, read_config, raise, lift.
  unfold mbind, M_bind, mret, M_ret. intros ->.
  destruct (config w1) as [|e|[]]; by intros [= <-].
Qed.

Lemma load_groups_same_config (w1 w2 : world) r :
  config w2 = config w1 →
  load_config_groups w1 = (r, w1) → load_config_groups w2 = (r, w2).
Proof.
  unfold load_config_groups, _load_raw_config, read_config, raise, lift, py_get.
  unfold mbind, M_bind, mret, M_ret. intros ->.
  destruct (config w1) as [|e|[]]; simpl; try by intros [= <-].
  destruct (default _ _); by intros [= <-].
Qed.

(** X8: Adding a nickname.  [names add n] with [n] other than the reserved
    key succeeds whether or not [n] was bound; afterwards [n] is bound to
    the given device, the other nicknames and all groups are as before, and
    the vendor API has not been called. *)
Theorem names_add_binds (n d m : string) (w : world) devmap gs :
  n ≠ GROUPS_KEY →
  load_config_devices w = (Ok devmap, w) →
  load_config_groups w = (Ok gs, w) →
  ∃ w', names_add n d m w = (Ok (), w')
        ∧ load_config_devices w' = (Ok (<[n := Ent d m]> devmap), w')
        ∧ load_config_groups w' = (Ok gs, w')
        ∧ service w' = service w ∧ api_log w' = api_log w.
Proof.
  intros Hn Hd Hg. eexists. split; [by apply names_add_run|].
  pose proof (load_devices_no_reserved _ _ _ Hd) as Hres.
  edestruct (load_saved w (<[n := Ent d m]> devmap) gs) as [Hd' Hg'].
  { by rewrite lookup_insert_ne. }
  split; [exact Hd'|]. split; [exact Hg'|]. done.
Qed.

(** X9: A registry command that fails changes nothing.  Whenever one of the
    six registry commands ends otherwise than by returning, the world is
    exactly as before: nothing was written or printed. *)
Theorem failed_command_changes_nothing (w : world) :
  (∀ n d m r w', names_add n d m w = (r, w') → r ≠ Ok () → w' = w)
  ∧ (∀ n r w', names_remove n w = (r, w') → r ≠ Ok () → w' = w)
  ∧ (∀ g r w', groups_add g w = (r, w') → r ≠ Ok () → w' = w)
  ∧ (∀ g r w', groups_remove g w = (r, w') → r ≠ Ok () → w' = w)
  ∧ (∀ g names pairs r w',
       groups_add_members g names pairs w = (r, w') → r ≠ Ok () → w' = w)
  ∧ (∀ g names pairs r w',
       groups_remove_members g names pairs w = (r, w') → r ≠ Ok Removed → w' = w).
Proof.
  destruct (loads_cases w) as [(devmap & gs & Hd & Hg)|Hfail].
  - repeat split.
    + intros n d m r w'. rewrite (names_add_run _ _ _ _ _ _ Hd Hg). by intros [= <- _].
    + intros n r w'. rewrite (names_remove_run _ _ _ _ Hd Hg).
      destruct (devmap !! n); [|by intros [= <- _]].
      destruct (prune_groups n gs); by intros [= <- <-].
    + intros g r w'. rewrite (groups_add_run _ _ _ _ Hd Hg).
      destruct (gs !! g); by intros [= <- _].
    + intros g r w'. rewrite (groups_remove_run _ _ _ _ Hd Hg).
      destruct (gs !! g); by intros [= <- _].
    + intros g names pairs r w'. rewrite (groups_add_members_run _ _ _ _ _ _ Hd Hg).
      repeat case_match; by intros [= <- <-].
    + intros g names pairs r w'. rewrite (groups_remove_members_run _ _ _ _ _ _ Hd Hg).
      repeat case_match; by intros [= <- <-].
  - repeat split.
    + intros n d m r w' E _. by apply Hfail in E as [_ ->].
    + intros n r w' E _. by apply Hfail in E as [_ ->].
    + intros g r w' E _. by apply Hfail in E as [_ ->].
    + intros g r w' E _. by apply Hfail in E as [_ ->].
    + intros g names pairs r w' E _. by apply Hfail in E as [_ ->].
    + intros g names pairs r w' E _. by apply Hfail in E as [_ ->].
Qed.

(** X10: Creating a group.  [groups add g] always returns; afterwards the
    nicknames are as before, a group [g] that did not exist is the empty
    list, the other groups are as before, and a group [g] that existed
    keeps its members: the file is then not written at all. *)
Theorem groups_add_creates (g : string) (w : world) devmap gs :
  load_config_devices w = (Ok devmap, w) →
  load_config_groups w = (Ok gs, w) →
  ∃ w', groups_add g w = (Ok (), w')
        ∧ load_config_devices w' = (Ok devmap, w')
        ∧ load_config_groups w'
          = (Ok (match gs !! g with Some _ => gs | None => <[g := JArr []]> gs end), w')
        ∧ (is_Some (gs !! g) → config w' = config w).
Proof.
  intros Hd Hg. rewrite (groups_add_run _ _ _ _ Hd Hg).
  pose proof (load_devices_no_reserved _ _ _ Hd) as Hres.
  destruct (gs !! g) as [v|] eqn:Eg; eexists; (split; [done|]).
  - split; [exact (load_devices_same_config w (printed w _) _ eq_refl Hd)|].
    split; [exact (load_groups_same_config w (printed w _) _ eq_refl Hg)|]. done.
  - destruct (load_saved w devmap (<[g := JArr []]> gs)
                [Text ("Created group '" ++ g ++ "' in " ++ CONFIG_PATH)] Hres) as [Hd' Hg'].
    split; [exact Hd'|]. split; [exact Hg'|]. by intros [? [=]].
Qed.

(** X11: Deleting a group.  [groups remove g] always returns; afterwards the
    groups are the former ones without [g] and the nicknames are as before;
    when [g] did not exist the file is not written. *)
Theorem groups_remove_deletes (g : string) (w : world) devmap gs :
  load_config_devices w = (Ok devmap, w) →
  load_config_groups w = (Ok gs, w) →
  ∃ w', groups_remove g w = (Ok (), w')
        ∧ load_config_devices w' = (Ok devmap, w')
        ∧ load_config_groups w' = (Ok (delete g gs), w')
        ∧ (gs !! g = None → config w' = config w).
Proof.
  intros Hd Hg. rewrite (groups_remove_run _ _ _ _ Hd Hg).
  pose proof (load_devices_no_reserved _ _ _ Hd) as Hres.
  destruct (gs !! g) as [v|] eqn:Eg; eexists; (split; [done|]).
  - destruct (load_saved w devmap (delete g gs)
                [Text ("Removed group '" ++ g ++ "'.")] Hres) as [Hd' Hg'].
    split; [exact Hd'|]. split; [exact Hg'|]. done.
  - rewrite delete_id by done.
    split; [exact (load_devices_same_config w (printed w _) _ eq_refl Hd)|].
    split; [exact (load_groups_same_config w (printed w _) _ eq_refl Hg)|]. done.
Qed.

(** X12: Creating then deleting.  Running [groups add g] and then
    [groups remove g] for a group that did not exist leaves a registry that
    loads as the one before. *)
Theorem groups_add_then_remove (g : string) (w : world) devmap gs :
  load_config_devices w = (Ok devmap, w) →
  load_config_groups w = (Ok gs, w) →
  gs !! g = None →
  let w' := invoke (GroupsRemove g) (invoke (GroupsAdd g) w) in
  load_config_devices w' = (Ok devmap, w') ∧ load_config_groups w' = (Ok gs, w').
Proof.
  intros Hd Hg Hnone. simpl.
  pose proof (load_devices_no_reserved _ _ _ Hd) as Hres.
  rewrite (groups_add_run _ _ _ _ Hd Hg), Hnone. simpl.
  destruct (load_saved w devmap (<[g := JArr []]> gs)
              [Text ("Created group '" ++ g ++ "' in " ++ CONFIG_PATH)] Hres) as [Hd1 Hg1].
  rewrite (groups_remove_run _ _ _ _ Hd1 Hg1), lookup_insert_eq. simpl.
  rewrite delete_insert_eq, delete_id by done.
  by apply load_saved.
Qed.

(** X13: Rewriting the file keeps nickname entries only.  A command that
    saves (here [groups add] of a new group) rewrites the whole document:
    beside the groups, each top-level key keeps the [id] and [model] of its
    value as strings when the value is an object with both, and is dropped
    otherwise. *)
Theorem rewrite_keeps_entries_only (g : string) (w : world) d gs :
  config w = Document (JObj d) →
  d !! GROUPS_KEY = Some (JObj gs) →
  gs !! g = None →
  ∃ w' d',
    groups_add g w = (Ok (), w')
    ∧ config w' = Document (JObj d')
    ∧ d' !! GROUPS_KEY = Some (JObj (<[g := JArr []]> gs))
    ∧ (∀ k, k ≠ GROUPS_KEY → d' !! k = ent_json <$> (d !! k ≫= entry_of)).
Proof.
  intros E Eg Hnone.
  rewrite (groups_add_run g w _ gs (load_devices_document _ _ E)
             (load_groups_document _ _ _ E Eg)), Hnone.
  eexists _, _. split; [done|]. split; [done|]. split.
  - apply lookup_insert_eq.
  - intros k Hk. rewrite lookup_insert_ne, lookup_fmap, fold_add_device_lookup by done.
    by rewrite bool_decide_eq_false_2.
Qed.

(** X14: [_load_merged] reads back what was saved.  After any
    [save_full_config], [_load_merged] returns exactly the document in the
    file. *)
Theorem load_merged_saved devmap gs (w w' : world) :
  save_full_config devmap gs w = (Ok (), w') →
  ∃ doc, config w' = Document (JObj doc) ∧ _load_merged w' = (Ok doc, w').
Proof.
  rewrite save_config. intros [= <-]. eexists. split; [done|].
  unfold _load_merged.
  erewrite bind_ok by (by eapply load_devices_payload).
  erewrite bind_ok by (by eapply load_groups_payload).
  unfold mret, M_ret. do 2 f_equal.
  by rewrite fmap_delete, insert_delete_eq.
Qed.

(** X15: Removing an unbound nickname.  [names remove n] for a nickname
    that is not bound returns after printing that it was not found; the
    file is not written, so references to [n] that groups may hold stay. *)
Theorem names_remove_unbound (n : string) (w : world) devmap gs :
  load_config_devices w = (Ok devmap, w) →
  load_config_groups w = (Ok gs, w) →
  devmap !! n = None →
  names_remove n w
  = (Ok (), printed w [Text ("Nickname '" ++ n ++ "' not found in " ++ CONFIG_PATH)]).
Proof. intros Hd Hg Hn. by rewrite (names_remove_run _ _ _ _ Hd Hg), Hn. Qed.

End RegistryFacts.

Lemma names_add_binds_witness :
  ∃ w', names_add "desk" "dev2" "H6008" (demo_world (room_file []) []) = (Ok (), w')
        ∧ load_config_devices w' = (Ok (<["desk" := Ent "dev2" "H6008"]> lamp_devmap), w')
        ∧ load_config_groups w' = (Ok (<["room" := JArr []]> ∅), w')
        ∧ service w' = service (demo_world (room_file []) [])
        ∧ api_log w' = api_log (demo_world (room_file []) []).
Proof.
  apply (names_add_binds "desk" "dev2" "H6008" (demo_world (room_file []) []));
    [discriminate|apply room_file_devices|apply room_file_groups].
Defined.

Lemma failed_command_changes_nothing_witness :
  (groups_add_members "missing" (Some ["lamp"]) None (demo_world (room_file []) [])).2
  = demo_world (room_file []) [].
Proof.
  destruct (failed_command_changes_nothing (demo_world (room_file []) []))
    as (_ & _ & _ & _ & Hadd & _).
  apply (Hadd "missing" (Some ["lamp"]) None (Raise (ManagedGroupNotFound "missing")));
    [vm_compute; reflexivity|discriminate].
Defined.

Lemma groups_add_creates_witness :
  ∃ w', groups_add "hall" (demo_world (room_file [JStr "lamp"]) []) = (Ok (), w')
        ∧ load_config_devices w' = (Ok lamp_devmap, w')
        ∧ load_config_groups w'
          = (Ok (<["hall" := JArr []]> (<["room" := JArr [JStr "lamp"]]> ∅)), w').
Proof.
  destruct (groups_add_creates "hall" (demo_world (room_file [JStr "lamp"]) [])
              lamp_devmap (<["room" := JArr [JStr "lamp"]]> ∅))
    as (w' & Hrun & Hd & Hg & _);
    [apply room_file_devices|apply room_file_groups|].
  exists w'. split; [exact Hrun|]. split; [exact Hd|]. exact Hg.
Defined.

Lemma groups_remove_deletes_witness :
  ∃ w', groups_remove "room" (demo_world (room_file [JStr "lamp"]) []) = (Ok (), w')
        ∧ load_config_devices w' = (Ok lamp_devmap, w')
        ∧ load_config_groups w' = (Ok (delete "room" (<["room" := JArr [JStr "lamp"]]> ∅)), w').
Proof.
  destruct (groups_remove_deletes "room" (demo_world (room_file [JStr "lamp"]) [])
              lamp_devmap (<["room" := JArr [JStr "lamp"]]> ∅))
    as (w' & Hrun & Hd & Hg & _);
    [apply room_file_devices|apply room_file_groups|].
  exists w'. split; [exact Hrun|]. split; [exact Hd|]. exact Hg.
Defined.

Lemma groups_add_then_remove_witness :
  let w' := invoke (GroupsRemove "hall")
              (invoke (GroupsAdd "hall") (demo_world (room_file [JStr "lamp"]) [])) in
  load_config_devices w' = (Ok lamp_devmap, w')
  ∧ load_config_groups w' = (Ok (<["room" := JArr [JStr "lamp"]]> ∅), w').
Proof.
  apply (groups_add_then_remove "hall" (demo_world (room_file [JStr "lamp"]) []));
    [apply room_file_devices|apply room_file_groups|vm_compute; reflexivity].
Defined.

Lemma rewrite_keeps_entries_only_witness :
  ∃ w' d',
    groups_add "room" (demo_world (Document (JObj noted_doc)) []) = (Ok (), w')
    ∧ config w' = Document (JObj d')
    ∧ d' !! "note" = None
    ∧ d' !! "lamp" = Some lamp_json.
Proof.
  destruct (rewrite_keeps_entries_only "room" (demo_world (Document (JObj noted_doc)) [])
              noted_doc ∅) as (w' & d' & Hrun & Hdoc & _ & Hkeys);
    [reflexivity|vm_compute; reflexivity|vm_compute; reflexivity|].
  exists w', d'. split; [exact Hrun|]. split; [exact Hdoc|]. split.
  - rewrite (Hkeys "note") by discriminate. vm_compute; reflexivity.
  - rewrite (Hkeys "lamp") by discriminate. vm_compute; reflexivity.
Defined.

Lemma load_merged_saved_witness :
  ∃ doc, config (saved (demo_world Missing []) lamp_devmap ∅ []) = Document (JObj doc)
         ∧ _load_merged (saved (demo_world Missing []) lamp_devmap ∅ [])
           = (Ok doc, saved (demo_world Missing []) lamp_devmap ∅ []).
Proof.
  apply (load_merged_saved lamp_devmap ∅ (demo_world Missing [])).
  vm_compute; reflexivity.
Defined.

Lemma names_remove_unbound_witness :
  names_remove "ghost" (demo_world (room_file [JStr "ghost"]) [])
  = (Ok (), printed (demo_world (room_file [JStr "ghost"]) [])
              [Text ("Nickname 'ghost' not found in " ++ @CONFIG_PATH demo_host)]).
Proof.
  apply (names_remove_unbound "ghost" (demo_world (room_file [JStr "ghost"]) [])
           lamp_devmap (<["room" := JArr [JStr "ghost"]]> ∅));
    [apply room_file_devices|apply room_file_groups|vm_compute; reflexivity].
Defined.


(** ** Pairs and members *)

Section MemberFacts.
Context `{Host}.

Lemma split_colon_none p : split_colon p = None ↔ has_colon p = false.
Proof.
  induction p as [|c p IH]; simpl; [done|].
  destruct (Ascii.eqb c ":"); simpl; [done|].
  rewrite <- IH. destruct (split_colon p) as [[a b]|]; simpl; split; done.
Qed.

Lemma split_colon_some p i m :
  split_colon p = Some (i, m) ↔ p = i ++ ":" ++ m ∧ has_colon i = false.
Proof.
  revert i. induction p as [|c p IH]; intros i; simpl.
  - split; [done|]. intros [E _]. destruct i; by repeat (rewrite append_nil_l in E || rewrite append_cons in E).
  - destruct (Ascii.eqb c ":") eqn:Ec.
    + apply Ascii.eqb_eq in Ec as ->. split.
      * by intros [= <- <-].
      * intros [E Hi]. destruct i as [|c i]; repeat (rewrite append_nil_l in E || rewrite append_cons in E).
        -- by injection E as <-.
        -- injection E as <- _. done.
    + split.
      * destruct (split_colon p) as [[a b]|] eqn:Ep; [|done]. simpl.
        intros [= <- <-]. destruct (proj1 (IH a) eq_refl) as [-> Ha].
        rewrite append_cons. simpl. by rewrite Ec.
      * intros [E Hi]. destruct i as [|c' i]; repeat (rewrite append_nil_l in E || rewrite append_cons in E).
        -- injection E as -> _. done.
        -- injection E as <- ->. simpl in Hi. rewrite Ec in Hi.
           rewrite (proj2 (IH i)); [done|]. by split.
Qed.

Lemma has_colon_joined i m : has_colon (i ++ ":" ++ m) = true.
Proof.
  induction i as [|c i IH]; [done|].
  rewrite append_cons. simpl. rewrite IH. apply orb_true_r.
Qed.

Lemma parse_pairs_loop_ok (l : list string) ps :
  parse_pairs_loop l = Ok ps →
  Forall2 (λ p j, ∃ i m, p = i ++ ":" ++ m ∧ has_colon i = false ∧ j = pair_json i m) l ps.
Proof.
  revert ps. induction l as [|p l IH]; intros ps; simpl.
  - intros [= <-]. constructor.
  - destruct (split_colon p) as [[i m]|] eqn:Ep; [|done].
    destruct (parse_pairs_loop l) as [out| |]; [|done..]. simpl.
    intros [= <-]. constructor; [|by apply IH].
    apply split_colon_some in Ep as [-> Hi]. eauto.
Qed.

Lemma parse_pairs_unfold pairs : _parse_pairs pairs = parse_pairs_loop (default [] pairs).
Proof. by destruct pairs as [[|p l]|]. Qed.

Lemma parse_pairs_ok pairs ps :
  _parse_pairs pairs = Ok ps →
  Forall2 (λ p j, ∃ i m, p = i ++ ":" ++ m ∧ has_colon i = false ∧ j = pair_json i m)
          (default [] pairs) ps.
Proof. rewrite parse_pairs_unfold. apply parse_pairs_loop_ok. Qed.

(** X16: Pairs are split at the first colon.  Each argument that
    [_parse_pairs] accepts becomes, in order, the object whose [id] is the
    text before its first colon and whose [model] is all the text after it:
    the [id] never holds a colon.  An [id] without a colon and a model are
    read back from [id:model]. *)
Theorem parse_pairs_first_colon :
  (∀ pairs ps, _parse_pairs pairs = Ok ps →
     Forall2 (λ p j, ∃ i m, p = i ++ ":" ++ m ∧ has_colon i = false ∧ j = pair_json i m)
             (default [] pairs) ps)
  ∧ (∀ i m, has_colon i = false →
       _parse_pairs (Some [i ++ ":" ++ m]) = Ok [pair_json i m]).
Proof.
  split.
  - apply parse_pairs_ok.
  - intros i m Hi. simpl.
    assert (split_colon (i ++ ":" ++ m) = Some (i, m)) as -> by by apply split_colon_some.
    done.
Qed.

(** X17: The error of [_parse_pairs].  The first argument without a colon
    makes [_parse_pairs] fail with [InvalidPair] naming it; when every
    argument has a colon it returns one object per argument. *)
Theorem parse_pairs_invalid (pairs : option (list string)) :
  (∀ pre p post,
     default [] pairs = (pre ++ p :: post)%list →
     Forall (λ q, has_colon q = true) pre → has_colon p = false →
     _parse_pairs pairs = Raise (InvalidPair p))
  ∧ (Forall (λ q, has_colon q = true) (default [] pairs) →
     ∃ ps, _parse_pairs pairs = Ok ps ∧ length ps = length (default [] pairs)).
Proof.
  rewrite parse_pairs_unfold. split.
  - intros pre p post -> Hpre Hp.
    induction Hpre as [|q pre Hq _ IH]; simpl.
    + apply split_colon_none in Hp. by rewrite Hp.
    + destruct (split_colon q) as [[i m]|] eqn:Eq.
      * by rewrite IH.
      * apply split_colon_none in Eq. congruence.
  - induction 1 as [|q l Hq _ (ps & Eps & Hlen)]; simpl; [by exists []|].
    rewrite Eps. destruct (split_colon q) as [[i m]|] eqn:Eq.
    + eexists. split; [done|]. simpl. by rewrite Hlen.
    + apply split_colon_none in Eq. congruence.
Qed.

Lemma member_text_pair i m : member_text (pair_json i m) = Some (i ++ ":" ++ m).
Proof. reflexivity. Qed.

Lemma pair_json_inj i m i' m' : pair_json i m = pair_json i' m' → i = i' ∧ m = m'.
Proof.
  intros E.
  assert (id_model (pair_json i m) = Some (JStr i, JStr m)) as E1 by reflexivity.
  assert (id_model (pair_json i' m') = Some (JStr i', JStr m')) as E2 by reflexivity.
  rewrite E, E2 in E1. by injection E1 as -> ->.
Qed.

(** X18: The text shown for an inline member.  [groups show] displays an
    inline member as [id:model].  Given as a pair to [groups
    remove-members], that text always selects the member.  Given as a pair
    to [groups add-members], it is read back as the member when the [id]
    has no colon, and as a different object when it has one. *)
Theorem shown_pair_read_back (e : ent) :
  let text := ent_id e ++ ":" ++ ent_model e in
  member_text (member_json (InlineRef e)) = Some text
  ∧ (∀ names, stays names [text] (member_json (InlineRef e)) = false)
  ∧ (has_colon (ent_id e) = false →
     _parse_pairs (Some [text]) = Ok [member_json (InlineRef e)])
  ∧ (has_colon (ent_id e) = true →
     ∃ j, _parse_pairs (Some [text]) = Ok [j] ∧ j ≠ member_json (InlineRef e)).
Proof.
  destruct e as [i m]. simpl. split; [done|]. split; [|split].
  - intros names. rewrite bool_decide_eq_true_2; [done|]. apply list_elem_of_singleton. done.
  - intros Hi.
    assert (split_colon (i ++ ":" ++ m) = Some (i, m)) as -> by by apply split_colon_some.
    done.
  - intros Hi. destruct (split_colon (i ++ ":" ++ m)) as [[i' m']|] eqn:Es.
    + eexists. split; [done|]. apply split_colon_some in Es as [_ Hi'].
      intros [-> _]%(pair_json_inj i' m' i m). congruence.
    + apply split_colon_none in Es.
      pose proof (has_colon_joined i m). congruence.
Qed.

Lemma filter_stays_names names pairs (ns : list string) :
  Forall (λ n, n ∈ names) ns → List.filter (stays names pairs) (JStr <$> ns) = [].
Proof.
  induction 1 as [|n ns Hn _ IH]; [done|].
  rewrite fmap_cons. simpl. by rewrite bool_decide_eq_true_2.
Qed.

Lemma filter_stays_pairs names pairs (l : list string) ps :
  Forall2 (λ p j, ∃ i m, p = i ++ ":" ++ m ∧ has_colon i = false ∧ j = pair_json i m) l ps →
  Forall (λ p, p ∈ pairs) l →
  List.filter (stays names pairs) ps = [].
Proof.
  induction 1 as [|p j l ps (i & m & -> & _ & ->) _ IH]; [done|].
  intros [Hp Hl]%Forall_cons. simpl.
  rewrite bool_decide_eq_true_2 by done. simpl. by apply IH.
Qed.

(** X19: Removing members.  For a group that is a list and at least one
    name or pair given, [groups remove-members] succeeds; afterwards the
    nicknames and the other groups are as before and the group is its old
    list, in order, without the strings that are among the names and the
    objects whose [id:model] text is among the pairs; members of any other
    shape are kept. *)
Theorem remove_members_filters (g : string) names pairs (w : world) devmap gs ms :
  load_config_devices w = (Ok devmap, w) →
  load_config_groups w = (Ok gs, w) →
  gs !! g = Some (JArr ms) →
  default [] names ≠ [] ∨ default [] pairs ≠ [] →
  ∃ w', groups_remove_members g names pairs w = (Ok Removed, w')
        ∧ load_config_devices w' = (Ok devmap, w')
        ∧ load_config_groups w'
          = (Ok (<[g := JArr (List.filter (stays (default [] names) (default [] pairs)) ms)]> gs),
             w')
        ∧ (∀ s, stays (default [] names) (default [] pairs) (JStr s) = false
                ↔ s ∈ default [] names)
        ∧ (∀ o, stays (default [] names) (default [] pairs) (JObj o) = false
                ↔ py_str (default JNull (o !! "id")) ++ ":"
                  ++ py_str (default JNull (o !! "model")) ∈ default [] pairs)
        ∧ (∀ m, (∀ s, m ≠ JStr s) → (∀ o, m ≠ JObj o) →
                stays (default [] names) (default [] pairs) m = true).
Proof.
  intros Hd Hg Hms Hne.
  pose proof (load_devices_no_reserved _ _ _ Hd) as Hres.
  rewrite (groups_remove_members_run _ _ _ _ _ _ Hd Hg), Hms. cbn [py_iter].
  set (w1 := saved w devmap _ _).
  assert (match default [] names, default [] pairs with
          | [], [] => (Ok NoMembersToRemove, w)
          | _, _ => (Ok Removed, w1)
          end = (Ok Removed, w1)) as ->.
  { clearbody w1. destruct (default [] names), (default [] pairs); [by destruct Hne|done..]. }
  exists w1. split; [done|]. subst w1.
  destruct (load_saved w devmap
              (<[g := JArr (List.filter (stays (default [] names) (default [] pairs)) ms)]> gs)
              [Text ("Removed members from '" ++ g ++ "'.")] Hres) as [Hd' Hg'].
  split; [exact Hd'|]. split; [exact Hg'|]. split; [|split].
  - intros s. simpl. by rewrite negb_false_iff, bool_decide_eq_true.
  - intros o. simpl. by rewrite negb_false_iff, bool_decide_eq_true.
  - intros m Hs Ho. destruct m; try done; [by destruct (Hs s)|by destruct (Ho d)].
Qed.

(** X20: Removing what was added.  After a successful [groups add-members]
    with some names and pairs, [groups remove-members] with the same names
    and pairs leaves the group as its list before the addition without the
    members these names and pairs select; when they select none of the old
    members, the registry loads as before the addition. *)
Theorem remove_members_undoes_add (g : string) names pairs (w : world) devmap gs ms ps :
  load_config_devices w = (Ok devmap, w) →
  load_config_groups w = (Ok gs, w) →
  gs !! g = Some (JArr ms) →
  _parse_pairs pairs = Ok ps →
  default [] names ≠ [] ∨ ps ≠ [] →
  Forall (λ n, is_Some (devmap !! n)) (default [] names) →
  let w' := invoke (GroupsRemoveMembers g names pairs)
              (invoke (GroupsAddMembers g names pairs) w) in
  load_config_devices w' = (Ok devmap, w')
  ∧ load_config_groups w'
    = (Ok (<[g := JArr (List.filter (stays (default [] names) (default [] pairs)) ms)]> gs), w')
  ∧ (Forall (λ m, stays (default [] names) (default [] pairs) m = true) ms →
     load_config_groups w' = (Ok gs, w')).
Proof.
  intros Hd Hg Hms Hp Hne Hall. simpl.
  pose proof (load_devices_no_reserved _ _ _ Hd) as Hres.
  pose proof (parse_pairs_ok _ _ Hp) as Hps.
  set (ns := default [] names) in *. set (prs := default [] pairs) in *.
  rewrite (groups_add_members_run _ _ _ _ _ _ Hd Hg), Hms, Hp.
  fold ns. rewrite (validate_names_known _ _ Hall).
  assert (match ns, ps with
          | [], [] => (Raise NoMembersGiven, w)
          | _, _ =>
              (Ok (), saved w devmap (<[g := JArr (ms ++ (JStr <$> ns) ++ ps)]> gs)
                        [Text ("Added members to '" ++ g ++ "'.")])
          end
          = (Ok (), saved w devmap (<[g := JArr (ms ++ (JStr <$> ns) ++ ps)]> gs)
                      [Text ("Added members to '" ++ g ++ "'.")])) as ->.
  { destruct ns, ps; [by destruct Hne|done..]. }
  simpl.
  destruct (load_saved w devmap (<[g := JArr (ms ++ (JStr <$> ns) ++ ps)]> gs)
              [Text ("Added members to '" ++ g ++ "'.")] Hres) as [Hd1 Hg1].
  rewrite (groups_remove_members_run _ _ _ _ _ _ Hd1 Hg1), lookup_insert_eq.
  fold ns prs. cbn [py_iter].
  assert (ns ≠ [] ∨ prs ≠ []) as Hne'.
  { destruct Hne as [?|Hne]; [by left|right].
    apply Forall2_length in Hps. intros E. rewrite E in Hps. by destruct ps. }
  assert (List.filter (stays ns prs) (ms ++ (JStr <$> ns) ++ ps)
          = List.filter (stays ns prs) ms) as ->.
  { rewrite !List.filter_app, filter_stays_names, (filter_stays_pairs _ _ prs ps).
    - by rewrite !app_nil_r.
    - done.
    - by apply Forall_forall.
    - by apply Forall_forall. }
  rewrite insert_insert_eq.
  set (w2 := saved _ devmap (<[g := JArr (List.filter (stays ns prs) ms)]> gs) _).
  assert (match ns, prs with
          | [], [] => (Ok NoMembersToRemove,
                       saved w devmap (<[g := JArr (ms ++ (JStr <$> ns) ++ ps)]> gs)
                         [Text ("Added members to '" ++ g ++ "'.")])
          | _, _ => (Ok Removed, w2)
          end = (Ok Removed, w2)) as ->.
  { clearbody w2. destruct ns, prs; [by destruct Hne'|done..]. }
  simpl. subst w2.
  destruct (load_saved (saved w devmap (<[g := JArr (ms ++ (JStr <$> ns) ++ ps)]> gs)
                          [Text ("Added members to '" ++ g ++ "'.")])
              devmap (<[g := JArr (List.filter (stays ns prs) ms)]> gs)
              [Text ("Removed members from '" ++ g ++ "'.")] Hres) as [Hd2 Hg2].
  split; [exact Hd2|]. split; [exact Hg2|].
  intros Hstay. rewrite Hg2. do 2 f_equal.
  assert (List.filter (stays ns prs) ms = ms) as ->.
  { clear -Hstay. induction Hstay as [|m ms Hm _ IH]; [done|]. simpl. by rewrite Hm, IH. }
  by apply insert_id.
Qed.

End MemberFacts.

Lemma parse_pairs_first_colon_witness :
  _parse_pairs (Some ["x" ++ ":" ++ "H1:v2"]) = Ok [pair_json "x" "H1:v2"].
Proof. apply (proj2 parse_pairs_first_colon "x" "H1:v2"). reflexivity. Defined.

Lemma parse_pairs_invalid_witness :
  _parse_pairs (Some ["x:H1"; "nocolon"; "y:H2"]) = Raise (InvalidPair "nocolon").
Proof.
  apply (proj1 (parse_pairs_invalid (Some ["x:H1"; "nocolon"; "y:H2"]))
           ["x:H1"] "nocolon" ["y:H2"]).
  - reflexivity.
  - constructor; [reflexivity|constructor].
  - reflexivity.
Defined.

(** A device id written with colons is shown whole and read back cut. *)
Lemma shown_pair_read_back_witness :
  ∃ j, _parse_pairs (Some ["aa:bb" ++ ":" ++ "H6008"]) = Ok [j]
       ∧ j ≠ member_json (InlineRef (Ent "aa:bb" "H6008")).
Proof.
  destruct (@shown_pair_read_back demo_host (Ent "aa:bb" "H6008")) as (_ & _ & _ & Hcut).
  apply Hcut. reflexivity.
Defined.

Lemma remove_members_filters_witness :
  ∃ w', groups_remove_members "room" (Some ["lamp"]) None
          (demo_world (room_file [JStr "lamp"; inline_x; JNum 7; JStr "lamp"]) [])
        = (Ok Removed, w')
        ∧ load_config_devices w' = (Ok lamp_devmap, w')
        ∧ load_config_groups w' = (Ok (<["room" := JArr [inline_x; JNum 7]]> ∅), w').
Proof.
  destruct (remove_members_filters "room" (Some ["lamp"]) None
              (demo_world (room_file [JStr "lamp"; inline_x; JNum 7; JStr "lamp"]) [])
              lamp_devmap (<["room" := JArr [JStr "lamp"; inline_x; JNum 7; JStr "lamp"]]> ∅)
              [JStr "lamp"; inline_x; JNum 7; JStr "lamp"])
    as (w' & Hrun & Hd & Hg & _).
  - apply room_file_devices.
  - apply room_file_groups.
  - vm_compute; reflexivity.
  - left. discriminate.
  - exists w'. split; [exact Hrun|]. split; [exact Hd|].
    rewrite Hg. reflexivity.
Defined.

Lemma remove_members_undoes_add_witness :
  let w' := invoke (GroupsRemoveMembers "room" (Some ["lamp"]) (Some ["x:H1"]))
              (invoke (GroupsAddMembers "room" (Some ["lamp"]) (Some ["x:H1"]))
                 (demo_world (room_file [JNum 7]) [])) in
  load_config_groups w' = (Ok (<["room" := JArr [JNum 7]]> ∅), w').
Proof.
  destruct (remove_members_undoes_add "room" (Some ["lamp"]) (Some ["x:H1"])
              (demo_world (room_file [JNum 7]) [])
              lamp_devmap (<["room" := JArr [JNum 7]]> ∅) [JNum 7] [inline_x])
    as (_ & _ & Hsame).
  - apply room_file_devices.
  - apply room_file_groups.
  - vm_compute; reflexivity.
  - vm_compute; reflexivity.
  - left. discriminate.
  - constructor; [|constructor]. exists (Ent "dev1" "H6008"). vm_compute; reflexivity.
  - apply Hsame. constructor; [reflexivity|constructor].
Defined.


(** ** Listing and control commands *)

Section CommandFacts.
Context `{Host}.

Lemma printed_nil (w : world) : printed w [] = w.
Proof. destruct w. unfold printed. simpl. by rewrite app_nil_r. Qed.

Lemma printed_printed (w : world) a b : printed (printed w a) b = printed w (a ++ b).
Proof. unfold printed. simpl. by rewrite app_assoc. Qed.

Lemma print_all_run (ls : list line) (w : world) : print_all ls w = (Ok (), printed w ls).
Proof.
  revert w. induction ls as [|l ls IH]; intros w; simpl.
  - by rewrite printed_nil.
  - rewrite bind_run. unfold print at 1.
    change (World (config w) (stdout w ++ [l]) (service w) (api_log w)) with (printed w [l]).
    by rewrite IH, printed_printed.
Qed.

Lemma only_printed_printed (w : world) said : only_printed w (printed w said).
Proof. done. Qed.

Lemma respects_groups_list_loop items : respects only_printed (groups_list_loop items).
Proof.
  induction items as [|[g members] items IH]; simpl.
  - by apply respects_ret.
  - apply respects_bind; [apply _|by apply respects_lift|]. intros l.
    apply respects_bind; [apply _|apply respects_print|]. by intros _.
Qed.

Lemma groups_list_loop_no_raise items (w : world) e w' :
  groups_list_loop items w ≠ (Raise e, w').
Proof.
  revert w. induction items as [|[g members] items IH]; intros w; simpl; [done|].
  rewrite bind_run. unfold lift at 1.
  destruct (py_iter members) as [l| |] eqn:El; [|by destruct members|done].
  rewrite bind_run. unfold print at 1. apply IH.
Qed.

#[local] Instance key_le_total {A} : Total (@key_le A).
Proof. intros [a x] [b y]. unfold key_le. simpl. apply String.leb_total. Qed.

(** X21: The listing commands only print.  [names list], [groups list] and
    [groups show] leave the configuration file and the vendor service as
    they are and call no API; the only error they raise is [ConfigCorrupt]:
    an unknown group is reported by [groups show] without an error. *)
Theorem listing_commands_only_print (w : world) :
  (∀ r w', names_list w = (r, w') →
     only_printed w w' ∧ ∀ e, r = Raise e → kind e = ConfigCorrupt)
  ∧ (∀ r w', groups_list w = (r, w') →
     only_printed w w' ∧ ∀ e, r = Raise e → kind e = ConfigCorrupt)
  ∧ (∀ g r w', groups_show g w = (r, w') →
     only_printed w w' ∧ ∀ e, r = Raise e → kind e = ConfigCorrupt).
Proof.
  split; [|split].
  - intros r w' E. split.
    + revert E. apply (respects_bind only_printed).
      * eapply respects_weaken; [apply eq_only_printed|apply respects_load_devices].
      * intros devmap. case_bool_decide; [apply respects_print|].
        intros w1 r1 w1'. rewrite print_all_run. by intros [= _ <-].
    + intros e ->. unfold names_list in E.
      apply bind_inv_raise in E as [E|(devmap & w1 & _ & E)].
      * by eapply load_devices_raise.
      * case_bool_decide; [done|]. by rewrite print_all_run in E.
  - intros r w' E. split.
    + revert E. apply (respects_bind only_printed).
      * eapply respects_weaken; [apply eq_only_printed|apply respects_load_groups].
      * intros gs. case_bool_decide; [apply respects_print|].
        apply respects_groups_list_loop.
    + intros e ->. unfold groups_list in E.
      apply bind_inv_raise in E as [E|(gs & w1 & _ & E)].
      * by eapply load_groups_raise.
      * case_bool_decide; [done|]. by apply groups_list_loop_no_raise in E.
  - intros g r w' E. split.
    + revert E. apply (respects_bind only_printed).
      * eapply respects_weaken; [apply eq_only_printed|apply respects_load_groups].
      * intros gs.
        assert (∀ members, respects only_printed
                  (l ← lift (py_iter members); print (group_line g l))) as Hshow.
        { intros members. apply respects_bind; [apply _|by apply respects_lift|].
          intros l. apply respects_print. }
        destruct (gs !! g) as [members|]; [|apply respects_print].
        destruct members; try apply Hshow. apply respects_print.
    + intros e ->. unfold groups_show in E.
      apply bind_inv_raise in E as [E|(gs & w1 & _ & E)].
      * by eapply load_groups_raise.
      * assert (∀ members, (l ← lift (py_iter members); print (group_line g l)) w1
                           ≠ (Raise e, w')) as Hshow.
        { intros members. rewrite bind_run. unfold lift at 1.
          by destruct members. }
        destruct (gs !! g) as [members|]; [|done].
        destruct members; try (by apply Hshow in E). done.
Qed.

(** X22: [names list] prints the nicknames in order.  With no nickname it
    prints one line saying so; otherwise it prints exactly one line per
    nickname, with its [id] and [model], by increasing nickname. *)
Theorem names_list_sorted (w : world) devmap :
  load_config_devices w = (Ok devmap, w) →
  (devmap = ∅ →
   ∃ hint, names_list w = (Ok (), printed w [Text hint]))
  ∧ (devmap ≠ ∅ →
     ∃ items, names_list w = (Ok (), printed w (nickname_line <$> items))
              ∧ items ≡ₚ map_to_list devmap
              ∧ Sorted key_le items).
Proof.
  intros Hd. unfold names_list. rewrite (bind_ok _ _ _ _ _ Hd). split.
  - intros ->. rewrite map_size_empty. eexists. reflexivity.
  - intros Hne. rewrite bool_decide_eq_false_2 by by rewrite map_size_empty_iff.
    exists (sorted_items devmap). split; [|split].
    + rewrite print_all_run. do 2 f_equal.
      apply list_fmap_ext. by intros i [n e].
    + apply merge_sort_Permutation.
    + apply (Sorted_merge_sort key_le).
Qed.

Lemma member_texts (ms : list member) :
  omap member_text (member_json <$> ms) = member_show <$> ms.
Proof.
  induction ms as [|m ms IH]; [done|]. rewrite !fmap_cons.
  change (omap member_text (member_json m :: (member_json <$> ms)))
    with (match member_text (member_json m) with
          | Some y => y :: omap member_text (member_json <$> ms)
          | None => omap member_text (member_json <$> ms)
          end).
  rewrite IH. by destruct m as [n|[i mo]].
Qed.

(** X23: What [groups show] prints.  For a group of nicknames and inline
    devices it prints one line, the name of the group and its members in
    order, a nickname as it is and an inline device as [id:model]; for a
    group that does not exist it prints that it was not found, and returns
    without an error. *)
Theorem groups_show_text (g : string) (w : world) gs :
  load_config_groups w = (Ok gs, w) →
  (gs !! g = None →
   groups_show g w = (Ok (), printed w [Text ("Group '" ++ g ++ "' not found.")]))
  ∧ (∀ ms : list member,
       gs !! g = Some (JArr (member_json <$> ms)) →
       groups_show g w
       = (Ok (), printed w [Text (g ++ ": [" ++ String.concat ", " (member_show <$> ms)
                                    ++ "]")])).
Proof.
  intros Hg. unfold groups_show. rewrite (bind_ok _ _ _ _ _ Hg). split.
  - by intros ->.
  - intros ms ->. rewrite bind_run. unfold lift. simpl.
    unfold group_line. by rewrite member_texts.
Qed.







(** X29: Dispatch when every call is answered.  When the vendor API answers
    the control request of every target, by a response or by a failure that
    [api_request] raises as a [GoveeError], [_apply_to_targets] returns: it
    has called the control API exactly once per target, in target order,
    and printed exactly one line per target, in target order, the result
    line for a response and the error line for a failure, after which it
    went on with the next target. *)
Theorem dispatch_answered_targets (targets : list target) cmd (w : world) replies s' :
  answers (service w) (control_request cmd <$> targets) replies s' →
  _apply_to_targets targets cmd w
  = (Ok (), World (config w) (stdout w ++ zip_with report targets replies) s'
                  (api_log w ++ (control_request cmd <$> targets)))
  ∧ length (zip_with report targets replies) = length targets
  ∧ length replies = length targets.
Proof.
  intros Hans. destruct (apply_to_targets_answered _ _ _ _ _ Hans) as [Hrun Hlen].
  split; [done|]. split; [|done].
  rewrite length_zip_with. lia.
Qed.

End CommandFacts.

Lemma listing_commands_only_print_witness :
  only_printed (demo_world (room_file [JStr "lamp"]) [])
               (groups_show "hall" (demo_world (room_file [JStr "lamp"]) [])).2
  ∧ ∀ e, Ok () = Raise e → kind e = ConfigCorrupt.
Proof.
  destruct (listing_commands_only_print (demo_world (room_file [JStr "lamp"]) []))
    as (_ & _ & Hshow).
  apply (Hshow "hall" (Ok ())). vm_compute; reflexivity.
Defined.

Lemma names_list_sorted_witness :
  ∃ items,
    names_list (demo_world (room_file []) [])
    = (Ok (), printed (demo_world (room_file []) []) (nickname_line <$> items))
    ∧ items ≡ₚ map_to_list lamp_devmap
    ∧ Sorted key_le items.
Proof.
  destruct (names_list_sorted (demo_world (room_file []) []) lamp_devmap) as (_ & Hsome).
  - apply room_file_devices.
  - apply Hsome. intros E. apply (f_equal (lookup "lamp")) in E.
    vm_compute in E. discriminate.
Defined.

Lemma groups_show_text_witness :
  groups_show "room"
    (demo_world (room_file (member_json <$> [NicknameRef "lamp"; InlineRef (Ent "x" "H1")])) [])
  = (Ok (),
     printed (demo_world
                (room_file (member_json <$> [NicknameRef "lamp"; InlineRef (Ent "x" "H1")])) [])
       [Text ("room" ++ ": ["
              ++ String.concat ", " (member_show <$> [NicknameRef "lamp"; InlineRef (Ent "x" "H1")])
              ++ "]")]).
Proof.
  destruct (groups_show_text "room"
              (demo_world
                 (room_file (member_json <$> [NicknameRef "lamp"; InlineRef (Ent "x" "H1")])) [])
              (<["room" := JArr (member_json <$> [NicknameRef "lamp"; InlineRef (Ent "x" "H1")])]> ∅))
    as (_ & Hsome).
  - apply room_file_groups.
  - apply Hsome. vm_compute; reflexivity.
Defined.

(** Brightness 150 for an explicit device is sent as 100. *)
Example brightness_150 :
  cmd_brightness None (Some "a") (Some "H6008") None 150 (demo_world Missing [inl JNull])
  = (Ok (),
     @World demo_host Missing [result_line (JStr "a") (JStr "H6008") JNull] []
       [control_request (command_json "brightness" (JNum 100)) (JStr "a", JStr "H6008")]).
Proof. vm_compute; reflexivity. Qed.

(** The same command when the response stalls while it is read: the
    command ends in [TimeoutError] and prints nothing. *)
Example brightness_timeout :
  cmd_brightness None (Some "a") (Some "H6008") None 150
    (demo_world Missing [inr (Escaped TimeoutError)])
  = (Uncaught TimeoutError,
     @World demo_host Missing [] []
       [control_request (command_json "brightness" (JNum 100)) (JStr "a", JStr "H6008")]).
Proof. vm_compute; reflexivity. Qed.

(** Three targets, the vendor answering the second with an HTTP error. *)
Lemma dispatch_answered_targets_witness :
  let replies := [inl (JStr "ok1"); inr "HTTP 500: down"; inl (JStr "ok3")] in
  _apply_to_targets three_targets turn_on
    (demo_world Missing
       [inl (JStr "ok1"); inr (Reported "HTTP 500: down"); inl (JStr "ok3")])
  = (Ok (),
     @World demo_host Missing (zip_with (@report demo_host) three_targets replies) []
       (control_request turn_on <$> three_targets))
  ∧ length (zip_with (@report demo_host) three_targets replies) = length three_targets
  ∧ length replies = length three_targets.
Proof.
  apply (dispatch_answered_targets three_targets turn_on
           (demo_world Missing
              [inl (JStr "ok1"); inr (Reported "HTTP 500: down"); inl (JStr "ok3")])
           [inl (JStr "ok1"); inr "HTTP 500: down"; inl (JStr "ok3")] []).
  apply (@answers_reply demo_host _ _ (JStr "ok1")
           [inr (Reported "HTTP 500: down"); inl (JStr "ok3")]); [reflexivity|].
  apply (@answers_error demo_host _ _ "HTTP 500: down" [inl (JStr "ok3")]); [reflexivity|].
  apply (@answers_reply demo_host _ _ (JStr "ok3") []); [reflexivity|].
  apply (@answers_nil demo_host).
Defined.





(** ** The registry the commands maintain *)

Section SoundFacts.
Context `{Host}.

Lemma sound_printed (w : world) said : sound w → sound (printed w said).
Proof.
  intros (devmap & gs & Hd & Hg & Hall). exists devmap, gs.
  split; [exact (load_devices_same_config w (printed w _) _ eq_refl Hd)|].
  split; [exact (load_groups_same_config w (printed w _) _ eq_refl Hg)|]. done.
Qed.

Lemma sound_saved (w : world) devmap gs said :
  devmap !! GROUPS_KEY = None →
  (∀ g v, gs !! g = Some v → ∃ ms, v = JArr ms ∧ Forall (λ m, ∃ t, member_target devmap m t) ms) →
  sound (saved w devmap gs said).
Proof.
  intros Hres Hall. exists devmap, gs.
  destruct (load_saved w devmap gs said Hres) as [Hd Hg]. done.
Qed.

Lemma resolvable_insert devmap n e m :
  (∃ t, member_target devmap m t) → ∃ t, member_target (<[n := e]> devmap) m t.
Proof.
  intros [t [k e' Hk|o i mo Hi Hmo]].
  - destruct (decide (k = n)) as [->|Hne].
    + eexists. apply (nickname_target _ n e). apply lookup_insert_eq.
    + eexists. apply (nickname_target _ k e'). by rewrite lookup_insert_ne.
  - eexists. by apply inline_target.
Qed.

Lemma resolvable_delete devmap n m :
  keeps n m = true →
  (∃ t, member_target devmap m t) → ∃ t, member_target (delete n devmap) m t.
Proof.
  intros Hkeep [t Ht]. revert Hkeep.
  destruct Ht as [k e' Hk|o i mo Hi Hmo]; intros Hkeep.
  - eexists. apply (nickname_target _ k e'). rewrite lookup_delete_ne; [done|].
    intros ->. by rewrite (proj2 (keeps_false_iff k (JStr k)) eq_refl) in Hkeep.
  - eexists. by apply inline_target.
Qed.

Lemma validate_names_inv devmap (names : list string) u :
  validate_names devmap names = Ok u → Forall (λ n, is_Some (devmap !! n)) names.
Proof.
  induction names as [|n names IH]; simpl; [constructor|].
  destruct (devmap !! n) as [e|] eqn:En; [|done].
  intros E. constructor; [by eexists|by apply IH].
Qed.

Lemma Forall_filter_bool {A} (P : A → Prop) (f : A → bool) (l : list A) :
  Forall P l → Forall P (List.filter f l).
Proof.
  induction 1 as [|x l Hx _ IH]; simpl; [constructor|].
  destruct (f x); [by constructor|done].
Qed.

(** One run of a registry command keeps the registry resolvable. *)
Lemma invoke_sound (c : command) (w : world) :
  sound w → sound (invoke c w).
Proof.
  intros Hs. pose proof Hs as (devmap & gs & Hd & Hg & Hall).
  pose proof (load_devices_no_reserved _ _ _ Hd) as Hres.
  destruct c as [n d m|n|g|g|g names pairs|g names pairs]; simpl.
  - rewrite (names_add_run _ _ _ _ _ _ Hd Hg). simpl.
    destruct (decide (n = GROUPS_KEY)) as [->|Hn].
    + exists devmap, gs. split; [|split; [|done]].
      * erewrite load_devices_payload by reflexivity.
        by rewrite delete_insert_eq, delete_id.
      * by eapply load_groups_payload.
    + apply sound_saved; [by rewrite lookup_insert_ne|].
      intros k v Hk. destruct (Hall _ _ Hk) as (ms & -> & Hms).
      exists ms. split; [done|].
      eapply Forall_impl; [done|]. intros x. apply resolvable_insert.
  - rewrite (names_remove_run _ _ _ _ Hd Hg).
    destruct (devmap !! n) as [e|] eqn:En; [|by apply sound_printed].
    rewrite prune_groups_sequences.
    2:{ intros k v Hk. by destruct (Hall _ _ Hk) as (ms & -> & _). }
    simpl. apply sound_saved.
    + rewrite lookup_delete_ne; [done|]. intros ->. congruence.
    + intros k v. rewrite lookup_fmap.
      destruct (gs !! k) as [v0|] eqn:Hk; [|done]. simpl. intros [= <-].
      destruct (Hall _ _ Hk) as (ms & -> & Hms). simpl.
      eexists. split; [done|]. clear Hk.
      induction Hms as [|x ms Hx _ IH]; simpl; [constructor|].
      destruct (keeps n x) eqn:Ekeep; [|done].
      constructor; [by apply resolvable_delete|done].
  - rewrite (groups_add_run _ _ _ _ Hd Hg).
    destruct (gs !! g) as [v|] eqn:Eg; simpl; [by apply sound_printed|].
    apply sound_saved; [done|]. intros k v1.
    destruct (decide (k = g)) as [->|Hne].
    + rewrite lookup_insert_eq. intros [= <-]. by exists [].
    + rewrite lookup_insert_ne by done. apply Hall.
  - rewrite (groups_remove_run _ _ _ _ Hd Hg).
    destruct (gs !! g) as [v|] eqn:Eg; simpl; [|by apply sound_printed].
    apply sound_saved; [done|]. intros k v1 Hk.
    apply lookup_delete_Some in Hk as [_ Hk]. by eapply Hall.
  - rewrite (groups_add_members_run _ _ _ _ _ _ Hd Hg).
    destruct (gs !! g) as [members|] eqn:Eg; [|done].
    destruct (_parse_pairs pairs) as [ps| |] eqn:Ep; [|done..].
    assert (sound
              (match validate_names devmap (default [] names) with
               | Ok _ =>
                   match members with
                   | JArr ms =>
                       (Ok (), saved w devmap
                                 (<[g := JArr (ms ++ (JStr <$> default [] names) ++ ps)]> gs)
                                 [Text ("Added members to '" ++ g ++ "'.")])
                   | _ => (Uncaught AttributeError, w)
                   end
               | Raise e => (Raise e, w)
               | Uncaught x => (Uncaught x, w)
               end).2) as Hrest.
    { destruct (validate_names devmap (default [] names)) as [u| |] eqn:Ev; [|done..].
      destruct (Hall _ _ Eg) as (ms & -> & Hms). simpl.
      apply sound_saved; [done|]. intros k v.
      destruct (decide (k = g)) as [->|Hne]; [|rewrite lookup_insert_ne by done; apply Hall].
      rewrite lookup_insert_eq. intros [= <-]. eexists. split; [done|].
      apply Forall_app. split; [done|]. apply Forall_app. split.
      - apply validate_names_inv in Ev. apply Forall_fmap.
        eapply Forall_impl; [done|]. intros n [e He]. simpl.
        eexists. by apply (nickname_target _ n e).
      - apply parse_pairs_ok in Ep. clear -Ep.
        induction Ep as [|p j l ps' (i & m & _ & _ & ->) _ IH]; constructor; [|done].
        eexists. by apply (inline_target devmap _ (JStr i) (JStr m)). }
    destruct (default [] names), ps; done.
  - rewrite (groups_remove_members_run _ _ _ _ _ _ Hd Hg).
    destruct (gs !! g) as [members|] eqn:Eg; [|done].
    destruct (Hall _ _ Eg) as (ms & -> & Hms). cbn [py_iter].
    assert (sound (saved w devmap
                     (<[g := JArr (List.filter (stays (default [] names) (default [] pairs)) ms)]> gs)
                     [Text ("Removed members from '" ++ g ++ "'.")])) as Hrest.
    { apply sound_saved; [done|]. intros k v.
      destruct (decide (k = g)) as [->|Hne]; [|rewrite lookup_insert_ne by done; apply Hall].
      rewrite lookup_insert_eq. intros [= <-]. eexists. split; [done|].
      by apply Forall_filter_bool. }
    destruct (default [] names), (default [] pairs); done.
Qed.

Lemma resolvable_targets devmap ms :
  Forall (λ m, ∃ t, member_target devmap m t) ms → ∃ ts, Forall2 (member_target devmap) ms ts.
Proof.
  induction 1 as [|m ms [t Ht] _ (ts & Hts)]; [by exists []|].
  exists (t :: ts). by constructor.
Qed.

Lemma resolve_group_run (g : string) name device model (w : world) devmap gs :
  g ≠ "" → truthy name = false →
  load_config_devices w = (Ok devmap, w) →
  load_config_groups w = (Ok gs, w) →
  resolve_targets name device model (Some g) w
  = match gs !! g with
    | None | Some JNull => (Raise (GroupNotFound g), w)
    | Some members =>
        (l ← lift (py_iter members);
         resolved ← lift (resolve_members devmap g l);
         match resolved with
         | [] => raise (EmptyGroup g)
         | _ => mret resolved
         end) w
    end.
Proof.
  intros Hg Hn Hd Hgs. unfold resolve_targets. rewrite Hn.
  cbn [truthy fmap list_fmap sum_list Nat.b2n negb].
  rewrite (bool_decide_eq_false_2 (g = "")) by done. simpl.
  rewrite (bind_ok _ _ _ _ _ Hd), (bind_ok _ _ _ _ _ Hgs).
  destruct (gs !! g) as [members|]; [|done]. by destruct members.
Qed.

(** X27: The commands keep the registry resolvable.  A world without a
    configuration file is a resolvable registry: the file loads and every
    group is a list whose members are bound nicknames or objects with [id]
    and [model].  From a resolvable registry, any sequence of registry
    commands, each succeeding or failing, leaves a resolvable registry. *)
Theorem commands_keep_registry_sound (cs : list command) (w : world) :
  config w = Missing ∨ sound w → sound (invoke_all cs w).
Proof.
  intros Hstart.
  assert (sound w) as Hs.
  { destruct Hstart as [Hmissing|Hs]; [|done].
    exists ∅, ∅. split; [|split].
    - unfold load_config_devices, _load_raw_config, read_config.
      unfold mbind, M_bind. rewrite Hmissing. simpl. by rewrite map_fold_empty.
    - unfold load_config_groups, _load_raw_config, read_config.
      unfold mbind, M_bind. by rewrite Hmissing.
    - intros k v. by rewrite lookup_empty. }
  clear Hstart. revert w Hs. induction cs as [|c cs IH]; intros w Hs; [done|].
  simpl. apply IH. by apply invoke_sound.
Qed.

(** X28: Groups of a resolvable registry resolve.  In a resolvable
    registry, resolving a group by name either returns one target per
    member of the group, in order, or fails because the group does not
    exist or is empty: it never meets an unknown nickname or an invalid
    member, and it leaves the world as it is. *)
Theorem sound_group_resolves (w : world) (g : string) device model :
  sound w → g ≠ "" →
  (∃ ts, ts ≠ [] ∧ resolve_targets None device model (Some g) w = (Ok ts, w))
  ∨ resolve_targets None device model (Some g) w = (Raise (GroupNotFound g), w)
  ∨ resolve_targets None device model (Some g) w = (Raise (EmptyGroup g), w).
Proof.
  intros (devmap & gs & Hd & Hgs & Hall) Hg.
  rewrite (resolve_group_run g None device model w devmap gs Hg eq_refl Hd Hgs).
  destruct (gs !! g) as [v|] eqn:Eg; [|by right; left].
  destruct (Hall _ _ Eg) as (ms & -> & Hms).
  destruct (resolvable_targets _ _ Hms) as (ts & Hts).
  unfold mbind, M_bind, lift. simpl.
  rewrite (resolve_members_targets _ _ _ _ Hts).
  destruct Hts; [by right; right|]. left. eexists. split; [|done]. done.
Qed.

End SoundFacts.

Lemma commands_keep_registry_sound_witness :
  sound (invoke_all [NamesAdd "lamp" "dev1" "H6008"; GroupsAdd "room";
                     GroupsAddMembers "room" (Some ["lamp"]) (Some ["x:H1"]);
                     GroupsAddMembers "room" (Some ["ghost"]) None;
                     NamesRemove "lamp"]
                    (demo_world Missing [])).
Proof. apply commands_keep_registry_sound. left. reflexivity. Defined.

Lemma sound_group_resolves_witness :
  (∃ ts, ts ≠ []
         ∧ resolve_targets None None None (Some "room")
             (demo_world (room_file [JStr "lamp"; inline_x]) [])
           = (Ok ts, demo_world (room_file [JStr "lamp"; inline_x]) []))
  ∨ resolve_targets None None None (Some "room")
      (demo_world (room_file [JStr "lamp"; inline_x]) [])
    = (Raise (GroupNotFound "room"), demo_world (room_file [JStr "lamp"; inline_x]) [])
  ∨ resolve_targets None None None (Some "room")
      (demo_world (room_file [JStr "lamp"; inline_x]) [])
    = (Raise (EmptyGroup "room"), demo_world (room_file [JStr "lamp"; inline_x]) []).
Proof.
  apply (sound_group_resolves (demo_world (room_file [JStr "lamp"; inline_x]) []) "room");
    [|discriminate].
  exists lamp_devmap, (<["room" := JArr [JStr "lamp"; inline_x]]> ∅).
  split; [apply room_file_devices|]. split; [apply room_file_groups|].
  intros g v Hg. destruct (decide (g = "room")) as [->|Hne].
  - rewrite lookup_insert_eq in Hg. injection Hg as <-.
    exists [JStr "lamp"; inline_x]. split; [reflexivity|].
    constructor; [|constructor; [|constructor]].
    + eexists. apply (nickname_target lamp_devmap "lamp" (Ent "dev1" "H6008")).
      vm_compute; reflexivity.
    + eexists. apply (inline_target lamp_devmap _ (JStr "x") (JStr "H1"));
        vm_compute; reflexivity.
  - rewrite lookup_insert_ne, lookup_empty in Hg by done. discriminate.
Defined.
